(** * lckg: the OpenAPI parsers of [langchain]

    A shallow embedding of

    - [langchain/chains/api/openapi/parser.py] (module [Parser]): the
      dictionary based parser that turns component schemas into pydantic
      types, with its visitation set [seen] and its cache [result];
    - [langchain/chains/api/openapi/typed_parser.py] (module
      [TypedParser]): the parser over the typed [OpenAPI] object model, which
      dereferences schemas in place;
    - [langchain/tools/openapi/utils/openapi_utils.py] (module
      [OpenAPIUtils]): the strict accessors of [OpenAPISpec];

    followed by the properties established about them.

    Conventions.  Python values that the code handles generically are the
    constructors of [Py.value]; a Python [dict] is an association list in
    insertion order with unique keys, a [set] of names is a [gset string].
    Python text is modelled by [string] (ASCII).  A call either returns,
    raises, or runs out of the recursion budget [fuel]: the latter stands for
    unbounded recursion.  Objects of the external libraries (pydantic,
    typing, openapi_schema_pydantic) are modelled by constructors which
    record the arguments they were built from. *)

From Stdlib Require Import String Ascii List ZArith Lia Bool.
From stdpp Require Import base gmap sets list strings.

Set Warnings "-register-all".

Local Open Scope string_scope.
Local Open Scope list_scope.

(** ** Python strings *)

Module PyStr.

Definition is_lower (c : ascii) : bool :=
  let n := nat_of_ascii c in (97 <=? n)%nat && (n <=? 122)%nat.

Definition is_upper (c : ascii) : bool :=
  let n := nat_of_ascii c in (65 <=? n)%nat && (n <=? 90)%nat.

Definition is_digit (c : ascii) : bool :=
  let n := nat_of_ascii c in (48 <=? n)%nat && (n <=? 57)%nat.

(** The character class [[a-zA-Z0-9]]. *)
Definition is_alnum (c : ascii) : bool :=
  is_lower c || is_upper c || is_digit c.

Definition upper_char (c : ascii) : ascii :=
  if is_lower c then ascii_of_nat (nat_of_ascii c - 32) else c.

Fixpoint map_chars (f : ascii -> ascii) (s : string) : string :=
  match s with
  | EmptyString => EmptyString
  | String c r => String (f c) (map_chars f r)
  end.

(** [s.upper()] *)
Definition upper (s : string) : string := map_chars upper_char s.

(** [s.replace(old, new)] for one-character [old] and [new]. *)
Definition replace_char (old new : ascii) (s : string) : string :=
  map_chars (fun c => if Ascii.eqb c old then new else c) s.

(** [re.sub(r"[^a-zA-Z0-9]", "_", s)] *)
Definition sub_non_alnum (s : string) : string :=
  map_chars (fun c => if is_alnum c then c else "_"%char) s.

(** [s.lstrip(c)] for a one-character argument: every leading [c] goes. *)
Fixpoint lstrip_char (c : ascii) (s : string) : string :=
  match s with
  | EmptyString => EmptyString
  | String a r => if Ascii.eqb a c then lstrip_char c r else s
  end.

(** [s.split(sep)] for a one-character separator; never empty. *)
Fixpoint split_char (sep : ascii) (s : string) : list string :=
  match s with
  | EmptyString => [EmptyString]
  | String a r =>
      if Ascii.eqb a sep then EmptyString :: split_char sep r
      else match split_char sep r with
           | [] => [String a EmptyString]
           | h :: t => String a h :: t
           end
  end.

(** [l[-1]] on the outcome of [split]. *)
Definition last_segment (sep : ascii) (s : string) : string :=
  List.last (split_char sep s) EmptyString.

Definition is_space (c : ascii) : bool :=
  let n := nat_of_ascii c in
  ((9 <=? n)%nat && (n <=? 13)%nat) || ((28 <=? n)%nat && (n <=? 32)%nat).

Fixpoint lstrip_space (s : string) : string :=
  match s with
  | EmptyString => EmptyString
  | String a r => if is_space a then lstrip_space r else s
  end.

Fixpoint rstrip_space (s : string) : string :=
  match s with
  | EmptyString => EmptyString
  | String a r =>
      match rstrip_space r with
      | EmptyString => if is_space a then EmptyString else String a EmptyString
      | r' => String a r'
      end
  end.

(** [s.strip()] *)
Definition strip (s : string) : string := rstrip_space (lstrip_space s).

(** [sub in s] *)
Fixpoint is_substring (sub s : string) : bool :=
  String.prefix sub s ||
  match s with
  | EmptyString => false
  | String _ r => is_substring sub r
  end.

(** [sorted(names)]: insertion sort on the code point order. *)
Fixpoint insert_sorted (x : string) (l : list string) : list string :=
  match l with
  | [] => [x]
  | y :: r => if String.leb x y then x :: l else y :: insert_sorted x r
  end.

Definition sorted (l : list string) : list string :=
  fold_right insert_sorted [] l.

End PyStr.

(** ** Python values, exceptions and dictionaries *)

Module Py.

(** The default of a pydantic field declaration [(type, default)]:
    [...] marks the field required, [None] makes it optional. *)
Inductive dflt := Ellipsis | DefaultNone.

(** [APIPropertyLocation] of models.py. *)
Inductive location := QUERY | PATH | HEADER | COOKIE.

(** [HTTPVerb] of models.py and openapi_utils.py. *)
Inductive HTTPVerb := GET | PUT | POST | DELETE | OPTIONS | HEAD | PATCH | TRACE.

(** The values parser.py computes with: the deserialised document
    ([None], booleans, numbers, text, lists, dicts), the type objects it
    produces, and the records of models.py. *)
Inductive value :=
| VNone
| VBool (b : bool)
| VInt (z : Z)
| VStr (s : string)
| VList (l : list value)
| VDict (d : list (string * value))
| TInt | TFloat | TStr | TBool      (* the classes int, float, str, bool *)
| TList (item : value)              (* list[item] and List[item] *)
| TUnion (args : list value)        (* Union[args] *)
| TModel (name : string) (fields : list (string * value))
                                    (* the class built by _create_pydantic_model *)
| VField (type_ : value) (default : dflt)
                                    (* the declaration (type, default) of a field,
                                       and its entry in __fields__, whose
                                       .default the source compares with ... *)
| VAPIProperty (friendly_name name required type_ default : value)
               (loc : location).

(** Exceptions.  [msg] is the literal text of the message; [args] lists
    the Python objects an f-string interpolates into it, in order (text
    that is interpolated is part of [msg] already). *)
Inductive exn :=
| KeyError (key : value)
| IndexError
| TypeError (msg : string)
| AttributeError (attr : string)
| NameError (name : string)
| ValueError (msg : string) (args : list value)
| APIParsingError (msg : string) (args : list value)
| NotImplementedError (msg : string) (args : list value).

(** The outcome of a call. *)
Inductive res (A : Type) :=
| Ok (a : A)
| Raise (e : exn)
| OutOfFuel.
Arguments Ok {A} a.
Arguments Raise {A} e.
Arguments OutOfFuel {A}.

#[export] Instance res_ret : MRet res := fun A a => Ok a.

#[export] Instance res_bind : MBind res := fun A B k m =>
  match m with
  | Ok a => k a
  | Raise e => Raise e
  | OutOfFuel => OutOfFuel
  end.

(** *** dict *)

Section Dict.
Context {V : Type}.
Abbreviation dict := (list (string * V)).

Fixpoint dict_get (k : string) (d : dict) : option V :=
  match d with
  | [] => None
  | (k', v) :: r => if String.eqb k k' then Some v else dict_get k r
  end.

Definition dict_mem (k : string) (d : dict) : bool :=
  match dict_get k d with Some _ => true | None => false end.

Definition keys (d : dict) : list string := map fst d.

(** [d[k] = v]: an existing key keeps its position. *)
Fixpoint dict_set (k : string) (v : V) (d : dict) : dict :=
  match d with
  | [] => [(k, v)]
  | (k', v') :: r =>
      if String.eqb k k' then (k, v) :: r else (k', v') :: dict_set k v r
  end.

(** [d.update(other)] *)
Definition dict_update (d other : dict) : dict :=
  fold_left (fun acc kv => dict_set (fst kv) (snd kv) acc) other d.

(** [d.pop(k, None)], the popped value dropped. *)
Fixpoint dict_remove (k : string) (d : dict) : dict :=
  match d with
  | [] => []
  | (k', v') :: r =>
      if String.eqb k k' then r else (k', v') :: dict_remove k r
  end.
End Dict.

(** *** Generic operations, raising as Python does on the wrong shape *)

Definition truthy (v : value) : bool :=
  match v with
  | VNone => false
  | VBool b => b
  | VInt z => negb (Z.eqb z 0)
  | VStr s => negb (String.eqb s "")
  | VList l => match l with [] => false | _ => true end
  | VDict d => match d with [] => false | _ => true end
  | _ => true
  end.

Definition is_str (s : string) (v : value) : bool :=
  match v with VStr s' => String.eqb s s' | _ => false end.

Definition is_none (v : value) : bool :=
  match v with VNone => true | _ => false end.

(** [k in c] for a text [k]. *)
Definition contains (k : string) (c : value) : res bool :=
  match c with
  | VDict d => Ok (dict_mem k d)
  | VList l => Ok (existsb (is_str k) l)
  | VStr s => Ok (PyStr.is_substring k s)
  | _ => Raise (TypeError "argument is not iterable")
  end.

(** [c[k]] for a text [k]. *)
Definition getitem (c : value) (k : string) : res value :=
  match c with
  | VDict d =>
      match dict_get k d with
      | Some v => Ok v
      | None => Raise (KeyError (VStr k))
      end
  | VList _ | VStr _ => Raise (TypeError "indices must be integers")
  | _ => Raise (TypeError "object is not subscriptable")
  end.

(** [c.get(k, default)] *)
Definition get_or (c : value) (k : string) (default : value) : res value :=
  match c with
  | VDict d =>
      match dict_get k d with
      | Some v => Ok v
      | None => Ok default
      end
  | _ => Raise (AttributeError "get")
  end.

(** [c.get(k)] *)
Definition get (c : value) (k : string) : res value := get_or c k VNone.

(** [c.items()] *)
Definition items (c : value) : res (list (string * value)) :=
  match c with
  | VDict d => Ok d
  | _ => Raise (AttributeError "items")
  end.

(** [c.keys()] *)
Definition keys_of (c : value) : res (list string) :=
  match c with
  | VDict d => Ok (keys d)
  | _ => Raise (AttributeError "keys")
  end.

Definition chars (s : string) : list value :=
  map (fun c => VStr (String c EmptyString)) (list_ascii_of_string s).

(** The elements [for x in c] visits. *)
Definition iter (c : value) : res (list value) :=
  match c with
  | VList l => Ok l
  | VDict d => Ok (map VStr (keys d))
  | VStr s => Ok (chars s)
  | _ => Raise (TypeError "object is not iterable")
  end.

(** [len(c)] *)
Definition len (c : value) : res nat :=
  match c with
  | VList l => Ok (length l)
  | VDict d => Ok (length d)
  | VStr s => Ok (String.length s)
  | _ => Raise (TypeError "object has no len()")
  end.

(** [v.split("/")] *)
Definition split_slash (v : value) : res (list string) :=
  match v with
  | VStr s => Ok (PyStr.split_char "/" s)
  | _ => Raise (AttributeError "split")
  end.

Definition hashable (v : value) : bool :=
  match v with
  | VList _ | VDict _ => false
  | _ => true
  end.

(** [c[0]] *)
Definition getitem0 (c : value) : res value :=
  match c with
  | VList (x :: _) => Ok x
  | VList [] => Raise IndexError
  | VStr (String a _) => Ok (VStr (String a EmptyString))
  | VStr EmptyString => Raise IndexError
  | VDict _ => Raise (KeyError (VInt 0))
  | _ => Raise (TypeError "object is not subscriptable")
  end.

(** [d.update(other)].  Python also accepts a sequence of pairs; a
    deserialised document offers a dict here, and the empty sequences are
    the only other arguments modelled as accepted. *)
Definition update (d : list (string * value)) (other : value)
  : res (list (string * value)) :=
  match other with
  | VDict o => Ok (dict_update d o)
  | VList [] | VStr EmptyString => Ok d
  | VList _ | VStr _ =>
      Raise (ValueError "dictionary update sequence element has wrong length" [])
  | _ => Raise (TypeError "object is not iterable")
  end.

(** [typing.Union[tuple(args)]]: no argument is an error, one argument is
    that argument; otherwise the arguments are recorded as given. *)
Definition typing_Union (args : list value) : res value :=
  match args with
  | [] => Raise (TypeError "Cannot take a Union of no types.")
  | [t] => Ok t
  | _ => Ok (TUnion args)
  end.

End Py.

(** ** parser.py *)

Module Parser.
Import Py.

(** The two mutable objects every resolution call shares: the cache
    [result] (a dict from component name to the type made for it) and the
    visitation set [seen].  Both are passed by reference in the source, so
    what a callee adds is visible to its caller afterwards. *)
Record state := State {
  result : list (string * value);
  seen : gset string
}.

Definition M (A : Type) : Type := state -> res (A * state).

#[export] Instance M_ret : MRet M := fun A a st => Ok (a, st).

#[export] Instance M_bind : MBind M := fun A B k m st =>
  match m st with
  | Ok (a, st') => k a st'
  | Raise e => Raise e
  | OutOfFuel => OutOfFuel
  end.

Definition lift {A} (r : res A) : M A := fun st =>
  match r with
  | Ok a => Ok (a, st)
  | Raise e => Raise e
  | OutOfFuel => OutOfFuel
  end.

Definition raise {A} (e : exn) : M A := fun _ => Raise e.

Definition get_result : M (list (string * value)) := fun st => Ok (result st, st).
Definition get_seen : M (gset string) := fun st => Ok (seen st, st).

(** [result[name] = v] *)
Definition result_set (name : string) (v : value) : M unit := fun st =>
  Ok (tt, State (dict_set name v (result st)) (seen st)).

(** [seen.add(name)] *)
Definition seen_add (name : string) : M unit := fun st =>
  Ok (tt, State (result st) ({[name]} ∪ seen st)).

(** A call that passes no [seen]: the callee starts from [set()], and its
    set is not the caller's; [result] is still shared. *)
Definition fresh_seen {A} (m : M A) : M A := fun st =>
  match m (State (result st) ∅) with
  | Ok (a, st') => Ok (a, State (result st') (seen st))
  | Raise e => Raise e
  | OutOfFuel => OutOfFuel
  end.

Definition PRIMITIVE_TYPES : list (string * value) :=
  [("number", TFloat); ("integer", TInt); ("string", TStr);
   ("boolean", TBool); ("null", VNone)].

(** [v in PRIMITIVE_TYPES] *)
Definition in_PRIMITIVE_TYPES (v : value) : res bool :=
  if hashable v then
    Ok (match v with VStr s => dict_mem s PRIMITIVE_TYPES | _ => false end)
  else Raise (TypeError "unhashable type").

(** [PRIMITIVE_TYPES[v]] *)
Definition PRIMITIVE_TYPES_at (v : value) : res value :=
  if hashable v then
    match v with
    | VStr s =>
        match dict_get s PRIMITIVE_TYPES with
        | Some t => Ok t
        | None => Raise (KeyError v)
        end
    | _ => Raise (KeyError v)
    end
  else Raise (TypeError "unhashable type").

(** [_get_cleaned_operation_id(operation_id, path, verb)] *)
Definition _get_cleaned_operation_id (operation_id : value) (path verb : string)
  : res string :=
  let operation_id :=
    if is_none operation_id then
      (* Replace all punctuation of any kind with underscore *)
      let path := PyStr.sub_non_alnum (PyStr.lstrip_char "/" path) in
      VStr (path ++ PyStr.upper verb)
    else operation_id in
  match operation_id with
  | VStr s =>
      Ok (PyStr.replace_char "/" "_"
            (PyStr.replace_char "." "_" (PyStr.replace_char "-" "_" s)))
  | _ => Raise (AttributeError "replace")
  end.

(** [logging.Logger.warning(...)]: the function
    [warning(self, msg, *args, **kwargs)] fetched from the class, so the
    first positional argument is bound to [self]. *)
Definition Logger_warning (positional : list value) : res unit :=
  match positional with
  | [] =>
      Raise (TypeError
        "Logger.warning() missing 2 required positional arguments: 'self' and 'msg'")
  | [_] =>
      Raise (TypeError
        "Logger.warning() missing 1 required positional argument: 'msg'")
  | _ :: _ :: _ => Raise (AttributeError "isEnabledFor")
  end.

(** [_get_base_url_from_spec(spec)] *)
Definition _get_base_url_from_spec (spec : value) : res string :=
  servers ← get_or spec "servers" (VList []);
  n ← len servers;
  _ ← (if (1 <? n)%nat then
         Logger_warning
           [VStr ("Multiple servers found in OpenAPI Spec."
                  ++ " Selecting first, likely resulting in downstream errors.")]
       else Ok tt);
  first ← getitem0 servers;
  url ← get_or first "url" (VStr "");
  match url with
  | VStr u =>
      let base_url := PyStr.strip u in
      if String.eqb base_url "" then
        Raise (APIParsingError "No base URL found in OpenAPI Spec. Found servers: "
                 [servers])
      else Ok base_url
  | _ => Raise (AttributeError "strip")
  end.

(** [_create_pydantic_model(name, fields)]: the class is recorded with its
    name and the declarations of its fields; the checks pydantic makes on
    field names are not modelled. *)
Definition _create_pydantic_model (name : string) (fields : list (string * value))
  : value :=
  let fields :=
    match dict_get "schema" fields with
    | Some v => (* Shadows a BaseModel attribute *)
        dict_set "schema_" v (dict_remove "schema" fields)
    | None => fields
    end in
  TModel name fields.

(** [m.__fields__] *)
Definition fields_of (m : value) : res (list (string * value)) :=
  match m with
  | TModel _ fields => Ok fields
  | _ => Raise (AttributeError "__fields__")
  end.

(** [hasattr(m, "__fields__")]: of the values resolution puts in [result],
    the generated models have fields. *)
Definition has_fields (m : value) : bool :=
  match m with TModel _ _ => true | _ => false end.

(** [[field for field, value in fields.items() if value.default is ...]] *)
Fixpoint required_fields (fields : list (string * value)) : res (list value) :=
  match fields with
  | [] => Ok []
  | (field, VField _ d) :: rest =>
      r ← required_fields rest;
      Ok (match d with Ellipsis => VStr field :: r | DefaultNone => r end)
  | _ :: _ => Raise (AttributeError "default")
  end.

(** [s.get("type") in {"object", None}] *)
Definition type_object_or_none (s : value) : res bool :=
  t ← get s "type";
  if hashable t then Ok (is_str "object" t || is_none t)
  else Raise (TypeError "unhashable type").

(** *** The resolver

    [_create_model_from_fields] and [_create_component_model] read the
    module-level name [spec] when they call [_get_pydantic_type]: it is no
    parameter of theirs.  [spec_global] is the binding of that name, if
    there is one; reading it unbound raises [NameError].

    The three functions are mutually recursive through
    [_get_pydantic_type] alone, so the first two are written over [rec],
    the resolver one level down. *)

Section Resolver.
Variable spec_global : option value.
Variable rec : value -> value -> M value.
    (* rec schema spec = _get_pydantic_type(schema, result, spec, seen=seen) *)

Definition read_spec : M value :=
  match spec_global with
  | Some spec => mret spec
  | None => raise (NameError "spec")
  end.

(** The loop of [_create_model_from_fields]. *)
Fixpoint fields_loop (properties : list (string * value)) (required : value)
    (fields : list (string * value)) : M (list (string * value)) :=
  match properties with
  | [] => mret fields
  | (prop_name, prop_def) :: rest =>
      prop_type ←
        match prop_def with
        | VDict _ => spec ← read_spec; rec prop_def spec
        | _ => mret prop_def          (* Is already converted *)
        end;
      is_required ← lift (contains prop_name required);
      fields_loop rest required
        (dict_set prop_name
           (VField prop_type (if is_required : bool then Ellipsis else DefaultNone))
           fields)
  end.

(** [_create_model_from_fields(name, properties, required, result, seen)] *)
Definition _create_model_from_fields (name : string) (properties required : value)
  : M value :=
  props ← lift (items properties);
  fields ← fields_loop props required [];
  mret (_create_pydantic_model name fields).

(** [[_get_pydantic_type(s, result, spec, seen=seen) for s in branches]],
    where [the_spec] evaluates the argument [spec]. *)
Fixpoint types_of (the_spec : M value) (branches : list value) : M (list value) :=
  match branches with
  | [] => mret []
  | s :: rest =>
      spec ← the_spec;
      t ← rec s spec;
      ts ← types_of the_spec rest;
      mret (t :: ts)
  end.

(** The [allOf] loop of [_create_component_model]. *)
Fixpoint component_allOf_loop (branches : list value)
    (all_properties : list (string * value)) (all_required : list value)
  : M (list (string * value) * list value) :=
  match branches with
  | [] => mret (all_properties, all_required)
  | s :: rest =>
      has_properties ← lift (contains "properties" s);
      if has_properties : bool then
        props ← lift (getitem s "properties");
        all_properties ← lift (update all_properties props);
        req ← lift (get_or s "required" (VList []));
        req ← lift (iter req);
        component_allOf_loop rest all_properties (all_required ++ req)
      else
        has_ref ← lift (contains "$ref" s);
        if has_ref : bool then
          spec ← read_spec;
          ref_model ← rec s spec;
          fields ← lift (fields_of ref_model);
          all_properties ← lift (update all_properties (VDict fields));
          req ← lift (required_fields fields);
          component_allOf_loop rest all_properties (all_required ++ req)
        else
          skip ← lift (type_object_or_none s);
          if skip : bool then
            (* Unqualified object means it accepts an arbitrary dict object *)
            component_allOf_loop rest all_properties all_required
          else raise (ValueError "Unsupported schema in allOf: " [s])
  end.

(** [_create_component_model(name, model_def, result, seen)] *)
Definition _create_component_model (name : string) (model_def : value)
  : M value :=
  visited ← get_seen;
  if decide (name ∈ visited) then
    (* Cycle detected in the spec definitions *)
    mret (VStr name)
  else
    _ ← seen_add name;
    has_anyOf ← lift (contains "anyOf" model_def);
    has_alt ← (if has_anyOf : bool then mret true
               else lift (contains "oneOf" model_def));
    if has_alt : bool then
      has_anyOf ← lift (contains "anyOf" model_def);
      let key := if has_anyOf : bool then "anyOf" else "oneOf" in
      branches ← lift (getitem model_def key);
      branches ← lift (iter branches);
      types ← types_of read_spec branches;
      match types return M value with
      | [t] => mret t
      | _ => lift (typing_Union types)
      end
    else
      has_allOf ← lift (contains "allOf" model_def);
      if has_allOf : bool then
        branches ← lift (getitem model_def "allOf");
        branches ← lift (iter branches);
        '(properties, required) ← component_allOf_loop branches [] [];
        _create_model_from_fields name (VDict properties) (VList required)
      else
        type_ ← lift (get model_def "type");
        props ← lift (get model_def "properties");
        if is_str "object" type_ || truthy props then
          properties ← lift (get_or model_def "properties" (VDict []));
          required ← lift (get_or model_def "required" (VList []));
          _create_model_from_fields name properties required
        else
          is_primitive ← lift (in_PRIMITIVE_TYPES type_);
          if is_primitive : bool then
            (* No need to generate a pydantic object for top-level primitive types *)
            lift (PRIMITIVE_TYPES_at type_)
          else if is_str "array" type_ then
            _ ← lift (getitem model_def "items");
            (* _get_pydantic_type(model_def["items"], result, seen=seen) *)
            raise (TypeError
              "_get_pydantic_type() missing 1 required positional argument: 'spec'")
          else if is_none type_ then
            (* Couldn't be that important if it's not documented now, could it? *)
            mret VNone
          else raise (ValueError "Unsupported model definition: " [model_def]).

(** [ref_model_def = spec; for p in path: ref_model_def = ref_model_def[p]] *)
Fixpoint follow_path (ref_model_def : value) (path : list string) : res value :=
  match path with
  | [] => Ok ref_model_def
  | p :: rest => d ← getitem ref_model_def p; follow_path d rest
  end.

(** [result[name]] *)
Definition result_at (name : string) : M value :=
  cache ← get_result;
  match dict_get name cache with
  | Some v => mret v
  | None => raise (KeyError (VStr name))
  end.

(** The [allOf] loop of [_get_pydantic_type]; its reference branches are
    resolved by [_get_pydantic_type(s, result, spec)], without [seen]. *)
Fixpoint allOf_loop (spec : value) (branches : list value)
    (all_properties : list (string * value)) (all_required prim_types : list value)
  : M (list (string * value) * list value * list value) :=
  match branches with
  | [] => mret (all_properties, all_required, prim_types)
  | s :: rest =>
      has_properties ← lift (contains "properties" s);
      if has_properties : bool then
        props ← lift (getitem s "properties");
        all_properties ← lift (update all_properties props);
        req ← lift (get_or s "required" (VList []));
        req ← lift (iter req);
        allOf_loop spec rest all_properties (all_required ++ req) prim_types
      else
        has_ref ← lift (contains "$ref" s);
        if has_ref : bool then
          ref_model ← fresh_seen (rec s spec);
          if has_fields ref_model then
            (* Generated type *)
            fields ← lift (fields_of ref_model);
            all_properties ← lift (update all_properties (VDict fields));
            req ← lift (required_fields fields);
            allOf_loop spec rest all_properties (all_required ++ req) prim_types
          else
            allOf_loop spec rest all_properties all_required
              (prim_types ++ [ref_model])
        else
          (* logger.warning(f"Unsupported schema in allOf: {s}"); continue *)
          allOf_loop spec rest all_properties all_required prim_types
  end.

(** The body of [_get_pydantic_type(schema, result, spec, seen)]. *)
Definition _get_pydantic_type_body (schema spec : value) : M value :=
  has_ref ← lift (contains "$ref" schema);
  if has_ref : bool then
    ref ← lift (getitem schema "$ref");
    ref_path ← lift (split_slash ref);
    let ref_model_name := List.last ref_path "" in
    cache ← get_result;
    if negb (dict_mem ref_model_name cache) then
      ref_model_def ← lift (follow_path spec (List.tl ref_path));
      type_ ← lift (get ref_model_def "type");
      is_primitive ← lift (in_PRIMITIVE_TYPES type_);
      if is_primitive : bool then lift (PRIMITIVE_TYPES_at type_)
      else
        cache ← get_result;
        match dict_get ref_model_name cache with
        | Some model =>
            (* Guard against infinite recursion *)
            mret model
        | None =>
            visited ← get_seen;
            if decide (ref_model_name ∈ visited) then
              (* Going to have to use a forward reference here. *)
              mret (VStr ref_model_name)
            else
              model ← _create_component_model ref_model_name ref_model_def;
              _ ← result_set ref_model_name model;
              result_at ref_model_name
        end
    else result_at ref_model_name
  else
    schema_type ← lift (get schema "type");
    props ← lift (get schema "properties");
    if is_str "object" schema_type || truthy props then
      _create_component_model "AnonymousModel" schema
    else if is_str "array" schema_type then
      item ← lift (getitem schema "items");
      t ← rec item spec;
      mret (TList t)
    else if is_str "integer" schema_type then mret TInt
    else if is_str "number" schema_type then mret TFloat
    else if is_str "string" schema_type then mret TStr
    else if is_str "boolean" schema_type then mret TBool
    else if is_str "null" schema_type then mret VNone
    else
      has_oneOf ← lift (contains "oneOf" schema);
      has_alt ← (if has_oneOf : bool then mret true
                 else lift (contains "anyOf" schema));
      if has_alt : bool then
        let key := if has_oneOf : bool then "oneOf" else "anyOf" in
        branches ← lift (getitem schema key);
        branches ← lift (iter branches);
        types ← types_of (mret spec) branches;
        lift (typing_Union types)
      else
        has_allOf ← lift (contains "allOf" schema);
        if has_allOf : bool then
          branches ← lift (getitem schema "allOf");
          branches ← lift (iter branches);
          '(all_properties, all_required, prim_types) ←
            allOf_loop spec branches [] [] [];
          match prim_types return M value with
          | _ :: _ =>
              if truthy (VDict all_properties) then
                raise (APIParsingError
                  "Cannot mix primitives and non-primitives in allOf: " [schema])
              else
                match prim_types return M value with
                | [prim] => mret prim
                | _ =>
                    raise (APIParsingError
                      "Cannot have multiple primitive types in an allOf: " [schema])
                end
          | [] =>
              (* Object types *)
              let allof_def :=
                VDict [("properties", VDict all_properties);
                       ("type", VStr "object");
                       ("required", VList all_required)] in
              _create_component_model "MergedModel" allof_def
          end
        else if is_none schema_type then
          (* It couldn't be that important now could it? *)
          mret VNone
        else raise (ValueError "Unsupported schema: " [schema]).

(** The loop of [extract_components]: each component is built by
    [_create_component_model(model_name, model_def, result)], without
    [seen]. *)
Fixpoint extract_loop (schemas : list (string * value)) : M unit :=
  match schemas with
  | [] => mret tt
  | (model_name, model_def) :: rest =>
      model ← fresh_seen (_create_component_model model_name model_def);
      _ ← result_set model_name model;
      extract_loop rest
  end.

End Resolver.

(** [_get_pydantic_type(schema, result, spec, seen)]; [fuel] bounds the
    depth of the calls to it. *)
Fixpoint _get_pydantic_type (spec_global : option value) (fuel : nat)
    (schema spec : value) : M value :=
  match fuel with
  | 0 => fun _ => OutOfFuel
  | S n =>
      _get_pydantic_type_body spec_global (_get_pydantic_type spec_global n)
        schema spec
  end.


(** [extract_components(spec)] *)
Definition extract_components (spec_global : option value) (fuel : nat)
    (spec : value) : res (list (string * value)) :=
  components ← get_or spec "components" (VDict []);
  schemas ← get_or components "schemas" (VDict []);
  schemas ← items schemas;
  match extract_loop spec_global (_get_pydantic_type spec_global fuel) schemas
          (State [] ∅) with
  | Ok (_, st) => Ok (result st)
  | Raise e => Raise e
  | OutOfFuel => OutOfFuel
  end.

(** *** Parameters and operations *)

(** [APIPropertyLocation(v)] *)
Definition APIPropertyLocation_of (v : value) : res location :=
  match v with
  | VStr s =>
      if String.eqb s "query" then Ok QUERY
      else if String.eqb s "path" then Ok PATH
      else if String.eqb s "header" then Ok HEADER
      else if String.eqb s "cookie" then Ok COOKIE
      else Raise (ValueError "is not a valid APIPropertyLocation" [v])
  | _ => Raise (ValueError "is not a valid APIPropertyLocation" [v])
  end.

Definition verb_value (v : HTTPVerb) : string :=
  match v with
  | GET => "get" | PUT => "put" | POST => "post" | DELETE => "delete"
  | OPTIONS => "options" | HEAD => "head" | PATCH => "patch" | TRACE => "trace"
  end.

Definition all_verbs : list HTTPVerb :=
  [GET; PUT; POST; DELETE; OPTIONS; HEAD; PATCH; TRACE].

(** [HTTPVerb.from_str(verb)] *)
Definition HTTPVerb_from_str (verb : string) : res HTTPVerb :=
  match List.find (fun v => String.eqb verb (verb_value v)) all_verbs with
  | Some v => Ok v
  | None => Raise (ValueError "Invalid HTTP verb. Valid values are " [])
  end.

(** [APIOperation] of models.py; pydantic's validation of the fields is
    not modelled. *)
Record APIOperation := {
  operation_id : string;
  description : value;
  base_url : string;
  path : string;
  method : HTTPVerb;
  properties : list value;
  request_body : value
}.

(** [parameters[name]] *)
Definition dict_at (d : list (string * value)) (name : string) : res value :=
  match dict_get name d with
  | Some v => Ok v
  | None => Raise (KeyError (VStr name))
  end.

(** [_create_pydantic_model_from_parameter(name, parameter, parameters)];
    the outcome is [parameters] after the call. *)
Definition _create_pydantic_model_from_parameter (name : string)
    (parameter : value) (parameters : list (string * value))
  : res (list (string * value)) :=
  required ← get_or parameter "required" (VBool false);
  param_name ← getitem parameter "name";
  in_ ← getitem parameter "in";
  location ← APIPropertyLocation_of in_;
  schema ← getitem parameter "schema";
  has_type ← contains "type" schema;
  type_ ←
    (if has_type : bool then
       t ← getitem schema "type";
       PRIMITIVE_TYPES_at t
     else
       has_ref ← contains "$ref" schema;
       if has_ref : bool then
         ref ← getitem schema "$ref";
         ref_path ← split_slash ref;
         let ref_name := List.last ref_path "" in
         known ← contains ref_name parameter;
         if negb known then
           Raise (APIParsingError
                    ("Could not resolve reference '" ++ ref_name ++ "'")
                    [VList (map VStr (PyStr.sorted (keys parameters)))])
         else
           p ← dict_at parameters ref_name;
           _ ← (if is_none p then
                  (* _create_pydantic_model_from_parameter(ref_name, parameters) *)
                  Raise (TypeError
                    "_create_pydantic_model_from_parameter() missing 1 required positional argument: 'parameters'")
                else Ok tt);
           dict_at parameters ref_name
       else
         Raise (NotImplementedError
                  ("Could not determine type of parameter '" ++ name ++ "' in schema ")
                  [schema]));
  default ← get_or schema "default" VNone;
  Ok (dict_set name
        (VAPIProperty (VStr name) param_name required type_ default location)
        parameters).

(** The loop of [_parse_spec_parameters]. *)
Fixpoint parse_parameters_loop (param_names : list string) (spec_parameters : value)
    (parameters : list (string * value)) : res (list (string * value)) :=
  match param_names with
  | [] => Ok parameters
  | name :: rest =>
      param ← getitem spec_parameters name;
      parameters ←
        (match dict_get name parameters with
         | None | Some VNone =>
             _create_pydantic_model_from_parameter name param parameters
         | Some _ => Ok parameters
         end);
      parse_parameters_loop rest spec_parameters parameters
  end.

(** [_parse_spec_parameters(spec_parameters, parameters)]; the outcome is
    [parameters] after the call. *)
Definition _parse_spec_parameters (spec_parameters : value)
    (parameters : list (string * value)) : res (list (string * value)) :=
  names ← keys_of spec_parameters;
  parse_parameters_loop (PyStr.sorted names) spec_parameters parameters.

(** The loop of [_extract_api_properties]. *)
Fixpoint api_properties_loop (params : list value)
    (components : list (string * value)) (properties : list value)
  : res (list value) :=
  match params with
  | [] => Ok properties
  | param :: rest =>
      has_ref ← contains "$ref" param;
      property_ ←
        (if has_ref : bool then
           (* Check model_dict.parameters *)
           ref ← getitem param "$ref";
           ref_path ← split_slash ref;
           let param_name := List.last ref_path "" in
           if negb (dict_mem param_name components) then
             Raise (APIParsingError
                      ("Could not resolve reference '" ++ param_name ++ "'")
                      [VList (map VStr (PyStr.sorted (keys components)))])
           else dict_at components param_name
         else
           schema ← getitem param "schema";
           t ← getitem schema "type";
           type_ ← PRIMITIVE_TYPES_at t;
           friendly_name ← getitem param "name";
           name ← getitem param "name";
           required ← get_or param "required" (VBool false);
           default ← get schema "default";
           in_ ← getitem param "in";
           location ← APIPropertyLocation_of in_;
           Ok (VAPIProperty friendly_name name required type_ default location));
      api_properties_loop rest components (properties ++ [property_])
  end.

(** [_extract_api_properties(operation, components)] *)
Definition _extract_api_properties (operation : value)
    (components : list (string * value)) : res (list value) :=
  params ← get_or operation "parameters" (VList []);
  params ← iter params;
  api_properties_loop params components [].

(** [get_full_components_dict(spec)] *)
Definition get_full_components_dict (spec_global : option value) (fuel : nat)
    (spec : value) : res (list (string * value)) :=
  full_components_dict ← extract_components spec_global fuel spec;
  components ← get_or spec "components" (VDict []);
  parameters ← get_or components "parameters" (VDict []);
  _parse_spec_parameters parameters full_components_dict.

(** [parse_path(spec, path, verb, full_components_dict)]; [None] is the
    plain [return] of the source. *)
Definition parse_path (spec_global : option value) (fuel : nat) (spec : value)
    (path verb : string) (full_components_dict : option (list (string * value)))
  : res (option APIOperation) :=
  paths ← get_or spec "paths" (VDict []);
  item ← get_or paths path (VDict []);
  operation ← get item verb;
  if negb (truthy operation) then Ok None
  else
    full_components_dict ←
      (match full_components_dict with
       | Some (c :: d) => Ok (c :: d)
       | Some [] | None =>
           full_components_dict ← extract_components spec_global fuel spec;
           components ← get_or spec "components" (VDict []);
           parameters ← get_or components "parameters" (VDict []);
           _parse_spec_parameters parameters full_components_dict
       end);
    properties ← _extract_api_properties operation full_components_dict;
    http_verb ← HTTPVerb_from_str verb;
    explicit_id ← get operation "operationId";
    operation_id ← _get_cleaned_operation_id explicit_id path (verb_value http_verb);
    base_url ← _get_base_url_from_spec spec;
    description ← get_or operation "description" (VStr "");
    Ok (Some {| operation_id := operation_id;
                description := description;
                base_url := base_url;
                path := path;
                method := http_verb;
                properties := properties;
                request_body := VNone |}).

End Parser.

(** ** The typed document of openapi_schema_pydantic

    typed_parser.py and openapi_utils.py work on the [OpenAPI] object that
    pydantic builds from the document.  Its schemas, references and
    components are mutable objects reached through several paths at once (a
    component schema is the value of [components.schemas[name]] and, once
    dereferenced, of every property that referred to it), so they live in a
    store and are named by their location. *)

Module Doc.
Import Py.

Definition loc := positive.

(** The classes [_resolve_reference] can return besides [Schema]. *)
Inductive kind := KParameter | KRequestBody | KResponse.

Inductive obj :=
| Reference (ref : string) (description : option string)
| Schema (anyOf : option (list loc)) (properties : option (list (string * loc)))
         (description : option string)
         (others : value)     (* type, items, allOf, required, ...: never assigned *)
| Component (k : kind) (description : option string).

Record MediaType := { media_type_schema : option loc }.

Inductive request_body :=
| RequestBodyRef (ref : string)
| RequestBody (content : option (list (string * option MediaType))).

Record Operation := {
  operationId : option string;
  requestBody : option request_body
}.

(** A [PathItem]: the operation of each verb, in the order of [HTTPVerb]. *)
Record PathItem := {
  get_ : option Operation;
  put_ : option Operation;
  post_ : option Operation;
  delete_ : option Operation;
  options_ : option Operation;
  head_ : option Operation;
  patch_ : option Operation;
  trace_ : option Operation
}.

Record Server := { url : string }.

Record Components := {
  schemas : option (list (string * loc));
  parameters : option (list (string * loc));
  requestBodies : option (list (string * loc));
  responses : option (list (string * loc))
}.

Record OpenAPI := {
  servers : list Server;
  paths : option (list (string * PathItem));
  components : option Components
}.

Abbreviation heap := (gmap loc obj).

(** A call returns, raises or runs out of fuel, and leaves a store behind
    in each case. *)
Definition M (A : Type) : Type := heap -> res A * heap.

#[export] Instance M_ret : MRet M := fun A a h => (Ok a, h).

#[export] Instance M_bind : MBind M := fun A B k m h =>
  match m h with
  | (Ok a, h') => k a h'
  | (Raise e, h') => (Raise e, h')
  | (OutOfFuel, h') => (OutOfFuel, h')
  end.

Definition raise {A} (e : exn) : M A := fun h => (Raise e, h).

Definition out_of_fuel {A} : M A := fun h => (OutOfFuel, h).

(** [isinstance(x, Reference)] *)
Definition is_reference (x : loc) : M bool := fun h =>
  (Ok (match h !! x with Some (Reference _ _) => true | _ => false end), h).

(** [x.ref] *)
Definition ref_of (x : loc) : M string := fun h =>
  match h !! x with
  | Some (Reference r _) => (Ok r, h)
  | _ => (Raise (AttributeError "ref"), h)
  end.

(** [x.anyOf] *)
Definition anyOf_of (x : loc) : M (option (list loc)) := fun h =>
  match h !! x with
  | Some (Schema a _ _ _) => (Ok a, h)
  | _ => (Raise (AttributeError "anyOf"), h)
  end.

(** [x.properties] *)
Definition properties_of (x : loc) : M (option (list (string * loc))) := fun h =>
  match h !! x with
  | Some (Schema _ p _ _) => (Ok p, h)
  | _ => (Raise (AttributeError "properties"), h)
  end.

(** [x.description] *)
Definition description_of (x : loc) : M (option string) := fun h =>
  match h !! x with
  | Some (Reference _ d) | Some (Schema _ _ d _) | Some (Component _ d) => (Ok d, h)
  | None => (Raise (AttributeError "description"), h)
  end.

(** [x.anyOf = v] *)
Definition set_anyOf (x : loc) (v : list loc) : M unit := fun h =>
  match h !! x with
  | Some (Schema _ p d o) => (Ok tt, <[x := Schema (Some v) p d o]> h)
  | _ => (Raise (AttributeError "anyOf"), h)
  end.

(** [x.properties = v] *)
Definition set_properties (x : loc) (v : list (string * loc)) : M unit := fun h =>
  match h !! x with
  | Some (Schema a _ d o) => (Ok tt, <[x := Schema a (Some v) d o]> h)
  | _ => (Raise (AttributeError "properties"), h)
  end.

(** [x.description = v] *)
Definition set_description (x : loc) (v : option string) : M unit := fun h =>
  match h !! x with
  | Some (Reference r _) => (Ok tt, <[x := Reference r v]> h)
  | Some (Schema a p _ o) => (Ok tt, <[x := Schema a p v o]> h)
  | Some (Component k _) => (Ok tt, <[x := Component k v]> h)
  | None => (Raise (AttributeError "description"), h)
  end.

(** Truth value of an optional text, list or dict. *)
Definition text_truthy (d : option string) : bool :=
  match d with
  | Some s => negb (String.eqb s "")
  | None => false
  end.

Definition list_truthy {A} (l : option (list A)) : bool :=
  match l with
  | Some (_ :: _) => true
  | _ => false
  end.

End Doc.

(** ** typed_parser.py *)

Module TypedParser.
Import Py Doc.

Section Dereference.
Variable spec : OpenAPI.
Variable rec : loc -> M unit.
    (* rec schema = _dereference_children(schema, spec) *)

(** The loop over [component_types] of [_resolve_reference]. *)
Fixpoint find_component (ref_name : string)
    (component_types : list (option (list (string * loc)))) : option loc :=
  match component_types with
  | [] => None
  | component_type :: rest =>
      match component_type with
      | Some d =>
          match dict_get ref_name d with
          | Some x => Some x
          | None => find_component ref_name rest
          end
      | None => find_component ref_name rest
      end
  end.

(** [_resolve_reference(ref, spec)] *)
Definition _resolve_reference (ref : string) : M loc :=
  let ref_name := PyStr.last_segment "/" ref in
  match components spec with
  | None => raise (AttributeError "schemas")
  | Some c =>
      match schemas c with
      | None => raise (TypeError "argument of type 'NoneType' is not iterable")
      | Some ss =>
          match dict_get ref_name ss with
          | Some schema =>
              _ ← rec schema;
              mret schema
          | None =>
              match find_component ref_name
                      [parameters c; requestBodies c; responses c] with
              | Some x => mret x
              | None =>
                  raise (ValueError ("Reference " ++ ref ++ " not found in spec") [])
              end
          end
      end
  end.

(** The loop of [_dereference_anyof]. *)
Fixpoint anyof_loop (branches resolved_any_of : list loc) : M (list loc) :=
  match branches with
  | [] => mret resolved_any_of
  | any_of_schema :: rest =>
      is_ref ← is_reference any_of_schema;
      if is_ref : bool then
        ref ← ref_of any_of_schema;
        resolved ← _resolve_reference ref;
        anyof_loop rest (resolved_any_of ++ [resolved])
      else anyof_loop rest (resolved_any_of ++ [any_of_schema])
  end.

(** [_dereference_anyof(schema, spec)] *)
Definition _dereference_anyof (schema : loc) : M unit :=
  anyOf ← anyOf_of schema;
  if list_truthy anyOf then
    resolved_any_of ← anyof_loop (default [] anyOf) [];
    set_anyOf schema resolved_any_of
  else mret tt.

(** The loop of [_dereference_properties]. *)
Fixpoint properties_loop (props resolved_properties : list (string * loc))
  : M (list (string * loc)) :=
  match props with
  | [] => mret resolved_properties
  | (prop_name, prop_schema) :: rest =>
      is_ref ← is_reference prop_schema;
      resolved ← (if is_ref : bool then
                    ref ← ref_of prop_schema;
                    _resolve_reference ref
                  else mret prop_schema);
      let resolved_properties := dict_set prop_name resolved resolved_properties in
      _ ← rec resolved;
      properties_loop rest resolved_properties
  end.

(** [_dereference_properties(schema, spec)] *)
Definition _dereference_properties (schema : loc) : M unit :=
  properties ← properties_of schema;
  if list_truthy properties then
    resolved_properties ← properties_loop (default [] properties) [];
    set_properties schema resolved_properties
  else mret tt.

(** The body of [_dereference_children(schema, spec)]. *)
Definition _dereference_children_body (schema : loc) : M unit :=
  _ ← _dereference_anyof schema;
  _dereference_properties schema.

End Dereference.

(** [_dereference_children(schema, spec)]; [fuel] bounds the depth of the
    calls to it. *)
Fixpoint _dereference_children (spec : OpenAPI) (fuel : nat) (schema : loc)
  : M unit :=
  match fuel with
  | 0 => out_of_fuel
  | S n => _dereference_children_body spec (_dereference_children spec n) schema
  end.

(** [resolve_schema(schema, spec, description)] *)
Definition resolve_schema (spec : OpenAPI) (fuel : nat) (schema : loc)
    (description : option string) : M loc :=
  is_ref ← is_reference schema;
  _schema ← (if is_ref : bool then
               ref ← ref_of schema;
               _resolve_reference spec (_dereference_children spec fuel) ref
             else mret schema);
  _ ← (if text_truthy description then
         current ← description_of _schema;
         if negb (text_truthy current) then set_description _schema description
         else mret tt
       else mret tt);
  _ ← _dereference_children spec fuel _schema;
  mret _schema.

(** The loop of [_resolve_media_type_schema]. *)
Fixpoint media_type_loop (spec : OpenAPI) (fuel : nat)
    (content : list (string * option MediaType)) (supported_encodings : list string)
    (result : list (string * loc)) : M (list (string * loc)) :=
  match supported_encodings with
  | [] => mret result
  | encoding_style :: rest =>
      match dict_get encoding_style content with
      | None => raise (KeyError (VStr encoding_style))
      | Some None => media_type_loop spec fuel content rest result
      | Some (Some media_type) =>
          match media_type_schema media_type with
          | None => media_type_loop spec fuel content rest result
          | Some schema =>
              is_ref ← is_reference schema;
              request_body_schema ←
                (if is_ref : bool then
                   ref ← ref_of schema;
                   resolved ← _resolve_reference spec
                                (_dereference_children spec fuel) ref;
                   current ← description_of resolved;
                   _ ← (if negb (text_truthy current) then
                          d ← description_of schema;
                          set_description resolved d
                        else mret tt);
                   mret resolved
                 else mret schema);
              media_type_loop spec fuel content rest
                (dict_set encoding_style request_body_schema result)
          end
      end
  end.

(** [_resolve_media_type_schema(content, spec)] *)
Definition _resolve_media_type_schema (spec : OpenAPI) (fuel : nat)
    (content : list (string * option MediaType)) : M (list (string * loc)) :=
  media_type_loop spec fuel content (keys content) [].

(** [d.popitem()]: the pair inserted last. *)
Definition popitem {V} (d : list (string * V)) : option (string * V) :=
  List.last (map Some d) None.

(** [_resolve_request_body_schema(operation, spec)] *)
Definition _resolve_request_body_schema (spec : OpenAPI) (fuel : nat)
    (operation : Operation) : M (option loc * option string) :=
  match requestBody operation with
  | None => mret (None, None)
  | Some (RequestBodyRef _) => raise (AttributeError "content")
  | Some (RequestBody content) =>
      if list_truthy content then
        media_type_schema ←
          _resolve_media_type_schema spec fuel (default [] content);
        match popitem media_type_schema with
        | None => mret (None, None)
        | Some (encoding_style, media_type) =>
            mret (Some media_type, Some encoding_style)
        end
      else mret (None, None)
  end.

(** [get_cleaned_operation_id(operation, path, verb)] *)
Definition get_cleaned_operation_id (operation : Operation) (path verb : string)
  : string :=
  let operation_id :=
    match operationId operation with
    | None =>
        (* Replace all punctuation of any kind with underscore *)
        let path := PyStr.sub_non_alnum (PyStr.lstrip_char "/" path) in
        (path ++ PyStr.upper verb)%string
    | Some operation_id => operation_id
    end in
  PyStr.replace_char "/" "_"
    (PyStr.replace_char "." "_" (PyStr.replace_char "-" "_" operation_id)).

(** *** Parameters of a path and of a request body *)

(** The shortest text that [(.*?)}] matches at the start of [s], with
    what follows the closing brace: [.] matches every character but the
    newline. *)
Fixpoint until_brace (s : string) : option (string * string) :=
  match s with
  | EmptyString => None
  | String c r =>
      if Ascii.eqb c "}" then Some (EmptyString, r)
      else if Ascii.eqb c "010" then None
      else match until_brace r with
           | Some (name, rest) => Some (String c name, rest)
           | None => None
           end
  end.

(** [re.findall(r"{(.*?)}", s)]: the matches from left to right, none
    overlapping another; [fuel] bounds the positions tried. *)
Fixpoint findall_braces (fuel : nat) (s : string) : list string :=
  match fuel with
  | 0 => []
  | S n =>
      match s with
      | EmptyString => []
      | String c r =>
          if Ascii.eqb c "{" then
            match until_brace r with
            | Some (name, rest) => name :: findall_braces n rest
            | None => findall_braces n r
            end
          else findall_braces n r
      end
  end.

(** [extract_path_params(path)] *)
Definition extract_path_params (path : string) : list string :=
  findall_braces (String.length path) path.

(** The loop over [media_type_schema.anyOf] of [extract_body_params]. *)
Fixpoint anyof_keys_loop (branches : list loc) (body_params : list string)
  : M (list string) :=
  match branches with
  | [] => mret body_params
  | _schema_anyof :: rest =>
      properties ← properties_of _schema_anyof;
      match properties with
      | Some ps => anyof_keys_loop rest (body_params ++ keys ps)
      | None => raise (AttributeError "keys")
      end
  end.

(** The loop over [request_body.content.items()] of
    [extract_body_params]. *)
Fixpoint body_params_loop (spec : OpenAPI) (fuel : nat)
    (content : list (string * option MediaType)) (body_params : list string)
  : M (list string) :=
  match content with
  | [] => mret body_params
  | (content_type, json_content) :: rest =>
      match json_content with
      | None => raise (AttributeError "media_type_schema")
      | Some json_content =>
          match media_type_schema json_content with
          | None =>
              (* logger.debug(...); continue *)
              body_params_loop spec fuel rest body_params
          | Some schema =>
              media_type_schema ← resolve_schema spec fuel schema None;
              anyOf ← anyOf_of media_type_schema;
              if list_truthy anyOf then
                body_params ← anyof_keys_loop (default [] anyOf) body_params;
                body_params_loop spec fuel rest body_params
              else
                properties ← properties_of media_type_schema;
                if list_truthy properties then
                  body_params_loop spec fuel rest
                    (body_params ++ keys (default [] properties))
                else
                  (* logger.warning("No properties found for ...") *)
                  body_params_loop spec fuel rest body_params
          end
      end
  end.

(** [extract_body_params(operation, spec)] *)
Definition extract_body_params (spec : OpenAPI) (fuel : nat) (operation : Operation)
  : M (list string) :=
  match requestBody operation with
  | None => mret []
  | Some (RequestBodyRef ref) => mret [PyStr.last_segment "/" ref]
  | Some (RequestBody content) =>
      match content with
      | Some content => body_params_loop spec fuel content []
      | None => raise (AttributeError "items")
      end
  end.

End TypedParser.

(** ** openapi_utils.py *)

Module OpenAPIUtils.
Import Py Doc.

(** [self._paths_strict] *)
Definition _paths_strict (self : OpenAPI) : res (list (string * PathItem)) :=
  match paths self with
  | Some (p :: ps) => Ok (p :: ps)
  | Some [] | None => Raise (ValueError "No paths found in spec" [])
  end.

(** [self._get_path_strict(path)]: the message is formatted after [path]
    has been rebound to the outcome of the lookup. *)
Definition _get_path_strict (self : OpenAPI) (path : string) : res PathItem :=
  ps ← _paths_strict self;
  match dict_get path ps with
  | Some item => Ok item
  | None => Raise (ValueError "No path found for None" [])
  end.

(** [self._components_strict] *)
Definition _components_strict (self : OpenAPI) : res Components :=
  match components self with
  | Some c => Ok c
  | None => Raise (ValueError "No components found in spec. " [])
  end.

(** [self._parameters_strict] *)
Definition _parameters_strict (self : OpenAPI) : res (list (string * loc)) :=
  c ← _components_strict self;
  match parameters c with
  | Some ps => Ok ps
  | None => Raise (ValueError "No parameters found in spec. " [])
  end.

(** [self._schema_strict] *)
Definition _schema_strict (self : OpenAPI) : res (list (string * loc)) :=
  c ← _components_strict self;
  match schemas c with
  | Some ss => Ok ss
  | None => Raise (ValueError "No schemas found in spec. " [])
  end.

(** [self.get_referenced_schema(ref)], for a reference whose text is
    [ref]. *)
Definition get_referenced_schema (self : OpenAPI) (ref : string) : res loc :=
  let ref_name := PyStr.last_segment "/" ref in
  ss ← _schema_strict self;
  match dict_get ref_name ss with
  | Some schema => Ok schema
  | None => Raise (ValueError ("No schema found for " ++ ref_name) [])
  end.

(** [self._get_root_referenced_schema(ref)]; [fuel] bounds the turns of
    its [while] loop. *)
Fixpoint root_loop (self : OpenAPI) (h : heap) (fuel : nat) (schema : loc)
  : res loc :=
  match h !! schema with
  | Some (Reference ref _) =>
      match fuel with
      | 0 => OutOfFuel
      | S n =>
          schema ← get_referenced_schema self ref;
          root_loop self h n schema
      end
  | _ => Ok schema
  end.

Definition _get_root_referenced_schema (self : OpenAPI) (h : heap) (fuel : nat)
    (ref : string) : res loc :=
  schema ← get_referenced_schema self ref;
  root_loop self h fuel schema.

(** [self.base_url] *)
Definition base_url (self : OpenAPI) : res string :=
  match servers self with
  | s :: _ => Ok (url s)
  | [] => Raise IndexError
  end.

(** [getattr(path_item, method, None)] when it is an [Operation]: that is
    the attribute of one of the eight verbs, when set. *)
Definition getattr_operation (path_item : PathItem) (method : string)
  : option Operation :=
  if String.eqb method "get" then get_ path_item
  else if String.eqb method "put" then put_ path_item
  else if String.eqb method "post" then post_ path_item
  else if String.eqb method "delete" then delete_ path_item
  else if String.eqb method "options" then options_ path_item
  else if String.eqb method "head" then head_ path_item
  else if String.eqb method "patch" then patch_ path_item
  else if String.eqb method "trace" then trace_ path_item
  else None.

(** [self.get_operation(path, method)] *)
Definition get_operation (self : OpenAPI) (path method : string) : res Operation :=
  path_item ← _get_path_strict self path;
  match getattr_operation path_item method with
  | Some operation_obj => Ok operation_obj
  | None =>
      Raise (ValueError ("No " ++ method ++ " method found for " ++ path) [])
  end.

(** [self._get_referenced_parameter(ref)], for a reference whose text is
    [ref]. *)
Definition _get_referenced_parameter (self : OpenAPI) (ref : string) : res loc :=
  let ref_name := PyStr.last_segment "/" ref in
  ps ← _parameters_strict self;
  match dict_get ref_name ps with
  | Some parameter => Ok parameter
  | None => Raise (ValueError ("No parameter found for " ++ ref_name) [])
  end.

(** [self._get_root_referenced_parameter(ref)]; [fuel] bounds the turns
    of its [while] loop. *)
Fixpoint root_parameter_loop (self : OpenAPI) (h : heap) (fuel : nat)
    (parameter : loc) : res loc :=
  match h !! parameter with
  | Some (Reference ref _) =>
      match fuel with
      | 0 => OutOfFuel
      | S n =>
          parameter ← _get_referenced_parameter self ref;
          root_parameter_loop self h n parameter
      end
  | _ => Ok parameter
  end.

Definition _get_root_referenced_parameter (self : OpenAPI) (h : heap) (fuel : nat)
    (ref : string) : res loc :=
  parameter ← _get_referenced_parameter self ref;
  root_parameter_loop self h fuel parameter.

(** The loop of [get_methods_for_path] over the members of [HTTPVerb]. *)
Fixpoint methods_loop (path_item : PathItem) (verbs : list HTTPVerb)
    (results : list string) : list string :=
  match verbs with
  | [] => results
  | method :: rest =>
      match getattr_operation path_item (Parser.verb_value method) with
      | Some _ => methods_loop path_item rest (results ++ [Parser.verb_value method])
      | None => methods_loop path_item rest results
      end
  end.

(** [self.get_methods_for_path(path)] *)
Definition get_methods_for_path (self : OpenAPI) (path : string)
  : res (list string) :=
  path_item ← _get_path_strict self path;
  Ok (methods_loop path_item Parser.all_verbs []).

(** The loop of [get_parameters_for_operation]. *)
Fixpoint parameters_loop (self : OpenAPI) (h : heap) (fuel : nat)
    (operation_parameters parameters : list loc) : res (list loc) :=
  match operation_parameters with
  | [] => Ok parameters
  | parameter :: rest =>
      parameter ←
        match h !! parameter with
        | Some (Reference ref _) => _get_root_referenced_parameter self h fuel ref
        | _ => Ok parameter
        end;
      parameters_loop self h fuel rest (parameters ++ [parameter])
  end.

(** [self.get_parameters_for_operation(operation)], for an operation whose
    [parameters] are [operation_parameters]. *)
Definition get_parameters_for_operation (self : OpenAPI) (h : heap) (fuel : nat)
    (operation_parameters : option (list loc)) : res (list loc) :=
  if list_truthy operation_parameters then
    parameters_loop self h fuel (default [] operation_parameters) []
  else Ok [].

End OpenAPIUtils.

(** ** The lenient validator

    [OpenAPISpec.parse_obj] of openapi_utils.py and [_OpenAPIModel.parse_obj]
    of typed_parser.py have the same body.  [super().parse_obj] is
    pydantic's validation of the document against the [OpenAPI] model: it
    builds the model or reports errors, each with the location [loc] of the
    offending field. *)

Module Lenient.
Import Py.

(** An element of an error location: a field name or a list index. *)
Inductive key := KName (s : string) | KIndex (i : nat).

(** [item[key]] *)
Definition item_at (item : value) (k : key) : res value :=
  match item, k with
  | VDict d, KName s =>
      match dict_get s d with
      | Some v => Ok v
      | None => Raise (KeyError (VStr s))
      end
  | VDict _, KIndex i => Raise (KeyError (VInt (Z.of_nat i)))
  | VList l, KIndex i =>
      match l !! i with
      | Some v => Ok v
      | None => Raise IndexError
      end
  | VStr s, KIndex i =>
      match String.get i s with
      | Some c => Ok (VStr (String c EmptyString))
      | None => Raise IndexError
      end
  | VList _, KName _ | VStr _, KName _ =>
      Raise (TypeError "indices must be integers")
  | _, _ => Raise (TypeError "object is not subscriptable")
  end.

(** [item.pop(key, None)] *)
Definition pop (item : value) (k : key) : res value :=
  match item, k with
  | VDict d, KName s => Ok (VDict (dict_remove s d))
  | VDict d, KIndex _ => Ok (VDict d)
  | VList _, _ => Raise (TypeError "pop expected at most 1 argument, got 2")
  | _, _ => Raise (AttributeError "pop")
  end.

(** The container [item] once its element at [k] has become [child]; the
    element was mutated in place, the container is the same object. *)
Definition with_item (item : value) (k : key) (child : value) : value :=
  match item, k with
  | VDict d, KName s => VDict (dict_set s child d)
  | VList l, KIndex i => VList (<[i := child]> l)
  | _, _ => item
  end.

(** [item = new_obj; for key in keys[:-1]: item = item[key];
    item.pop(keys[-1], None)], as the new value of [new_obj]. *)
Fixpoint strip_field (keys : list key) (new_obj : value) : res value :=
  match keys with
  | [] =>
      (* item.pop is looked up before keys[-1] is evaluated *)
      match new_obj with
      | VDict _ | VList _ => Raise IndexError
      | _ => Raise (AttributeError "pop")
      end
  | [k] => pop new_obj k
  | k :: rest =>
      item ← item_at new_obj k;
      item' ← strip_field rest item;
      Ok (with_item new_obj k item')
  end.

(** [for error in e.errors(): ...] on the copy [new_obj]. *)
Fixpoint strip_errors (errors : list (list key)) (new_obj : value) : res value :=
  match errors with
  | [] => Ok new_obj
  | keys :: rest =>
      new_obj ← strip_field keys new_obj;
      strip_errors rest new_obj
  end.

Section ParseObj.
Context {Model : Type}.
Variable strict_parse_obj : value -> Model + list (list key).
    (* super().parse_obj(obj): the model, or the locations e.errors() reports *)

(** [cls.parse_obj(obj)]; [fuel] bounds the depth of the retries. *)
Fixpoint parse_obj (fuel : nat) (obj : value) : res Model :=
  match fuel with
  | 0 => OutOfFuel
  | S n =>
      match strict_parse_obj obj with
      | inl model => Ok model
      | inr errors =>
          (* We are handling possibly misconfigured specs and want to do a
             best-effort job to get a reasonable interface out of it. *)
          new_obj ← strip_errors errors obj;
          parse_obj n new_obj
      end
  end.
End ParseObj.

End Lenient.

(** * Properties *)

Import Py.

(** ** Operation identifiers *)

Section OperationId.

(** The three [replace] calls that end [_get_cleaned_operation_id]. *)
Definition separators_to_underscore (s : string) : string :=
  PyStr.replace_char "/" "_"
    (PyStr.replace_char "." "_" (PyStr.replace_char "-" "_" s)).

Lemma map_chars_app f (a b : string) :
  PyStr.map_chars f (a ++ b) = (PyStr.map_chars f a ++ PyStr.map_chars f b)%string.
Proof.
  induction a as [|c a IH]; simpl; [reflexivity|]. now rewrite IH.
Qed.

Lemma map_chars_ext f g (s : string) :
  (forall c, f c = g c) -> PyStr.map_chars f s = PyStr.map_chars g s.
Proof.
  intros E. induction s as [|c s IH]; simpl; [reflexivity|]. now rewrite E, IH.
Qed.

Lemma map_chars_map_chars f g (s : string) :
  PyStr.map_chars f (PyStr.map_chars g s) = PyStr.map_chars (fun c => f (g c)) s.
Proof.
  induction s as [|c s IH]; simpl; [reflexivity|]. now rewrite IH.
Qed.

Lemma separators_app (a b : string) :
  separators_to_underscore (a ++ b)
  = (separators_to_underscore a ++ separators_to_underscore b)%string.
Proof.
  unfold separators_to_underscore, PyStr.replace_char.
  now rewrite !map_chars_app.
Qed.

(** A character that [re.sub] leaves or produces is none of [-], [.], [/]. *)
Lemma sanitised_char_stable (c : ascii) :
  let c' := if PyStr.is_alnum c then c else "_"%char in
  (if Ascii.eqb (if Ascii.eqb (if Ascii.eqb c' "-" then "_"%char else c') "."
                 then "_"%char else (if Ascii.eqb c' "-" then "_"%char else c')) "/"
   then "_"%char
   else (if Ascii.eqb (if Ascii.eqb c' "-" then "_"%char else c') "."
         then "_"%char else (if Ascii.eqb c' "-" then "_"%char else c'))) = c'.
Proof.
  destruct c as [b0 b1 b2 b3 b4 b5 b6 b7].
  destruct b0, b1, b2, b3, b4, b5, b6, b7; reflexivity.
Qed.

(** The closing [replace] calls leave a sanitised path as it is. *)
Lemma separators_sub_non_alnum (s : string) :
  separators_to_underscore (PyStr.sub_non_alnum s) = PyStr.sub_non_alnum s.
Proof.
  unfold separators_to_underscore, PyStr.replace_char, PyStr.sub_non_alnum.
  rewrite !map_chars_map_chars.
  apply map_chars_ext. intros c. apply sanitised_char_stable.
Qed.

(** Letters and digits of the path stay, every other character becomes an
    underscore, and nothing is inserted or dropped. *)
Lemma sub_non_alnum_length (s : string) :
  String.length (PyStr.sub_non_alnum s) = String.length s.
Proof.
  unfold PyStr.sub_non_alnum.
  induction s as [|c s IH]; simpl; [reflexivity|]. now rewrite IH.
Qed.

Lemma upper_verb_stable (v : HTTPVerb) :
  separators_to_underscore (PyStr.upper (Parser.verb_value v))
  = PyStr.upper (Parser.verb_value v).
Proof. destruct v; reflexivity. Qed.

End OperationId.

(** C3 (as amended).  Without an explicit [operationId], the identifier is
    the path with every leading slash stripped and every character outside
    [a-zA-Z0-9] replaced by an underscore, followed by the uppercased verb
    in which [-], [.] and [/] have become underscores (for the eight HTTP
    verbs: the uppercased verb itself); parser.py and typed_parser.py agree;
    and [/users/{id}] with [get] gives [users__id_GET]. *)
Theorem derived_operation_id (path verb : string) :
  Parser._get_cleaned_operation_id VNone path verb
  = Ok (PyStr.sub_non_alnum (PyStr.lstrip_char "/" path)
        ++ separators_to_underscore (PyStr.upper verb))%string
  /\ TypedParser.get_cleaned_operation_id
       {| Doc.operationId := None; Doc.requestBody := None |} path verb
     = (PyStr.sub_non_alnum (PyStr.lstrip_char "/" path)
        ++ separators_to_underscore (PyStr.upper verb))%string
  /\ (forall v : HTTPVerb,
        Parser._get_cleaned_operation_id VNone path (Parser.verb_value v)
        = Ok (PyStr.sub_non_alnum (PyStr.lstrip_char "/" path)
              ++ PyStr.upper (Parser.verb_value v))%string)
  /\ Parser._get_cleaned_operation_id VNone "/users/{id}" "get" = Ok "users__id_GET".
Proof.
  assert (E : forall w,
    separators_to_underscore
      (PyStr.sub_non_alnum (PyStr.lstrip_char "/" path) ++ PyStr.upper w)
    = (PyStr.sub_non_alnum (PyStr.lstrip_char "/" path)
       ++ separators_to_underscore (PyStr.upper w))%string).
  { intros w. now rewrite separators_app, separators_sub_non_alnum. }
  repeat split.
  - unfold Parser._get_cleaned_operation_id; simpl. f_equal. apply E.
  - unfold TypedParser.get_cleaned_operation_id; simpl. apply E.
  - intros v. unfold Parser._get_cleaned_operation_id; simpl. f_equal.
    fold (separators_to_underscore
            (PyStr.sub_non_alnum (PyStr.lstrip_char "/" path)
             ++ PyStr.upper (Parser.verb_value v))).
    now rewrite E, upper_verb_stable.
Qed.

(** C3, as stated, fails on its own example: the derived identifier of
    [/users/{id}] and [get] is not [users__id__GET]. *)
Lemma derived_operation_id_example_differs :
  Parser._get_cleaned_operation_id VNone "/users/{id}" "get" <> Ok "users__id__GET".
Proof. vm_compute. discriminate. Qed.


(** ** The base URL *)

Definition Logger_warning_TypeError : exn :=
  TypeError "Logger.warning() missing 1 required positional argument: 'msg'".

(** C7 (the code departs from it).  When [servers] lists two entries or
    more, [_get_base_url_from_spec] does not reach the first entry: the
    warning is issued through [logging.Logger.warning], the function of the
    class, whose call with the message alone raises [TypeError]. *)
Theorem multiple_servers_raise (d : list (string * value)) (s1 s2 : value)
    (rest : list value) :
  dict_get "servers" d = Some (VList (s1 :: s2 :: rest)) ->
  Parser._get_base_url_from_spec (VDict d) = Raise Logger_warning_TypeError.
Proof.
  intros H. unfold Parser._get_base_url_from_spec, get_or.
  rewrite H. reflexivity.
Qed.

Definition two_servers : list (string * value) :=
  [("servers", VList [VDict [("url", VStr "https://api.example.com")];
                      VDict [("url", VStr "https://staging.example.com")]]);
   ("paths",
    VDict [("/pets", VDict [("get", VDict [("description", VStr "List pets")])])])].

Lemma multiple_servers_raise_witness :
  Parser._get_base_url_from_spec (VDict two_servers) = Raise Logger_warning_TypeError.
Proof.
  apply (multiple_servers_raise two_servers
           (VDict [("url", VStr "https://api.example.com")])
           (VDict [("url", VStr "https://staging.example.com")]) []).
  reflexivity.
Defined.

(** With one server the first (and only) entry is used. *)
Lemma single_server_base_url (d : list (string * value)) (s : list (string * value))
    (u : string) :
  dict_get "servers" d = Some (VList [VDict s]) ->
  dict_get "url" s = Some (VStr u) ->
  PyStr.strip u <> "" ->
  Parser._get_base_url_from_spec (VDict d) = Ok (PyStr.strip u).
Proof.
  intros Hd Hs Hu. unfold Parser._get_base_url_from_spec, get_or.
  rewrite Hd. simpl. rewrite Hs. simpl.
  destruct (String.eqb_spec (PyStr.strip u) ""); [contradiction | reflexivity].
Qed.

(** Operation extraction as a whole fails on the two-server document. *)
Lemma parse_path_two_servers (fuel : nat) :
  Parser.parse_path (Some (VDict two_servers)) fuel (VDict two_servers) "/pets" "get" None
  = Raise Logger_warning_TypeError.
Proof. reflexivity. Qed.

(** [OpenAPISpec.base_url] takes the first server and issues no warning. *)
Lemma base_url_first (self : Doc.OpenAPI) (s : Doc.Server) (rest : list Doc.Server) :
  Doc.servers self = s :: rest -> OpenAPIUtils.base_url self = Ok (Doc.url s).
Proof. intros H. unfold OpenAPIUtils.base_url. now rewrite H. Qed.

(** ** Operations that are not there *)

(** [path] has no entry in the dict [paths], or its entry has none for
    [verb], or an empty one ([null], [{}]). *)
Definition absent_in_dict (paths : list (string * value)) (path verb : string) : Prop :=
  dict_get path paths = None
  \/ exists item,
       dict_get path paths = Some (VDict item)
       /\ truthy (default VNone (dict_get verb item)) = false.

(** The same on the typed document. *)
Definition absent_in_model (self : Doc.OpenAPI) (path method : string) : Prop :=
  match Doc.paths self with
  | None => True
  | Some paths =>
      dict_get path paths = None
      \/ exists item, dict_get path paths = Some item
                      /\ OpenAPIUtils.getattr_operation item method = None
  end.

(** C8 (as amended).  When the path is absent from the document's paths, or
    has no operation for the verb, [parse_path] returns [None] and raises
    nothing, whereas [OpenAPISpec.get_operation] raises [ValueError]. *)
Theorem absent_operation (spec_global : option value) (fuel : nat)
    (d paths : list (string * value)) (path verb : string)
    (full_components_dict : option (list (string * value))) (self : Doc.OpenAPI) :
  get_or (VDict d) "paths" (VDict []) = Ok (VDict paths) ->
  absent_in_dict paths path verb ->
  absent_in_model self path verb ->
  Parser.parse_path spec_global fuel (VDict d) path verb full_components_dict = Ok None
  /\ exists msg, OpenAPIUtils.get_operation self path verb = Raise (ValueError msg []).
Proof.
  intros Hpaths Hd Hm. split.
  - unfold Parser.parse_path. rewrite Hpaths. simpl.
    destruct Hd as [Hd | (item & Hd & Hv)]; rewrite Hd; simpl; [reflexivity|].
    destruct (dict_get verb item) as [operation|]; simpl in Hv |- *;
      [now rewrite Hv | reflexivity].
  - unfold absent_in_model in Hm.
    unfold OpenAPIUtils.get_operation, OpenAPIUtils._get_path_strict,
      OpenAPIUtils._paths_strict.
    destruct (Doc.paths self) as [[|p ps]|]; [simpl; eauto | | simpl; eauto].
    unfold mbind, res_bind.
    destruct Hm as [Hm | (item & Hm & Hop)]; rewrite Hm; [eauto|].
    rewrite Hop. eauto.
Qed.

Definition no_pets_model : Doc.OpenAPI :=
  {| Doc.servers := []; Doc.paths := Some []; Doc.components := None |}.

Lemma absent_operation_witness :
  Parser.parse_path None 0 (VDict [("paths", VDict [])]) "/pets" "get" None = Ok None
  /\ exists msg,
       OpenAPIUtils.get_operation no_pets_model "/pets" "get" = Raise (ValueError msg []).
Proof.
  apply (absent_operation None 0 [("paths", VDict [])] [] "/pets" "get" None
           no_pets_model).
  - reflexivity.
  - left. reflexivity.
  - simpl. left. reflexivity.
Defined.

(** C8, as stated, fails for [parse_path]: on a document without the path
    it raises nothing. *)
Lemma parse_path_absent_does_not_fail :
  ~ exists e,
      Parser.parse_path None 0 (VDict [("paths", VDict [])]) "/pets" "get" None = Raise e.
Proof. intros [e He]. vm_compute in He. discriminate He. Qed.

(** ** allOf *)

(** What one branch of an [allOf] adds to [all_properties], to
    [all_required] and to [prim_types]. *)
Definition contribution : Type :=
  list (string * value) * list value * list value.

(** The entries [d.update(other)] goes through. *)
Definition dict_items (other : value) : res (list (string * value)) :=
  match other with
  | VDict o => Ok o
  | VList [] | VStr EmptyString => Ok []
  | VList _ | VStr _ =>
      Raise (ValueError "dictionary update sequence element has wrong length" [])
  | _ => Raise (TypeError "object is not iterable")
  end.

Lemma update_items (d : list (string * value)) (other : value) :
  update d other
  = match dict_items other with
    | Ok o => Ok (dict_update d o)
    | Raise e => Raise e
    | OutOfFuel => OutOfFuel
    end.
Proof.
  destruct other as [| | |s|l| | | | | | | | | |]; try reflexivity;
    [destruct s | destruct l]; reflexivity.
Qed.

Section AllOf.
#[local] Existing Instances Parser.M_ret Parser.M_bind.

Variable rec : value -> value -> Parser.M value.
Variable spec : value.

(** The contribution of the branch [s] in [_get_pydantic_type]:
    - a branch with a [properties] key gives its properties and its
      [required] list;
    - a reference gives, when it resolves to a generated model, the
      fields of the model and the names of those declared with [...], and
      otherwise the value it resolves to, as a primitive;
    - any other branch gives nothing. *)
Definition contribution_of (s : value) : Parser.M contribution :=
  has_properties ← Parser.lift (contains "properties" s);
  if has_properties : bool then
    props ← Parser.lift (getitem s "properties");
    declared ← Parser.lift (dict_items props);
    req ← Parser.lift (get_or s "required" (VList []));
    req ← Parser.lift (iter req);
    mret ((declared, req, []) : contribution)
  else
    has_ref ← Parser.lift (contains "$ref" s);
    if has_ref : bool then
      ref_model ← Parser.fresh_seen (rec s spec);
      match ref_model return Parser.M contribution with
      | TModel _ fields =>
          req ← Parser.lift (Parser.required_fields fields);
          mret ((fields, req, []) : contribution)
      | _ => mret (([], [], [ref_model]) : contribution)
      end
    else mret (([], [], []) : contribution).

Fixpoint contributions (branches : list value) : Parser.M (list contribution) :=
  match branches with
  | [] => mret []
  | s :: rest =>
      c ← contribution_of s;
      cs ← contributions rest;
      mret (c :: cs)
  end.

(** Merging: the properties by [dict.update], the two lists by
    concatenation, branch after branch. *)
Definition merge (acc c : contribution) : contribution :=
  match acc, c with
  | (all_properties, all_required, prim_types), (props, req, prims) =>
      (dict_update all_properties props, all_required ++ req, prim_types ++ prims)
  end.

Lemma allOf_loop_step (s : value) (rest : list value)
    (P : list (string * value)) (R Q : list value) (st : Parser.state) :
  Parser.allOf_loop rec spec (s :: rest) P R Q st
  = match contribution_of s st with
    | Ok (c, st1) =>
        match merge (P, R, Q) c with
        | (P', R', Q') => Parser.allOf_loop rec spec rest P' R' Q' st1
        end
    | Raise e => Raise e
    | OutOfFuel => OutOfFuel
    end.
Proof.
  change (Parser.allOf_loop rec spec (s :: rest) P R Q st)
    with ((has_properties ← Parser.lift (contains "properties" s);
           if has_properties : bool then
             props ← Parser.lift (getitem s "properties");
             all_properties ← Parser.lift (update P props);
             req ← Parser.lift (get_or s "required" (VList []));
             req ← Parser.lift (iter req);
             Parser.allOf_loop rec spec rest all_properties (R ++ req) Q
           else
             has_ref ← Parser.lift (contains "$ref" s);
             if has_ref : bool then
               ref_model ← Parser.fresh_seen (rec s spec);
               if Parser.has_fields ref_model then
                 fields ← Parser.lift (Parser.fields_of ref_model);
                 all_properties ← Parser.lift (update P (VDict fields));
                 req ← Parser.lift (Parser.required_fields fields);
                 Parser.allOf_loop rec spec rest all_properties (R ++ req) Q
               else Parser.allOf_loop rec spec rest P R (Q ++ [ref_model])
             else Parser.allOf_loop rec spec rest P R Q) st).
  unfold contribution_of, mbind, Parser.M_bind, Parser.lift, mret, Parser.M_ret.
  destruct (contains "properties" s) as [[|]| |]; try reflexivity.
  - destruct (getitem s "properties") as [props| |]; try reflexivity.
    rewrite update_items.
    destruct (dict_items props) as [o| |]; try reflexivity.
    destruct (get_or s "required" (VList [])) as [req| |]; try reflexivity.
    destruct (iter req) as [l| |]; try reflexivity.
    simpl. now rewrite app_nil_r.
  - destruct (contains "$ref" s) as [[|]| |]; try reflexivity.
    + destruct (Parser.fresh_seen (rec s spec) st) as [[ref_model st1]| |];
        try reflexivity.
      destruct ref_model; simpl; rewrite ?app_nil_r; try reflexivity.
      destruct (Parser.required_fields fields) as [l| |]; try reflexivity.
      simpl. now rewrite app_nil_r.
    + simpl. now rewrite !app_nil_r.
Qed.

(** The loop is the merge of the contributions of the branches, in their
    order. *)
Lemma allOf_loop_merges (branches : list value) :
  forall (P : list (string * value)) (R Q : list value) (st : Parser.state),
    Parser.allOf_loop rec spec branches P R Q st
    = match contributions branches st with
      | Ok (cs, st') => Ok (fold_left merge cs (P, R, Q), st')
      | Raise e => Raise e
      | OutOfFuel => OutOfFuel
      end.
Proof.
  induction branches as [|s rest IH]; intros P R Q st; [reflexivity|].
  rewrite allOf_loop_step.
  change (contributions (s :: rest) st)
    with ((c ← contribution_of s; cs ← contributions rest; mret (c :: cs)) st).
  unfold mbind, Parser.M_bind, mret, Parser.M_ret.
  destruct (contribution_of s st) as [[c st1]| |]; try reflexivity.
  destruct c as [[p r] q]. unfold merge at 1. cbv beta iota. rewrite IH.
  destruct (contributions rest st1) as [[cs st2]| |]; reflexivity.
Qed.

End AllOf.

(** The names of a dict after [d[k] = v]: [k] keeps its place or goes
    last. *)
Definition add_name (names : list string) (k : string) : list string :=
  if existsb (String.eqb k) names then names else names ++ [k].

Lemma dict_mem_keys {V} (k : string) (d : list (string * V)) :
  dict_mem k d = existsb (String.eqb k) (keys d).
Proof.
  unfold dict_mem. induction d as [|[k' v] d IH]; simpl; [reflexivity|].
  destruct (String.eqb k k'); [reflexivity | exact IH].
Qed.

Lemma keys_dict_set {V} (k : string) (v : V) (d : list (string * V)) :
  keys (dict_set k v d) = add_name (keys d) k.
Proof.
  unfold add_name. induction d as [|[k' v'] d IH]; simpl; [reflexivity|].
  destruct (String.eqb k k') eqn:E; simpl.
  - apply String.eqb_eq in E. now subst.
  - rewrite IH. now destruct (existsb (String.eqb k) (keys d)).
Qed.

(** Property names in order of first declaration. *)
Definition add_names (names new : list string) : list string :=
  fold_left add_name new names.

Lemma keys_dict_update {V} (d o : list (string * V)) :
  keys (dict_update d o) = add_names (keys d) (keys o).
Proof.
  unfold dict_update, add_names. revert d.
  induction o as [|[k v] o IH]; intros d; simpl; [reflexivity|].
  now rewrite IH, keys_dict_set.
Qed.

Lemma add_name_In (names : list string) (k x : string) :
  In x (add_name names k) <-> In x names \/ x = k.
Proof.
  unfold add_name. destruct (existsb (String.eqb k) names) eqn:E.
  - split; [auto|]. intros [H| ->]; [assumption|].
    apply existsb_exists in E as (y & Hy & Heq).
    apply String.eqb_eq in Heq. now subst.
  - rewrite in_app_iff. simpl. intuition.
Qed.

Lemma add_names_In (names new : list string) (x : string) :
  In x (add_names names new) <-> In x names \/ In x new.
Proof.
  unfold add_names. revert names.
  induction new as [|k new IH]; intros names; simpl; [tauto|].
  rewrite IH, add_name_In. intuition.
Qed.




(** Names that are there keep their places: the old names are a prefix. *)
Lemma add_names_prefix (names new : list string) :
  exists added, add_names names new = names ++ added.
Proof.
  unfold add_names. revert names.
  induction new as [|k new IH]; intros names; simpl.
  - exists []. now rewrite app_nil_r.
  - destruct (IH (add_name names k)) as [added ->].
    unfold add_name. destruct (existsb (String.eqb k) names).
    + now exists added.
    + exists (k :: added). now rewrite <- app_assoc.
Qed.

Definition props_of (c : contribution) : list (string * value) := fst (fst c).
Definition required_of (c : contribution) : list value := snd (fst c).
Definition prims_of (c : contribution) : list value := snd c.

Lemma fold_merge (cs : list contribution) :
  forall acc : contribution,
    keys (props_of (fold_left merge cs acc))
    = fold_left (fun names c => add_names names (keys (props_of c))) cs
        (keys (props_of acc))
    /\ required_of (fold_left merge cs acc)
       = required_of acc ++ concat (map required_of cs)
    /\ prims_of (fold_left merge cs acc)
       = prims_of acc ++ concat (map prims_of cs).
Proof.
  induction cs as [|c cs IH]; intros [[P R] Q].
  - unfold props_of, required_of, prims_of. simpl. now rewrite !app_nil_r.
  - destruct c as [[p r] q].
    change (fold_left merge ((p, r, q) :: cs) (P, R, Q))
      with (fold_left merge cs (dict_update P p, R ++ r, Q ++ q)).
    destruct (IH (dict_update P p, R ++ r, Q ++ q)) as (Hk & Hr & Hq).
    rewrite Hk, Hr, Hq. unfold props_of, required_of, prims_of. simpl.
    now rewrite keys_dict_update, <- !app_assoc.
Qed.

Lemma fold_add_names_In (cs : list contribution) (x : string) :
  forall names,
    In x (fold_left (fun names c => add_names names (keys (props_of c))) cs names)
    <-> In x names \/ exists c, In c cs /\ In x (keys (props_of c)).
Proof.
  induction cs as [|c cs IH]; intros names; simpl.
  - split; [auto | intros [H|(c & [] & _)]; assumption].
  - rewrite IH, add_names_In. split.
    + intros [[H|H]|(c' & Hc & Hx)]; eauto.
    + intros [H|(c' & [<-|Hc] & Hx)]; eauto.
Qed.


(** A schema whose only keyword is [allOf] (no [$ref], [type],
    [properties], [oneOf] or [anyOf]), with the given branches. *)
Definition allOf_only (schema : value) (branches : list value) : Prop :=
  exists d,
    schema = VDict d
    /\ dict_get "$ref" d = None
    /\ dict_get "type" d = None
    /\ dict_get "properties" d = None
    /\ dict_get "oneOf" d = None
    /\ dict_get "anyOf" d = None
    /\ dict_get "allOf" d = Some (VList branches).

Definition mixing_error (schema : value) : exn :=
  APIParsingError "Cannot mix primitives and non-primitives in allOf: " [schema].

(** The merged definition handed to [_create_component_model]. *)
Definition allof_def (all_properties : list (string * value)) (all_required : list value)
  : value :=
  VDict [("properties", VDict all_properties);
         ("type", VStr "object");
         ("required", VList all_required)].

(** [_get_pydantic_type] on such a schema: the loop, then the decision on
    what it collected. *)
Lemma allOf_only_body (spec_global : option value)
    (rec : value -> value -> Parser.M value) (schema spec : value)
    (branches : list value) (st : Parser.state) :
  allOf_only schema branches ->
  Parser._get_pydantic_type_body spec_global rec schema spec st
  = match Parser.allOf_loop rec spec branches [] [] [] st with
    | Ok ((all_properties, all_required, prim_types), st') =>
        match prim_types with
        | _ :: _ =>
            if truthy (VDict all_properties) then Raise (mixing_error schema)
            else
              match prim_types with
              | [prim] => Ok (prim, st')
              | _ => Raise (APIParsingError
                              "Cannot have multiple primitive types in an allOf: "
                              [schema])
              end
        | [] =>
            Parser._create_component_model spec_global rec "MergedModel"
              (allof_def all_properties all_required) st'
        end
    | Raise e => Raise e
    | OutOfFuel => OutOfFuel
    end.
Proof.
  intros (d & -> & Href & Htype & Hprops & Hone & Hany & Hall).
  unfold Parser._get_pydantic_type_body.
  unfold mbind at 1, Parser.M_bind at 1, Parser.lift at 1, contains, dict_mem.
  rewrite Href.
  unfold mbind at 1, Parser.M_bind at 1, Parser.lift at 1, get, get_or.
  rewrite Htype.
  unfold mbind at 1, Parser.M_bind at 1, Parser.lift at 1.
  rewrite Hprops. cbn [is_str truthy orb].
  unfold mbind at 1, Parser.M_bind at 1, Parser.lift at 1. rewrite Hone.
  unfold mbind at 1, Parser.M_bind at 1, Parser.lift at 1. rewrite Hany.
  unfold mbind at 1, Parser.M_bind at 1, Parser.lift at 1. rewrite Hall.
  unfold mbind at 1, Parser.M_bind at 1, Parser.lift at 1, getitem. rewrite Hall.
  unfold mbind at 1, Parser.M_bind at 1, Parser.lift at 1, iter.
  unfold mbind at 1, Parser.M_bind at 1.
  destruct (Parser.allOf_loop rec spec branches [] [] [] st)
    as [[[[P R] Q] st']| |]; try reflexivity.
  destruct Q as [|q Q]; [reflexivity|].
  destruct P, Q; reflexivity.
Qed.


(** Two inline objects. *)
Definition named_and_tagged : list value :=
  [VDict [("properties", VDict [("name", VDict [("type", VStr "string")]);
                                ("age", VDict [("type", VStr "integer")])]);
          ("required", VList [VStr "name"])];
   VDict [("properties", VDict [("tag", VDict [("type", VStr "string")]);
                                ("name", VDict [("type", VStr "string")])]);
          ("required", VList [VStr "tag"])]].

Definition no_resolver : value -> value -> Parser.M value := fun _ _ _ => OutOfFuel.


(** The model built from these two branches: names in order of first
    declaration, required as declared. *)
Lemma named_and_tagged_model :
  Parser._get_pydantic_type (Some (VDict [])) 2
    (VDict [("allOf", VList named_and_tagged)]) (VDict [])
    (Parser.State [] ∅)
  = Ok (TModel "MergedModel"
          [("name", VField TStr Ellipsis);
           ("age", VField TInt DefaultNone);
           ("tag", VField TStr Ellipsis)],
        Parser.State [] ({["MergedModel"]} ∪ ∅)).
Proof. vm_compute. reflexivity. Qed.





(** C5 (as amended).  When some reference branch of an [allOf] resolves to
    a value that is no generated model (a primitive) and some branch
    contributes a property, [_get_pydantic_type] raises [APIParsingError]
    "Cannot mix primitives and non-primitives in allOf" with the schema. *)
Theorem allOf_primitive_reference_rejected (spec_global : option value)
    (rec : value -> value -> Parser.M value) (schema spec : value)
    (branches : list value) (st st' : Parser.state) (cs : list contribution) :
  allOf_only schema branches ->
  contributions rec spec branches st = Ok (cs, st') ->
  (exists c, In c cs /\ prims_of c <> []) ->
  (exists c, In c cs /\ props_of c <> []) ->
  Parser._get_pydantic_type_body spec_global rec schema spec st
  = Raise (mixing_error schema).
Proof.
  intros Hs Hc (c1 & Hin1 & Hq) (c2 & Hin2 & Hp).
  rewrite (allOf_only_body _ _ _ _ _ _ Hs), allOf_loop_merges, Hc.
  destruct (fold_left merge cs ([], [], [])) as [[P R] Q] eqn:E.
  destruct (fold_merge cs ([], [], [])) as (Hk & _ & Hprims).
  rewrite E in Hk, Hprims.
  assert (Hprims' : Q = concat (map prims_of cs)) by exact Hprims.
  assert (Hk' : keys P
                = fold_left (fun names c => add_names names (keys (props_of c))) cs [])
    by exact Hk.
  clear Hk Hprims.
  assert (HQ : Q <> []).
  { intros Hnil.
    destruct (prims_of c1) as [|q qs] eqn:E1; [now apply Hq|].
    assert (Hin : In q (concat (map prims_of cs))).
    { apply in_concat. exists (prims_of c1). split; [now apply in_map|].
      rewrite E1. now left. }
    rewrite <- Hprims', Hnil in Hin. destruct Hin. }
  assert (HP : P <> []).
  { intros ->. destruct (props_of c2) as [|[k v] ps] eqn:E2; [now apply Hp|].
    assert (Hin : In k (keys (@nil (string * value)))).
    { rewrite Hk'. apply fold_add_names_In. right. exists c2.
      split; [assumption|]. rewrite E2. now left. }
    destruct Hin. }
  destruct Q as [|q Q]; [congruence|].
  destruct P as [|p P]; [congruence|]. reflexivity.
Qed.

(** A reference to a primitive component, next to an inline object. *)
Definition identifier_doc : value :=
  VDict [("components",
          VDict [("schemas", VDict [("Id", VDict [("type", VStr "string")])])])].

Definition id_and_object : value :=
  VDict [("allOf",
          VList [VDict [("$ref", VStr "#/components/schemas/Id")];
                 VDict [("properties",
                         VDict [("label", VDict [("type", VStr "string")])])]])].

Lemma allOf_primitive_reference_rejected_witness :
  Parser._get_pydantic_type_body (Some identifier_doc)
    (Parser._get_pydantic_type (Some identifier_doc) 1)
    id_and_object identifier_doc (Parser.State [] ∅)
  = Raise (mixing_error id_and_object).
Proof.
  apply (allOf_primitive_reference_rejected (Some identifier_doc)
           (Parser._get_pydantic_type (Some identifier_doc) 1)
           id_and_object identifier_doc
           [VDict [("$ref", VStr "#/components/schemas/Id")];
            VDict [("properties",
                    VDict [("label", VDict [("type", VStr "string")])])]]
           (Parser.State [] ∅) (Parser.State [] ∅)
           [([], [], [TStr]);
            ([("label", VDict [("type", VStr "string")])], [], [])]).
  - eexists. repeat split; reflexivity.
  - vm_compute. reflexivity.
  - exists ([], [], [TStr]). split; [now left | discriminate].
  - exists ([("label", VDict [("type", VStr "string")])], [], []).
    split; [right; now left | discriminate].
Defined.

(** An inline primitive next to an inline object. *)
Definition text_and_object : value :=
  VDict [("allOf",
          VList [VDict [("type", VStr "string")];
                 VDict [("properties",
                         VDict [("label", VDict [("type", VStr "string")])])]])].

(** C5, as stated, fails when the primitive branch is inline: it is
    skipped with a warning and the object is returned. *)
Lemma allOf_inline_primitive_accepted :
  ~ exists e,
      Parser._get_pydantic_type (Some (VDict [])) 2 text_and_object (VDict [])
        (Parser.State [] ∅)
      = Raise e.
Proof. intros [e H]. vm_compute in H. discriminate H. Qed.

Lemma allOf_inline_primitive_model :
  Parser._get_pydantic_type (Some (VDict [])) 2 text_and_object (VDict [])
        (Parser.State [] ∅)
  = Ok (TModel "MergedModel" [("label", VField TStr DefaultNone)],
        Parser.State [] ({["MergedModel"]} ∪ ∅)).
Proof. vm_compute. reflexivity. Qed.

(** In [_create_component_model] the same inline primitive is an error. *)
Lemma component_allOf_inline_primitive_rejected :
  Parser._create_component_model (Some (VDict []))
    (Parser._get_pydantic_type (Some (VDict [])) 2) "Labelled"
    text_and_object (Parser.State [] ∅)
  = Raise (ValueError "Unsupported schema in allOf: " [VDict [("type", VStr "string")]]).
Proof. vm_compute. reflexivity. Qed.

(** ** References to nothing *)

Import Doc.

(** [name] is the key of no component of [c]. *)
Definition no_component (c : Doc.Components) (name : string) : Prop :=
  TypedParser.find_component name
    [Doc.schemas c; Doc.parameters c; Doc.requestBodies c; Doc.responses c] = None.

Lemma find_component_schemas (c : Doc.Components) (ss : list (string * Doc.loc))
    (name : string) :
  Doc.schemas c = Some ss ->
  no_component c name ->
  dict_get name ss = None
  /\ TypedParser.find_component name
       [Doc.parameters c; Doc.requestBodies c; Doc.responses c] = None.
Proof.
  unfold no_component. intros Hs. simpl. rewrite Hs.
  destruct (dict_get name ss); [discriminate | auto].
Qed.

Lemma is_substring_app (s a b : string) :
  PyStr.is_substring s (a ++ s ++ b) = true.
Proof.
  induction a as [|c a IH]; simpl.
  - assert (P : String.prefix s (s ++ b) = true).
    { induction s as [|x s IHs]; simpl; [destruct b; reflexivity|].
      destruct (Ascii.ascii_dec x x); [assumption | contradiction]. }
    destruct (s ++ b)%string; simpl in *; rewrite P; reflexivity.
  - rewrite IH. apply orb_true_r.
Qed.

Lemma is_substring_suffix (s a : string) :
  PyStr.is_substring s (a ++ s) = true.
Proof.
  assert (E : (s ++ "")%string = s).
  { induction s as [|c s IH]; [reflexivity|].
    change (String c (s ++ "") = String c s). now f_equal. }
  pose proof (is_substring_app s a "") as H. now rewrite E in H.
Qed.

(** C9 (as amended).  In a document whose components carry a [schemas] map,
    a reference whose name is the key of no component makes
    [_resolve_reference] raise [ValueError] with the text of the reference in
    its message and leaves the store as it was, and makes
    [get_referenced_schema] raise [ValueError] with the name in its
    message. *)
Theorem missing_reference_raises (spec : Doc.OpenAPI) (rec : Doc.loc -> Doc.M unit)
    (c : Doc.Components) (ss : list (string * Doc.loc)) (ref : string) (h : Doc.heap) :
  Doc.components spec = Some c ->
  Doc.schemas c = Some ss ->
  no_component c (PyStr.last_segment "/" ref) ->
  TypedParser._resolve_reference spec rec ref h
  = (Raise (ValueError ("Reference " ++ ref ++ " not found in spec") []), h)
  /\ OpenAPIUtils.get_referenced_schema spec ref
     = Raise (ValueError ("No schema found for " ++ PyStr.last_segment "/" ref) [])
  /\ PyStr.is_substring ref ("Reference " ++ ref ++ " not found in spec") = true
  /\ PyStr.is_substring (PyStr.last_segment "/" ref)
       ("No schema found for " ++ PyStr.last_segment "/" ref) = true.
Proof.
  intros Hc Hs Hn.
  destruct (find_component_schemas c ss _ Hs Hn) as [Hss Hrest].
  repeat split.
  - unfold TypedParser._resolve_reference. rewrite Hc, Hs, Hss, Hrest. reflexivity.
  - unfold OpenAPIUtils.get_referenced_schema, OpenAPIUtils._schema_strict,
      OpenAPIUtils._components_strict.
    rewrite Hc; simpl. rewrite Hs; simpl. rewrite Hss. reflexivity.
  - apply is_substring_app.
  - apply is_substring_suffix.
Qed.

Definition only_pet_schema : Doc.OpenAPI :=
  {| Doc.servers := [];
     Doc.paths := None;
     Doc.components :=
       Some {| Doc.schemas := Some [("Pet", 1%positive)];
               Doc.parameters := None;
               Doc.requestBodies := None;
               Doc.responses := None |} |}.

Lemma missing_reference_raises_witness :
  TypedParser._resolve_reference only_pet_schema (fun _ => mret tt)
    "#/components/schemas/Owner" ∅
  = (Raise (ValueError "Reference #/components/schemas/Owner not found in spec" []), ∅)
  /\ OpenAPIUtils.get_referenced_schema only_pet_schema "#/components/schemas/Owner"
     = Raise (ValueError "No schema found for Owner" [])
  /\ PyStr.is_substring "#/components/schemas/Owner"
       "Reference #/components/schemas/Owner not found in spec" = true
  /\ PyStr.is_substring "Owner" "No schema found for Owner" = true.
Proof.
  apply (missing_reference_raises only_pet_schema (fun _ => mret tt)
           {| Doc.schemas := Some [("Pet", 1%positive)];
              Doc.parameters := None;
              Doc.requestBodies := None;
              Doc.responses := None |}
           [("Pet", 1%positive)] "#/components/schemas/Owner" ∅).
  - reflexivity.
  - reflexivity.
  - reflexivity.
Defined.

Definition no_components : Doc.OpenAPI :=
  {| Doc.servers := []; Doc.paths := None; Doc.components := None |}.

(** C9, as stated, fails on a document without components: the error
    [get_referenced_schema] raises there does not name the reference. *)
Lemma missing_reference_not_named :
  ~ exists msg,
      OpenAPIUtils.get_referenced_schema no_components "#/components/schemas/Pet"
      = Raise (ValueError msg [])
      /\ PyStr.is_substring "Pet" msg = true.
Proof.
  intros (msg & H & Hsub). vm_compute in H. injection H as <-.
  vm_compute in Hsub. discriminate Hsub.
Qed.

(** On a document whose components carry no [schemas] map,
    [_resolve_reference] fails on the membership test itself. *)
Lemma resolve_reference_without_schemas (spec : Doc.OpenAPI)
    (rec : Doc.loc -> Doc.M unit) (c : Doc.Components) (ref : string) (h : Doc.heap) :
  Doc.components spec = Some c ->
  Doc.schemas c = None ->
  TypedParser._resolve_reference spec rec ref h
  = (Raise (TypeError "argument of type 'NoneType' is not iterable"), h).
Proof.
  intros Hc Hs. unfold TypedParser._resolve_reference. now rewrite Hc, Hs.
Qed.



(** ** Cycles *)

(** A name that is in the visitation set is answered with the name itself:
    the cache and the set stay as they are and nothing is raised, whatever
    the definition and the resolver below. *)
Lemma create_component_model_seen (spec_global : option value)
    (rec : value -> value -> Parser.M value) (name : string) (model_def : value)
    (st : Parser.state) :
  name ∈ Parser.seen st ->
  Parser._create_component_model spec_global rec name model_def st
  = Ok (VStr name, st).
Proof.
  intros Hin. unfold Parser._create_component_model, Parser.get_seen.
  unfold mbind, Parser.M_bind.
  destruct (decide (name ∈ Parser.seen st)); [reflexivity | contradiction].
Qed.

Lemma get_pydantic_type_S (spec_global : option value) (n : nat) (schema spec : value) :
  Parser._get_pydantic_type spec_global (S n) schema spec
  = Parser._get_pydantic_type_body spec_global
      (Parser._get_pydantic_type spec_global n) schema spec.
Proof. reflexivity. Qed.

Definition component_ref (name : string) : value :=
  VDict [("$ref", VStr ("#/components/schemas/" ++ name))].

Definition document (schemas : list (string * value)) : value :=
  VDict [("components", VDict [("schemas", VDict schemas)])].

(** A category whose children are categories: the property is an array of
    references to the schema being defined. *)
Definition category_tree : value :=
  document
    [("Category",
      VDict [("type", VStr "object");
             ("properties",
              VDict [("children",
                      VDict [("type", VStr "array");
                             ("items", component_ref "Category")])])])].

(** There the self-reference is replaced by the name. *)
Lemma category_tree_resolves :
  Parser.extract_components (Some category_tree) 3 category_tree
  = Ok [("Category",
         TModel "Category" [("children", VField (TList (VStr "Category")) DefaultNone)])].
Proof. vm_compute. reflexivity. Qed.

(** When the module-level [spec] is unbound, the first property that is
    resolved raises [NameError]. *)
Lemma category_tree_unbound_spec :
  Parser.extract_components None 3 category_tree = Raise (NameError "spec").
Proof. vm_compute. reflexivity. Qed.

(** A category whose parent is a category, the reference wrapped in an
    [allOf]. *)
Definition parent_schema : value := VDict [("allOf", VList [component_ref "Category"])].

Definition category_def : value :=
  VDict [("type", VStr "object"); ("properties", VDict [("parent", parent_schema)])].

Definition category_parent : value := document [("Category", category_def)].

(** The visitation set while the properties of [Category] are resolved. *)
Definition visiting_category : gset string := {["Category"]} ∪ ∅.

(** Evaluate the left-hand side up to the first call of the resolver one
    level down, and conclude by [H], which says that this call runs out of
    fuel. *)
Ltac stuck_on rec H :=
  with_strategy transparent [gmap_empty]
    (match goal with
     | |- ?lhs = _ =>
         let lhs' := eval lazy head in lhs in change (lhs' = OutOfFuel)
     end;
     match goal with
     | |- context [rec ?a ?b ?c] =>
         replace (rec a b c) with (@OutOfFuel (value * Parser.state))
           by (symmetry; exact H);
         reflexivity
     end).

(** Building [Category] reaches the resolution of its property [parent]. *)
Lemma category_reaches_parent (rec : value -> value -> Parser.M value) :
  rec parent_schema category_parent (Parser.State [] visiting_category) = OutOfFuel ->
  Parser._create_component_model (Some category_parent) rec "Category" category_def
    (Parser.State [] ∅) = OutOfFuel.
Proof. intros H. stuck_on rec H. Qed.





(** ** The lenient validator *)

Import Lenient.


(** The location [keys] names a field that the document has: a path of
    existing items that ends on a key of a dict. *)
Fixpoint present (keys : list key) (obj : value) : bool :=
  match keys with
  | [] => false
  | [k] =>
      match obj, k with
      | VDict d, KName s => dict_mem s d
      | _, _ => false
      end
  | k :: rest =>
      match item_at obj k with
      | Ok item => present rest item
      | _ => false
      end
  end.


Abbreviation dict_size d :=
  (list_sum (map (fun kv : string * value => match kv with (_, x) => size x end) d)).

Lemma dict_remove_absent (s : string) (d : list (string * value)) :
  dict_mem s d = false -> dict_remove s d = d.
Proof.
  unfold dict_mem. induction d as [|[k v] d IH]; simpl; [reflexivity|].
  destruct (String.eqb s k); [discriminate|]. intros H. now rewrite IH.
Qed.


Lemma dict_set_same (s : string) (v : value) (d : list (string * value)) :
  dict_get s d = Some v -> dict_set s v d = d.
Proof.
  induction d as [|[k w] d IH]; simpl; [discriminate|].
  destruct (String.eqb_spec s k) as [->|Hne].
  - now intros [= ->].
  - intros H. now rewrite IH.
Qed.



Lemma strip_field_cons (k k' : key) (rest : list key) (obj : value) :
  strip_field (k :: k' :: rest) obj
  = match item_at obj k with
    | Ok item =>
        match strip_field (k' :: rest) item with
        | Ok item' => Ok (with_item obj k item')
        | Raise e => Raise e
        | OutOfFuel => OutOfFuel
        end
    | Raise e => Raise e
    | OutOfFuel => OutOfFuel
    end.
Proof. reflexivity. Qed.

Lemma present_cons (k k' : key) (rest : list key) (obj : value) :
  present (k :: k' :: rest) obj
  = match item_at obj k with
    | Ok item => present (k' :: rest) item
    | _ => false
    end.
Proof. reflexivity. Qed.

(** No location can be stripped from a text. *)
Lemma strip_field_text (keys : list key) (s : string) (obj' : value) :
  strip_field keys (VStr s) <> Ok obj'.
Proof.
  revert s obj'. induction keys as [|k rest IH]; intros s obj'; [discriminate|].
  destruct rest as [|k' rest'].
  - destruct k; discriminate.
  - rewrite strip_field_cons.
    destruct (item_at (VStr s) k) as [item| |] eqn:Ei; try discriminate.
    assert (exists c, item = VStr c) as [c ->].
    { destruct k as [n|i]; simpl in Ei; [discriminate|].
      destruct (String.get i s); [|discriminate]. injection Ei as <-. eauto. }
    destruct (strip_field (k' :: rest') (VStr c)) eqn:E; try discriminate.
    exfalso. exact (IH _ _ E).
Qed.

(** The container is as it was when its item is. *)
Lemma with_item_same (obj item : value) (k : key) :
  item_at obj k = Ok item -> with_item obj k item = obj.
Proof.
  destruct obj, k; simpl; try discriminate; try reflexivity.
  - destruct (l !! i) eqn:E; [|discriminate]. intros [= ->].
    now rewrite list_insert_id.
  - destruct (dict_get s d) eqn:E; [|discriminate]. intros [= ->].
    now rewrite dict_set_same.
Qed.


(** Stripping a location that names no field leaves the copy as it is. *)
Lemma strip_field_absent (keys : list key) (obj obj' : value) :
  strip_field keys obj = Ok obj' -> present keys obj = false -> obj' = obj.
Proof.
  revert obj obj'. induction keys as [|k rest IH]; intros obj obj'.
  - simpl. destruct obj; discriminate.
  - destruct rest as [|k' rest'].
    + simpl. destruct obj, k; simpl; try discriminate.
      * intros [= <-] H. now rewrite dict_remove_absent.
      * now intros [= <-].
    + rewrite strip_field_cons, present_cons.
      destruct (item_at obj k) as [item| |] eqn:Ei; try discriminate.
      destruct (strip_field (k' :: rest') item) as [item'| |] eqn:Es; try discriminate.
      intros [= <-] Hp. rewrite (IH _ _ Es Hp). now apply with_item_same.
Qed.





(** A round whose locations name no field of the copy changes nothing. *)
Lemma strip_errors_idle (errors : list (list key)) (obj obj' : value) :
  strip_errors errors obj = Ok obj' ->
  existsb (fun keys => present keys obj) errors = false ->
  obj' = obj.
Proof.
  revert obj. induction errors as [|keys rest IH]; intros obj; simpl.
  - now intros [= <-].
  - unfold mbind, res_bind.
    destruct (strip_field keys obj) as [o| |] eqn:E; try discriminate.
    intros H Hex. apply orb_false_iff in Hex as [Ep Hex].
    rewrite (strip_field_absent _ _ _ E Ep) in H. exact (IH _ H Hex).
Qed.

(** Stripping a location of a dict leaves the entries under other names. *)
Lemma dict_get_remove_other (s k : string) (d : list (string * value)) :
  s <> k -> dict_get k (dict_remove s d) = dict_get k d.
Proof.
  intros Hne. induction d as [|[k' v] d IH]; simpl; [reflexivity|].
  destruct (String.eqb_spec s k') as [->|Hs]; simpl.
  - destruct (String.eqb_spec k k') as [->|_]; [contradiction | reflexivity].
  - destruct (String.eqb k k'); [reflexivity | exact IH].
Qed.

Section Productive.
Context {Model : Type}.
Variable strict_parse_obj : value -> Model + list (list key).



End Productive.


Definition with_info : value :=
  VDict [("info", VDict [("title", VStr "Pets")]);
         ("x-internal", VBool true)].

Definition requires_info_no_extension (obj : value) : value + list (list key) :=
  match obj with
  | VDict d =>
      if dict_mem "x-internal" d then inr [[KName "x-internal"]] else inl obj
  | _ => inl obj
  end.




(** ** The request body *)

Section RequestBody.



Lemma keys_dict_set_new {V} (k : string) (v : V) (d : list (string * V)) :
  ~ In k (keys d) -> keys (dict_set k v d) = keys d ++ [k].
Proof.
  induction d as [|[k' v'] d IH]; simpl; [reflexivity|].
  intros H. destruct (String.eqb_spec k k') as [->|Hne].
  - exfalso. apply H. now left.
  - simpl. f_equal. apply IH. intros Hin. apply H. now right.
Qed.





End RequestBody.

(** An operation that accepts JSON and plain text, in this order. *)
Definition json_then_text : Operation :=
  {| operationId := Some "createPet";
     requestBody :=
       Some (RequestBody
               (Some [("application/json",
                       Some {| media_type_schema := Some 1%positive |});
                      ("text/plain",
                       Some {| media_type_schema := Some 2%positive |})])) |}.

Definition two_schemas : heap :=
  {[ 1%positive := Schema None None (Some "a pet") (VStr "object");
     2%positive := Schema None None (Some "a name") (VStr "string") ]}.



Lemma request_body_text_selected :
  fst (TypedParser._resolve_request_body_schema no_components 0 json_then_text
         two_schemas)
  = Ok (Some 2%positive, Some "text/plain").
Proof. vm_compute. reflexivity. Qed.

(** ** What dereferencing does to the document *)

(** A text that was there is still there; an empty one may be filled. *)
Definition kept_text (d d' : option string) : Prop :=
  text_truthy d = true -> d' = d.

(** What a call keeps of an object: its class; the text of a reference;
    the number of [anyOf] branches, the names of the properties and their
    order, and the untouched attributes of a schema; a description that was
    not empty. *)
Definition obj_kept (o o' : obj) : Prop :=
  match o, o' with
  | Reference ref d, Reference ref' d' => ref' = ref /\ kept_text d d'
  | Schema a p d x, Schema a' p' d' x' =>
      option_map (@length loc) a' = option_map (@length loc) a
      /\ option_map keys p' = option_map keys p
      /\ kept_text d d'
      /\ x' = x
  | Component k d, Component k' d' => k' = k /\ kept_text d d'
  | _, _ => False
  end.

Definition heap_kept (h h' : heap) : Prop :=
  forall x : loc,
    match h !! x, h' !! x with
    | Some o, Some o' => obj_kept o o'
    | None, None => True
    | _, _ => False
    end.

(** The names of a property map are distinct, as the keys of a dict are. *)
Definition heap_wf (h : heap) : Prop :=
  forall (x : loc) a p d o,
    h !! x = Some (Schema a (Some p) d o) -> List.NoDup (keys p).

Lemma kept_text_refl d : kept_text d d.
Proof. now intros _. Qed.

Lemma kept_text_trans d1 d2 d3 :
  kept_text d1 d2 -> kept_text d2 d3 -> kept_text d1 d3.
Proof.
  unfold kept_text. intros H12 H23 H1. specialize (H12 H1). subst d2. auto.
Qed.

Lemma obj_kept_refl o : obj_kept o o.
Proof. destruct o; simpl; auto using kept_text_refl. Qed.

Lemma obj_kept_trans o1 o2 o3 : obj_kept o1 o2 -> obj_kept o2 o3 -> obj_kept o1 o3.
Proof.
  destruct o1, o2, o3; simpl; try tauto.
  - intros [-> H1] [-> H2]. eauto using kept_text_trans.
  - intros (Ha & Hp & Hd & ->) (Ha' & Hp' & Hd' & ->).
    repeat split; try congruence. eauto using kept_text_trans.
  - intros [-> H1] [-> H2]. eauto using kept_text_trans.
Qed.

Lemma heap_kept_refl h : heap_kept h h.
Proof. intros x. destruct (h !! x); auto using obj_kept_refl. Qed.

Lemma heap_kept_trans h1 h2 h3 : heap_kept h1 h2 -> heap_kept h2 h3 -> heap_kept h1 h3.
Proof.
  intros H12 H23 x. specialize (H12 x). specialize (H23 x).
  destruct (h1 !! x), (h2 !! x), (h3 !! x); try tauto.
  eauto using obj_kept_trans.
Qed.

Lemma heap_wf_kept h h' : heap_wf h -> heap_kept h h' -> heap_wf h'.
Proof.
  intros Hwf Hk x a p d o Hx. specialize (Hk x). rewrite Hx in Hk.
  destruct (h !! x) as [[| a0 [p0|] d0 o0 |]|] eqn:E; simpl in Hk; try tauto.
  - destruct Hk as (_ & Hp & _). injection Hp as Hp. rewrite Hp. eauto.
  - destruct Hk as (_ & Hp & _). discriminate.
Qed.

(** Replacing the object at [x] by one that keeps it keeps the store. *)
Lemma heap_kept_insert h x o o' :
  h !! x = Some o -> obj_kept o o' -> heap_kept h (<[x := o']> h).
Proof.
  intros Hx Hk y. destruct (decide (x = y)) as [<-|Hne].
  - now rewrite lookup_insert_eq, Hx.
  - rewrite lookup_insert_ne by assumption.
    destruct (h !! y); auto using obj_kept_refl.
Qed.

(** [triple P m Q]: started in a well-formed store in which [P] holds, [m]
    keeps the store whatever its outcome, and [Q] holds of the value it
    returns and of the store it leaves. *)
Definition triple {A} (P : heap -> Prop) (m : M A) (Q : A -> heap -> Prop) : Prop :=
  forall h r h',
    heap_wf h -> P h -> m h = (r, h') ->
    heap_kept h h' /\ forall a, r = Ok a -> Q a h'.

Definition keeps {A} (m : M A) : Prop := triple (fun _ => True) m (fun _ _ => True).

(** A fact about the store that no kept change can undo. *)
Definition stable (P : heap -> Prop) : Prop :=
  forall h h', P h -> heap_kept h h' -> P h'.

Lemma triple_ret {A} (P : heap -> Prop) (a : A) :
  triple P (mret a) (fun b h => b = a /\ P h).
Proof.
  intros h r h' _ HP [= <- <-]. split; [apply heap_kept_refl|].
  intros b [= <-]. auto.
Qed.

Lemma triple_fail {A} (P : heap -> Prop) (m : M A) (Q : A -> heap -> Prop) :
  (forall h, exists r, m h = (r, h) /\ forall a, r <> Ok a) -> triple P m Q.
Proof.
  intros Hm h r h' _ _ E. destruct (Hm h) as (r0 & E0 & Hr).
  rewrite E0 in E. injection E as <- <-. split; [apply heap_kept_refl|].
  intros a ->. destruct (Hr a eq_refl).
Qed.

Lemma triple_bind {A B} (P : heap -> Prop) (m : M A) (Q : A -> heap -> Prop)
    (k : A -> M B) (R : B -> heap -> Prop) :
  triple P m Q -> (forall a, triple (Q a) (k a) R) -> triple P (m ≫= k) R.
Proof.
  intros Hm Hk h r h' Hwf HP E. unfold mbind, M_bind in E.
  destruct (m h) as [[a|e|] h1] eqn:Em;
    destruct (Hm _ _ _ Hwf HP Em) as [Hkept HQ].
  - destruct (Hk a _ _ _ (heap_wf_kept _ _ Hwf Hkept) (HQ _ eq_refl) E) as [Hkept' HR].
    split; [eauto using heap_kept_trans | exact HR].
  - injection E as <- <-. split; [assumption | discriminate].
  - injection E as <- <-. split; [assumption | discriminate].
Qed.

Lemma triple_weaken {A} (P P' : heap -> Prop) (m : M A) (Q Q' : A -> heap -> Prop) :
  triple P m Q ->
  (forall h, P' h -> P h) -> (forall a h, Q a h -> Q' a h) ->
  triple P' m Q'.
Proof.
  intros Hm HP HQ h r h' Hwf HP' E.
  destruct (Hm _ _ _ Hwf (HP _ HP') E) as [Hk Hq]. split; [assumption|].
  intros a Hr. apply HQ. now apply Hq.
Qed.

(** A stable fact survives a call that keeps the store. *)
Lemma triple_frame {A} (P : heap -> Prop) (m : M A) :
  keeps m -> stable P -> triple P m (fun _ h => P h).
Proof.
  intros Hm HP h r h' Hwf HPh E.
  destruct (Hm _ _ _ Hwf I E) as [Hk _]. split; [assumption|].
  intros a _. exact (HP _ _ HPh Hk).
Qed.

Lemma keeps_of_triple {A} (P : heap -> Prop) (m : M A) (Q : A -> heap -> Prop) :
  triple P m Q -> (forall h, P h) -> keeps m.
Proof. intros Hm HP. apply (triple_weaken P _ m Q); auto. Qed.

(** Reading an attribute changes nothing. *)
Lemma triple_read {A} (P : heap -> Prop) (m : M A) (Q : A -> heap -> Prop) :
  (forall h, heap_wf h -> P h ->
             exists r, m h = (r, h) /\ forall a, r = Ok a -> Q a h) ->
  triple P m Q.
Proof.
  intros Hm h r h' Hwf HP E. destruct (Hm h Hwf HP) as (r0 & E0 & HQ).
  rewrite E0 in E. injection E as <- <-. split; [apply heap_kept_refl | exact HQ].
Qed.

(** The [anyOf] of [x] is a list of [n] branches. *)
Definition anyOf_length (x : loc) (n : nat) (h : heap) : Prop :=
  exists a p d o, h !! x = Some (Schema a p d o) /\ option_map (@length loc) a = Some n.

(** The properties of [x] are named [names], in this order. *)
Definition property_names (x : loc) (names : list string) (h : heap) : Prop :=
  exists a p d o, h !! x = Some (Schema a (Some p) d o) /\ keys p = names.

Lemma anyOf_length_stable x n : stable (anyOf_length x n).
Proof.
  intros h h' (a & p & d & o & Hx & Hn) Hk. specialize (Hk x). rewrite Hx in Hk.
  destruct (h' !! x) as [[| a' p' d' o' |]|] eqn:Hx'; simpl in Hk; try tauto.
  destruct Hk as (Ha & _). exists a', p', d', o'.
  split; [assumption | now rewrite Ha].
Qed.

Lemma property_names_stable x names : stable (property_names x names).
Proof.
  intros h h' (a & p & d & o & Hx & Hn) Hk. specialize (Hk x). rewrite Hx in Hk.
  destruct (h' !! x) as [[| a' [p'|] d' o' |]|] eqn:Hx'; simpl in Hk; try tauto.
  - destruct Hk as (_ & Hp & _). injection Hp as Hp.
    exists a', p', d', o'. split; [assumption | now rewrite Hp].
  - destruct Hk as (_ & Hp & _). discriminate.
Qed.

Lemma triple_anyOf_of x :
  triple (fun _ => True) (anyOf_of x)
    (fun a h => match a with
                | Some l => anyOf_length x (length l) h
                | None => True
                end).
Proof.
  apply triple_read. intros h _ _. unfold anyOf_of.
  destruct (h !! x) as [[| a p d o |]|] eqn:E; eexists; split; try reflexivity;
    try discriminate.
  intros a' [= <-]. destruct a as [l|]; [|exact I].
  exists (Some l), p, d, o. auto.
Qed.

Lemma triple_properties_of x :
  triple (fun _ => True) (properties_of x)
    (fun p h => match p with
                | Some ps => List.NoDup (keys ps) /\ property_names x (keys ps) h
                | None => True
                end).
Proof.
  apply triple_read. intros h Hwf _. unfold properties_of.
  destruct (h !! x) as [[| a p d o |]|] eqn:E; eexists; split; try reflexivity;
    try discriminate.
  intros p' [= <-]. destruct p as [ps|]; [|exact I]. split.
  - exact (Hwf _ _ _ _ _ E).
  - exists a, ps, d, o. auto.
Qed.

Lemma keeps_is_reference x : keeps (is_reference x).
Proof. apply triple_read. intros h _ _. eexists. split; [reflexivity | auto]. Qed.

Lemma keeps_ref_of x : keeps (ref_of x).
Proof.
  apply triple_read. intros h _ _. unfold ref_of.
  destruct (h !! x) as [[]|]; eexists; split; try reflexivity; auto.
Qed.

Lemma keeps_ret {A} (a : A) : keeps (mret a : M A).
Proof. apply (triple_weaken _ _ _ _ _ (triple_ret (fun _ => True) a)); auto. Qed.

Lemma keeps_raise {A} (e : exn) : keeps (raise e : M A).
Proof. apply triple_fail. intros h. eexists. split; [reflexivity | discriminate]. Qed.

Lemma keeps_out_of_fuel {A} : keeps (out_of_fuel : M A).
Proof. apply triple_fail. intros h. eexists. split; [reflexivity | discriminate]. Qed.

Lemma keeps_bind {A B} (m : M A) (k : A -> M B) :
  keeps m -> (forall a, keeps (k a)) -> keeps (m ≫= k).
Proof. intros Hm Hk. apply (triple_bind _ m (fun _ _ => True)); auto. Qed.

Lemma triple_set_anyOf x v :
  triple (anyOf_length x (length v)) (set_anyOf x v) (fun _ _ => True).
Proof.
  intros h r h' _ (a & p & d & o & Hx & Hn). unfold set_anyOf. rewrite Hx.
  intros [= <- <-]. split; [|auto].
  apply (heap_kept_insert _ _ _ _ Hx). simpl. auto using kept_text_refl.
Qed.

Lemma triple_set_properties x v :
  triple (property_names x (keys v)) (set_properties x v) (fun _ _ => True).
Proof.
  intros h r h' _ (a & p & d & o & Hx & Hn). unfold set_properties. rewrite Hx.
  intros [= <- <-]. split; [|auto].
  apply (heap_kept_insert _ _ _ _ Hx). simpl. rewrite Hn.
  auto using kept_text_refl.
Qed.

(** [if not x.description: x.description = v] *)
Lemma keeps_fill_description x v :
  keeps (current ← description_of x;
         if negb (text_truthy current) then set_description x v else mret tt).
Proof.
  intros h r h' _ _. unfold mbind, M_bind, description_of, set_description.
  destruct (h !! x) as [[ref d | a p d o | k d]|] eqn:Hx;
    try (intros [= <- <-]; split; [apply heap_kept_refl | auto]);
    destruct (text_truthy d) eqn:Ed; simpl; rewrite ?Hx;
    intros [= <- <-]; (split; [|auto]);
    try apply heap_kept_refl;
    apply (heap_kept_insert _ _ _ _ Hx); simpl; repeat split; auto;
    intros Ht; unfold kept_text; congruence.
Qed.

Lemma triple_conj {A} (P : heap -> Prop) (m : M A) (Q1 Q2 : A -> heap -> Prop) :
  triple P m Q1 -> triple P m Q2 -> triple P m (fun a h => Q1 a h /\ Q2 a h).
Proof.
  intros H1 H2 h r h' Hwf HP E.
  destruct (H1 _ _ _ Hwf HP E) as [Hk HQ1]. destruct (H2 _ _ _ Hwf HP E) as [_ HQ2].
  split; [assumption|]. intros a Hr. split; auto.
Qed.

Lemma triple_pure {A} (fact : Prop) (P : heap -> Prop) (m : M A)
    (Q : A -> heap -> Prop) :
  (fact -> triple P m Q) -> triple (fun h => fact /\ P h) m Q.
Proof. intros Hm h r h' Hwf [Hf HP] E. exact (Hm Hf _ _ _ Hwf HP E). Qed.

Lemma keeps_weaken {A} (P : heap -> Prop) (m : M A) :
  keeps m -> triple P m (fun _ _ => True).
Proof. intros Hm. apply (triple_weaken _ _ _ _ _ Hm); auto. Qed.

Definition obj_description (o : obj) : option string :=
  match o with
  | Reference _ d | Schema _ _ d _ | Component _ d => d
  end.

(** The description of [x] is [d]. *)
Definition described (x : loc) (d : option string) (h : heap) : Prop :=
  exists o, h !! x = Some o /\ obj_description o = d.

Lemma triple_description_of (x : loc) :
  triple (fun _ => True) (description_of x) (fun d h => described x d h).
Proof.
  apply triple_read. intros h _ _. unfold description_of.
  destruct (h !! x) as [o|] eqn:E.
  - exists (Ok (obj_description o)). split; [now destruct o|].
    intros d [= <-]. now exists o.
  - eexists. split; [reflexivity | discriminate].
Qed.

Lemma triple_description_of_any (P : heap -> Prop) (y : loc) :
  triple P (description_of y) (fun _ h => P h).
Proof.
  apply triple_read. intros h _ HP. unfold description_of.
  destruct (h !! y) as [[]|]; eexists; split; try reflexivity; auto.
Qed.

Lemma triple_set_description (x : loc) (current v : option string) :
  text_truthy current = false ->
  triple (described x current) (set_description x v) (fun _ _ => True).
Proof.
  intros Hc h r h' _ (o & Hx & Hd). unfold set_description. rewrite Hx.
  destruct o as [ref d | a p d o | k d]; simpl in Hd; subst d;
    intros [= <- <-]; (split; [|auto]);
    apply (heap_kept_insert _ _ _ _ Hx); simpl; repeat split; auto;
    unfold kept_text; congruence.
Qed.

(** [if not x.description: x.description = y.description], then [k]. *)
Lemma keeps_fill_from {A} (x y : loc) (k : M A) :
  keeps k ->
  keeps (current ← description_of x;
         _ ← (if negb (text_truthy current) then
                d ← description_of y;
                set_description x d
              else mret tt);
         k).
Proof.
  intros Hk.
  apply (triple_bind _ _ _ _ _ (triple_description_of x)). intros current.
  apply (triple_bind _ _ (fun _ _ => True)); [|intros _; exact Hk].
  destruct (text_truthy current) eqn:Ec; cbn [negb].
  - apply keeps_weaken, keeps_ret.
  - apply (triple_bind _ _ _ _ _ (triple_description_of_any _ y)).
    intros d. now apply (triple_set_description x current d).
Qed.

Section Keeps.
Variable spec : OpenAPI.

Section OneLevel.
Variable rec : loc -> M unit.
Hypothesis rec_keeps : forall x, keeps (rec x).

Lemma keeps_resolve_reference (ref : string) :
  keeps (TypedParser._resolve_reference spec rec ref).
Proof.
  unfold TypedParser._resolve_reference.
  destruct (components spec) as [c|]; [|apply keeps_raise].
  destruct (schemas c) as [ss|]; [|apply keeps_raise].
  destruct (dict_get _ ss) as [schema|].
  - apply keeps_bind; [apply rec_keeps | intros _; apply keeps_ret].
  - destruct (TypedParser.find_component _ _); [apply keeps_ret | apply keeps_raise].
Qed.

(** The loop of [_dereference_anyof] returns as many branches as it
    was given. *)
Lemma anyof_loop_length (branches : list loc) :
  forall acc,
    triple (fun _ => True) (TypedParser.anyof_loop spec rec branches acc)
      (fun r _ => length r = length acc + length branches).
Proof.
  induction branches as [|b rest IH]; intros acc; simpl.
  - apply (triple_weaken _ _ _ _ _ (triple_ret (fun _ => True) acc)); auto.
    intros a h [-> _]. lia.
  - apply (triple_bind _ _ (fun _ _ => True)); [apply keeps_is_reference|].
    intros [|].
    + apply (triple_bind _ _ (fun _ _ => True)); [apply keeps_ref_of|].
      intros ref.
      apply (triple_bind _ _ (fun _ _ => True)); [apply keeps_resolve_reference|].
      intros resolved.
      apply (triple_weaken _ _ _ _ _ (IH (acc ++ [resolved]))); auto.
      intros r _ ->. rewrite length_app. simpl. lia.
    + apply (triple_weaken _ _ _ _ _ (IH (acc ++ [b]))); auto.
      intros r _ ->. rewrite length_app. simpl. lia.
Qed.

Lemma keeps_dereference_anyof (schema : loc) :
  keeps (TypedParser._dereference_anyof spec rec schema).
Proof.
  unfold TypedParser._dereference_anyof.
  apply (triple_bind _ _ _ _ _ (triple_anyOf_of schema)).
  intros [[|b bs]|]; cbn [list_truthy from_option id];
    try (apply keeps_weaken, keeps_ret).
  set (l := b :: bs).
  apply (triple_bind _ _
           (fun r h => anyOf_length schema (length l) h /\ length r = length l)).
  - apply triple_conj.
    + apply triple_frame; [|apply anyOf_length_stable].
      apply (keeps_of_triple _ _ _ (anyof_loop_length l [])); auto.
    + apply (triple_weaken _ _ _ _ _ (anyof_loop_length l [])); auto.
  - intros r. apply (triple_weaken _ _ _ _ _ (triple_set_anyOf schema r)); auto.
    intros h [H ->]. exact H.
Qed.

(** The loop of [_dereference_properties] returns the names it was
    given, in their order. *)
Lemma properties_loop_keys (props : list (string * loc)) :
  forall acc,
    List.NoDup (keys acc ++ keys props) ->
    triple (fun _ => True) (TypedParser.properties_loop spec rec props acc)
      (fun r _ => keys r = keys acc ++ keys props).
Proof.
  induction props as [|[prop_name prop_schema] rest IH]; intros acc Hnd; simpl.
  - apply (triple_weaken _ _ _ _ _ (triple_ret (fun _ => True) acc)); auto.
    intros a h [-> _]. now rewrite app_nil_r.
  - assert (Hnotin : ~ In prop_name (keys acc)).
    { simpl in Hnd. apply NoDup_remove_2 in Hnd. intros Hin. apply Hnd.
      apply in_or_app. now left. }
    assert (Hnd' : List.NoDup (keys (dict_set prop_name 1%positive acc) ++ keys rest)).
    { rewrite keys_dict_set_new by assumption. rewrite <- app_assoc. exact Hnd. }
    apply (triple_bind _ _ (fun _ _ => True)); [apply keeps_is_reference|].
    intros is_ref.
    apply (triple_bind _ _ (fun _ _ => True)).
    { destruct is_ref; [|apply keeps_ret].
      apply keeps_bind; [apply keeps_ref_of|].
      intros ref. apply keeps_resolve_reference. }
    intros resolved.
    apply (triple_bind _ _ (fun _ _ => True)); [apply rec_keeps|].
    intros _.
    assert (Hnd2 : List.NoDup (keys (dict_set prop_name resolved acc) ++ keys rest)).
    { rewrite keys_dict_set_new in * by assumption. exact Hnd'. }
    apply (triple_weaken _ _ _ _ _ (IH _ Hnd2)); auto.
    intros r _ ->. rewrite keys_dict_set_new by assumption.
    now rewrite <- app_assoc.
Qed.

Lemma keeps_dereference_properties (schema : loc) :
  keeps (TypedParser._dereference_properties spec rec schema).
Proof.
  unfold TypedParser._dereference_properties.
  apply (triple_bind _ _ _ _ _ (triple_properties_of schema)).
  intros [[|p ps]|]; cbn [list_truthy from_option id];
    try (apply keeps_weaken, keeps_ret).
  set (l := p :: ps).
  apply triple_pure. intros Hnd.
  apply (triple_bind _ _
           (fun r h => property_names schema (keys l) h /\ keys r = keys l)).
  - apply triple_conj.
    + apply triple_frame; [|apply property_names_stable].
      apply (keeps_of_triple _ _ _ (properties_loop_keys l [] Hnd)); auto.
    + apply (triple_weaken _ _ _ _ _ (properties_loop_keys l [] Hnd)); auto.
  - intros r. apply (triple_weaken _ _ _ _ _ (triple_set_properties schema r)); auto.
    intros h [H ->]. exact H.
Qed.

Lemma keeps_dereference_children_body (schema : loc) :
  keeps (TypedParser._dereference_children_body spec rec schema).
Proof.
  unfold TypedParser._dereference_children_body.
  apply keeps_bind; [apply keeps_dereference_anyof|].
  intros _. apply keeps_dereference_properties.
Qed.

End OneLevel.

Lemma keeps_dereference_children (fuel : nat) :
  forall schema, keeps (TypedParser._dereference_children spec fuel schema).
Proof.
  induction fuel as [|n IH]; intros schema; simpl.
  - apply keeps_out_of_fuel.
  - now apply keeps_dereference_children_body.
Qed.

Lemma keeps_resolve_schema (fuel : nat) (schema : loc) (description : option string) :
  keeps (TypedParser.resolve_schema spec fuel schema description).
Proof.
  unfold TypedParser.resolve_schema.
  apply keeps_bind; [apply keeps_is_reference|]. intros is_ref.
  apply keeps_bind.
  { destruct is_ref; [|apply keeps_ret].
    apply keeps_bind; [apply keeps_ref_of|]. intros ref.
    apply keeps_resolve_reference, keeps_dereference_children. }
  intros _schema. apply keeps_bind.
  { destruct (text_truthy description); [|apply keeps_ret].
    apply keeps_fill_description. }
  intros _. apply keeps_bind; [apply keeps_dereference_children|].
  intros _. apply keeps_ret.
Qed.

Lemma keeps_media_type_loop (fuel : nat) (content : list (string * option MediaType))
    (encodings : list string) :
  forall result, keeps (TypedParser.media_type_loop spec fuel content encodings result).
Proof.
  induction encodings as [|enc rest IH]; intros result; simpl; [apply keeps_ret|].
  destruct (dict_get enc content) as [[media_type|]|];
    [|apply IH | apply keeps_raise].
  destruct (media_type_schema media_type) as [schema|]; [|apply IH].
  apply keeps_bind; [apply keeps_is_reference|]. intros is_ref.
  apply keeps_bind; [|intros; apply IH].
  destruct is_ref; [|apply keeps_ret].
  apply keeps_bind; [apply keeps_ref_of|]. intros ref.
  apply keeps_bind;
    [apply keeps_resolve_reference, keeps_dereference_children|].
  intros resolved. apply keeps_fill_from, keeps_ret.
Qed.

Lemma keeps_resolve_request_body_schema (fuel : nat) (operation : Operation) :
  keeps (TypedParser._resolve_request_body_schema spec fuel operation).
Proof.
  unfold TypedParser._resolve_request_body_schema.
  destruct (requestBody operation) as [[ref|content]|];
    [apply keeps_raise | | apply keeps_ret].
  destruct (list_truthy content); [|apply keeps_ret].
  apply keeps_bind; [apply keeps_media_type_loop|].
  intros r. destruct (TypedParser.popitem r) as [[enc v]|]; apply keeps_ret.
Qed.

(** C4 (as amended).  Reference resolution, schema resolution and
    request body resolution of typed_parser.py write to the document, and
    what they keep of each of its objects is: its class, the text of a
    reference, the names and the order of a property map, the number of
    [anyOf] branches, a description that was not empty, and every other
    attribute.  (What they change: the entries of property maps and of
    [anyOf] lists that were references become the schemas referred to, and
    an empty description may be filled.) *)
Theorem dereferencing_keeps (fuel : nat) (ref : string) (schema : loc)
    (description : option string) (operation : Operation) (h : heap) :
  heap_wf h ->
  heap_kept h
    (snd (TypedParser._resolve_reference spec
            (TypedParser._dereference_children spec fuel) ref h))
  /\ heap_kept h (snd (TypedParser.resolve_schema spec fuel schema description h))
  /\ heap_kept h
       (snd (TypedParser._resolve_request_body_schema spec fuel operation h)).
Proof.
  intros Hwf. repeat split.
  - destruct (TypedParser._resolve_reference _ _ _ h) as [r h'] eqn:E.
    exact (proj1 (keeps_resolve_reference _ (keeps_dereference_children fuel)
                    ref _ _ _ Hwf I E)).
  - destruct (TypedParser.resolve_schema _ _ _ _ h) as [r h'] eqn:E.
    exact (proj1 (keeps_resolve_schema fuel schema description _ _ _ Hwf I E)).
  - destruct (TypedParser._resolve_request_body_schema _ _ _ h) as [r h'] eqn:E.
    exact (proj1 (keeps_resolve_request_body_schema fuel operation _ _ _ Hwf I E)).
Qed.

End Keeps.

(** A pet with an owner: the property refers to the component [Owner]. *)
Definition pet_store : OpenAPI :=
  {| servers := [];
     paths := None;
     components :=
       Some {| schemas := Some [("Pet", 1%positive); ("Owner", 2%positive)];
               parameters := None;
               requestBodies := None;
               responses := None |} |}.

Definition pet_heap : heap :=
  {[ 1%positive := Schema None (Some [("owner", 3%positive)]) None (VStr "object");
     2%positive := Schema None None None (VStr "object");
     3%positive := Reference "#/components/schemas/Owner" None ]}.

Lemma pet_heap_wf : heap_wf pet_heap.
Proof.
  intros x a p d o Hx.
  destruct (decide (x = 1%positive)) as [->|H1].
  - vm_compute in Hx. injection Hx as <- <- <- <-.
    repeat constructor; simpl; tauto.
  - destruct (decide (x = 2%positive)) as [->|H2]; [vm_compute in Hx; discriminate|].
    destruct (decide (x = 3%positive)) as [->|H3]; [vm_compute in Hx; discriminate|].
    unfold pet_heap in Hx.
    rewrite !lookup_insert_ne in Hx by congruence.
    rewrite lookup_singleton_ne in Hx by congruence. discriminate.
Qed.

Lemma dereferencing_keeps_witness :
  heap_kept pet_heap
    (snd (TypedParser._resolve_reference pet_store
            (TypedParser._dereference_children pet_store 3)
            "#/components/schemas/Pet" pet_heap))
  /\ heap_kept pet_heap
       (snd (TypedParser.resolve_schema pet_store 3 1%positive (Some "A pet") pet_heap))
  /\ heap_kept pet_heap
       (snd (TypedParser._resolve_request_body_schema pet_store 3 json_then_text
               pet_heap)).
Proof.
  apply (dereferencing_keeps pet_store 3 "#/components/schemas/Pet" 1%positive
           (Some "A pet") json_then_text pet_heap).
  exact pet_heap_wf.
Defined.

(** C4, as stated, fails: resolving the schema [Pet] replaces the reference
    held by its property map with the schema [Owner] itself, in the
    document. *)
Lemma resolve_schema_rewrites_document :
  snd (TypedParser.resolve_schema pet_store 3 1%positive None pet_heap) <> pet_heap.
Proof.
  intros E. apply (f_equal (fun h : heap => h !! 1%positive)) in E.
  vm_compute in E. discriminate E.
Qed.

Lemma resolve_schema_pet_after :
  snd (TypedParser.resolve_schema pet_store 3 1%positive None pet_heap) !! 1%positive
  = Some (Schema None (Some [("owner", 2%positive)]) None (VStr "object")).
Proof. vm_compute. reflexivity. Qed.
(** * Further properties *)

(** ** HTTP verbs *)

(** X1.  [HTTPVerb.from_str] is the inverse of [.value]: a text is parsed
    to a verb exactly when it is the value of that verb, so the text of
    each of the eight verbs is parsed to it, and every other text (an
    uppercase [GET] included) raises [ValueError]. *)
Theorem HTTPVerb_from_str_round_trip (s : string) :
  (forall v : HTTPVerb, Parser.HTTPVerb_from_str s = Ok v <-> Parser.verb_value v = s)
  /\ ((exists v, Parser.HTTPVerb_from_str s = Ok v)
      \/ Parser.HTTPVerb_from_str s
         = Raise (ValueError "Invalid HTTP verb. Valid values are " [])).
Proof.
  split.
  - intros v. split.
    + unfold Parser.HTTPVerb_from_str.
      destruct (List.find _ Parser.all_verbs) as [w|] eqn:E; [|discriminate].
      intros [= ->]. apply List.find_some in E as [_ E].
      apply String.eqb_eq in E. now symmetry.
    + intros <-. now destruct v.
  - unfold Parser.HTTPVerb_from_str.
    destruct (List.find _ Parser.all_verbs) as [w|]; eauto.
Qed.

(** An uppercase verb is none. *)
Lemma HTTPVerb_from_str_uppercase :
  Parser.HTTPVerb_from_str "GET"
  = Raise (ValueError "Invalid HTTP verb. Valid values are " []).
Proof. reflexivity. Qed.

(** ** Cleaned operation identifiers *)

Definition is_separator (c : ascii) : bool :=
  Ascii.eqb c "-" || Ascii.eqb c "." || Ascii.eqb c "/".

(** [c] is a letter, a digit or the underscore. *)
Definition is_word (c : ascii) : bool := PyStr.is_alnum c || Ascii.eqb c "_".

Fixpoint all_chars (p : ascii -> bool) (s : string) : bool :=
  match s with
  | EmptyString => true
  | String c r => p c && all_chars p r
  end.

Lemma all_chars_app p (a b : string) :
  all_chars p (a ++ b) = all_chars p a && all_chars p b.
Proof.
  induction a as [|c a IH]; [reflexivity|].
  change (String c a ++ b)%string with (String c (a ++ b)).
  simpl. now rewrite IH, andb_assoc.
Qed.

Lemma all_chars_map_chars p f (s : string) :
  (forall c, p (f c) = true) -> all_chars p (PyStr.map_chars f s) = true.
Proof.
  intros H. induction s as [|c s IH]; simpl; [reflexivity|]. now rewrite H, IH.
Qed.

Lemma map_chars_id f (s : string) :
  all_chars (fun c => Ascii.eqb (f c) c) s = true -> PyStr.map_chars f s = s.
Proof.
  induction s as [|c s IH]; simpl; [reflexivity|].
  intros H. apply andb_true_iff in H as [Hc Hs].
  apply Ascii.eqb_eq in Hc. now rewrite Hc, IH.
Qed.

Lemma all_chars_impl (p q : ascii -> bool) (s : string) :
  (forall c, p c = true -> q c = true) -> all_chars p s = true -> all_chars q s = true.
Proof.
  intros H. induction s as [|c s IH]; simpl; [reflexivity|].
  intros E. apply andb_true_iff in E as [Hc Hs]. now rewrite (H _ Hc), IH.
Qed.

Lemma separators_char (c : ascii) :
  is_separator
    (if Ascii.eqb (if Ascii.eqb (if Ascii.eqb c "-" then "_" else c) "." then "_"
                   else if Ascii.eqb c "-" then "_" else c) "/"
     then "_"
     else if Ascii.eqb (if Ascii.eqb c "-" then "_" else c) "." then "_"
          else if Ascii.eqb c "-" then "_" else c)%char = false.
Proof.
  destruct c as [b0 b1 b2 b3 b4 b5 b6 b7].
  destruct b0, b1, b2, b3, b4, b5, b6, b7; reflexivity.
Qed.

(** What the closing [replace] calls return holds no separator. *)
Lemma separators_gone (s : string) :
  all_chars (fun c => negb (is_separator c)) (separators_to_underscore s) = true.
Proof.
  unfold separators_to_underscore, PyStr.replace_char.
  rewrite !map_chars_map_chars. apply all_chars_map_chars.
  intros c. now rewrite separators_char.
Qed.

(** A text without separators is left as it is. *)
Lemma separators_fixed (s : string) :
  all_chars (fun c => negb (is_separator c)) s = true ->
  separators_to_underscore s = s.
Proof.
  intros H. unfold separators_to_underscore, PyStr.replace_char.
  rewrite !map_chars_map_chars. apply map_chars_id.
  revert H. apply all_chars_impl. intros c.
  destruct c as [b0 b1 b2 b3 b4 b5 b6 b7].
  destruct b0, b1, b2, b3, b4, b5, b6, b7; intros H; try discriminate H; reflexivity.
Qed.

Lemma cleaned_is_separators (operation_id : value) (path verb r : string) :
  Parser._get_cleaned_operation_id operation_id path verb = Ok r ->
  exists s, r = separators_to_underscore s.
Proof.
  unfold Parser._get_cleaned_operation_id.
  destruct (is_none operation_id).
  - intros [= <-]. eauto.
  - destruct operation_id; try discriminate. intros [= <-]. eauto.
Qed.

(** X2.  An identifier returned by [_get_cleaned_operation_id], explicit
    or derived, holds none of [-], [.] and [/], and cleaning is idempotent:
    given back as an explicit [operationId], with any path and verb, it is
    returned unchanged, by parser.py and by typed_parser.py alike. *)
Theorem cleaned_operation_id_stable (operation_id : value) (path verb r : string) :
  Parser._get_cleaned_operation_id operation_id path verb = Ok r ->
  all_chars (fun c => negb (is_separator c)) r = true
  /\ (forall path' verb',
        Parser._get_cleaned_operation_id (VStr r) path' verb' = Ok r)
  /\ (forall path' verb' body,
        TypedParser.get_cleaned_operation_id
          {| operationId := Some r; requestBody := body |} path' verb' = r).
Proof.
  intros H. destruct (cleaned_is_separators _ _ _ _ H) as [s ->].
  pose proof (separators_gone s) as Hs.
  split; [exact Hs|]. split.
  - intros path' verb'. unfold Parser._get_cleaned_operation_id. simpl.
    f_equal. exact (separators_fixed _ Hs).
  - intros path' verb' body. unfold TypedParser.get_cleaned_operation_id. simpl.
    exact (separators_fixed _ Hs).
Qed.

Lemma cleaned_operation_id_stable_witness :
  all_chars (fun c => negb (is_separator c)) "pets_list_v1_0" = true
  /\ (forall path' verb',
        Parser._get_cleaned_operation_id (VStr "pets_list_v1_0") path' verb'
        = Ok "pets_list_v1_0")
  /\ (forall path' verb' body,
        TypedParser.get_cleaned_operation_id
          {| operationId := Some "pets_list_v1_0"; requestBody := body |} path' verb'
        = "pets_list_v1_0").
Proof.
  apply (cleaned_operation_id_stable (VStr "pets-list/v1.0") "/pets" "get").
  reflexivity.
Defined.

Lemma sub_non_alnum_word (s : string) :
  all_chars is_word (PyStr.sub_non_alnum s) = true.
Proof.
  unfold PyStr.sub_non_alnum. apply all_chars_map_chars. intros c.
  unfold is_word. destruct (PyStr.is_alnum c) eqn:E; [now rewrite E | reflexivity].
Qed.

Lemma length_append (a b : string) :
  String.length (a ++ b) = String.length a + String.length b.
Proof.
  induction a as [|c a IH]; [reflexivity|].
  change (String c a ++ b)%string with (String c (a ++ b)). simpl. now rewrite IH.
Qed.

Lemma upper_length (s : string) : String.length (PyStr.upper s) = String.length s.
Proof.
  unfold PyStr.upper. induction s as [|c s IH]; simpl; [reflexivity|]. now rewrite IH.
Qed.

(** X3.  Derived from a path and one of the eight verbs, the identifier is
    made of letters, digits and underscores only, whatever the path holds,
    and is as long as the path without its leading slashes plus the verb:
    nothing is inserted or dropped. *)
Theorem derived_operation_id_is_word (path : string) (v : HTTPVerb) :
  exists r,
    Parser._get_cleaned_operation_id VNone path (Parser.verb_value v) = Ok r
    /\ TypedParser.get_cleaned_operation_id
         {| operationId := None; requestBody := None |} path (Parser.verb_value v) = r
    /\ all_chars is_word r = true
    /\ String.length r
       = String.length (PyStr.lstrip_char "/" path)
         + String.length (Parser.verb_value v).
Proof.
  exists (PyStr.sub_non_alnum (PyStr.lstrip_char "/" path)
          ++ PyStr.upper (Parser.verb_value v))%string.
  assert (E : separators_to_underscore
                (PyStr.sub_non_alnum (PyStr.lstrip_char "/" path)
                 ++ PyStr.upper (Parser.verb_value v))
              = (PyStr.sub_non_alnum (PyStr.lstrip_char "/" path)
                 ++ PyStr.upper (Parser.verb_value v))%string).
  { now rewrite separators_app, separators_sub_non_alnum, upper_verb_stable. }
  repeat split.
  - unfold Parser._get_cleaned_operation_id. simpl. f_equal. exact E.
  - unfold TypedParser.get_cleaned_operation_id. simpl. exact E.
  - rewrite all_chars_app, sub_non_alnum_word. now destruct v.
  - now rewrite length_append, sub_non_alnum_length, upper_length.
Qed.

Lemma lstrip_char_app (c d : ascii) (a b : string) :
  d <> c ->
  PyStr.lstrip_char c (a ++ String d b) = (PyStr.lstrip_char c a ++ String d b)%string.
Proof.
  intros Hd. induction a as [|x a IH].
  - simpl. destruct (Ascii.eqb_spec d c); [contradiction | reflexivity].
  - change (String x a ++ String d b)%string with (String x (a ++ String d b)).
    simpl. destruct (Ascii.eqb x c); [exact IH | reflexivity].
Qed.

Lemma sub_non_alnum_app (a b : string) :
  PyStr.sub_non_alnum (a ++ b)
  = (PyStr.sub_non_alnum a ++ PyStr.sub_non_alnum b)%string.
Proof. apply map_chars_app. Qed.

(** X4.  Derived identifiers are not injective in the path: paths that
    differ in a punctuation character (neither letter nor digit nor slash)
    get the same identifier, and so do a path and the same path with one
    more leading slash. *)
Theorem derived_operation_id_collisions (a b : string) (c1 c2 : ascii)
    (verb : string) :
  PyStr.is_alnum c1 = false -> PyStr.is_alnum c2 = false ->
  c1 <> "/"%char -> c2 <> "/"%char ->
  Parser._get_cleaned_operation_id VNone (a ++ String c1 b) verb
  = Parser._get_cleaned_operation_id VNone (a ++ String c2 b) verb
  /\ Parser._get_cleaned_operation_id VNone (String "/" a) verb
     = Parser._get_cleaned_operation_id VNone a verb.
Proof.
  intros H1 H2 N1 N2. split; [|reflexivity].
  unfold Parser._get_cleaned_operation_id. simpl.
  rewrite !lstrip_char_app by assumption.
  rewrite !sub_non_alnum_app.
  unfold PyStr.sub_non_alnum at 2 4. simpl. now rewrite H1, H2.
Qed.

Lemma derived_operation_id_collisions_witness :
  Parser._get_cleaned_operation_id VNone "/pets-by-owner" "get"
  = Parser._get_cleaned_operation_id VNone "/pets.by-owner" "get"
  /\ Parser._get_cleaned_operation_id VNone "//pets" "get"
     = Parser._get_cleaned_operation_id VNone "/pets" "get".
Proof.
  apply (derived_operation_id_collisions "/pets" "by-owner" "-" "." "get");
    first [reflexivity | discriminate].
Defined.

(** ** The base URL, continued *)

Lemma rstrip_space_idem (s : string) :
  PyStr.rstrip_space (PyStr.rstrip_space s) = PyStr.rstrip_space s.
Proof.
  induction s as [|a r IH]; [reflexivity|].
  simpl. destruct (PyStr.rstrip_space r) as [|b r'] eqn:E.
  - destruct (PyStr.is_space a) eqn:Ea; [reflexivity|]. simpl. now rewrite Ea.
  - simpl. simpl in IH. now rewrite IH.
Qed.

(** What [lstrip] returns does not start with a blank. *)
Definition starts_clean (s : string) : bool :=
  match s with
  | EmptyString => true
  | String a _ => negb (PyStr.is_space a)
  end.

Lemma lstrip_space_clean (s : string) : starts_clean (PyStr.lstrip_space s) = true.
Proof.
  induction s as [|a r IH]; [reflexivity|].
  simpl. destruct (PyStr.is_space a) eqn:E; [exact IH|]. simpl. now rewrite E.
Qed.

Lemma lstrip_space_fixed (s : string) :
  starts_clean s = true -> PyStr.lstrip_space s = s.
Proof.
  destruct s as [|a r]; [reflexivity|]. simpl.
  now destruct (PyStr.is_space a).
Qed.

Lemma rstrip_space_clean (s : string) :
  starts_clean s = true -> starts_clean (PyStr.rstrip_space s) = true.
Proof.
  destruct s as [|a r]; [reflexivity|]. simpl.
  destruct (PyStr.is_space a) eqn:Ea; [discriminate|]. intros _.
  destruct (PyStr.rstrip_space r); simpl; now rewrite Ea.
Qed.

(** [strip] is idempotent. *)
Lemma strip_idem (s : string) : PyStr.strip (PyStr.strip s) = PyStr.strip s.
Proof.
  unfold PyStr.strip.
  rewrite (lstrip_space_fixed (PyStr.rstrip_space (PyStr.lstrip_space s))).
  - apply rstrip_space_idem.
  - apply rstrip_space_clean, lstrip_space_clean.
Qed.

(** X5.  [_get_base_url_from_spec] returns a URL only for a document that
    lists exactly one server: the URL is the [url] of that server without
    the blanks around it, and it is not empty. *)
Theorem base_url_needs_one_server (spec : value) (u : string) :
  Parser._get_base_url_from_spec spec = Ok u ->
  u <> "" /\ PyStr.strip u = u
  /\ exists d s raw,
       spec = VDict d
       /\ dict_get "servers" d = Some (VList [VDict s])
       /\ dict_get "url" s = Some (VStr raw)
       /\ u = PyStr.strip raw.
Proof.
  unfold Parser._get_base_url_from_spec, get_or.
  destruct spec as [| | | | |d| | | | | | | | |]; try discriminate.
  destruct (dict_get "servers" d) as [servers|] eqn:Hservers; [|discriminate].
  unfold mbind, res_bind.
  destruct servers as [| | |t|l|sd| | | | | | | | |]; try discriminate.
  - (* a text *)
    destruct t as [|a [|b t]]; try discriminate.
  - (* a list *)
    destruct l as [|first [|second l]]; try discriminate.
    simpl.
    destruct first as [| | | | |s| | | | | | | | |]; try discriminate.
    destruct (dict_get "url" s) as [url|] eqn:Hurl.
    + destruct url as [| | |raw| | | | | | | | | | |]; try discriminate.
      destruct (String.eqb_spec (PyStr.strip raw) "") as [E|E]; [discriminate|].
      intros [= <-]. split; [exact E|]. split; [apply strip_idem|].
      exists d, s, raw. auto.
    + discriminate.
  - (* a dict *)
    destruct sd as [|x [|y sd]]; discriminate.
Qed.

Definition one_server : value :=
  VDict [("servers", VList [VDict [("url", VStr " https://api.example.com/v1 ")]])].

Lemma base_url_needs_one_server_witness :
  "https://api.example.com/v1" <> ""
  /\ PyStr.strip "https://api.example.com/v1" = "https://api.example.com/v1"
  /\ exists d s raw,
       one_server = VDict d
       /\ dict_get "servers" d = Some (VList [VDict s])
       /\ dict_get "url" s = Some (VStr raw)
       /\ "https://api.example.com/v1" = PyStr.strip raw.
Proof.
  apply (base_url_needs_one_server one_server "https://api.example.com/v1").
  reflexivity.
Defined.

(** The servers of a document that has no usable one, with the exception
    this gives: no server at all, or a single server whose [url] is absent
    or blank. *)
Inductive no_usable_server : list value -> exn -> Prop :=
| no_server : no_usable_server [] IndexError
| blank_url (s : list (string * value)) (raw : string) :
    default (VStr "") (dict_get "url" s) = VStr raw ->
    PyStr.strip raw = "" ->
    no_usable_server [VDict s]
      (APIParsingError "No base URL found in OpenAPI Spec. Found servers: "
         [VList [VDict s]]).

(** X6.  Without servers ([servers] absent or empty) the failure is the
    [IndexError] of [servers[0]]; the [APIParsingError] "No base URL found"
    is what a single server gives whose [url] is absent or blank. *)
Theorem base_url_failures (d : list (string * value)) (servers : list value)
    (e : exn) :
  default (VList []) (dict_get "servers" d) = VList servers ->
  no_usable_server servers e ->
  Parser._get_base_url_from_spec (VDict d) = Raise e.
Proof.
  intros Hservers Hno.
  assert (E : get_or (VDict d) "servers" (VList []) = Ok (VList servers)).
  { unfold get_or. destruct (dict_get "servers" d); cbn in Hservers;
      now rewrite Hservers. }
  unfold Parser._get_base_url_from_spec. rewrite E.
  destruct Hno as [|s raw Hraw Hblank]; [reflexivity|].
  unfold mbind, res_bind, len, getitem0, get_or. cbn [length Nat.ltb Nat.leb].
  replace (match dict_get "url" s with Some v => Ok v | None => Ok (VStr "") end)
    with (@Ok value (VStr raw))
    by (destruct (dict_get "url" s); cbn in Hraw; now rewrite Hraw).
  now rewrite Hblank.
Qed.

Lemma base_url_failures_witness :
  Parser._get_base_url_from_spec
    (VDict [("servers", VList [VDict [("url", VStr "  ")]])])
  = Raise (APIParsingError "No base URL found in OpenAPI Spec. Found servers: "
             [VList [VDict [("url", VStr "  ")]]]).
Proof.
  apply (base_url_failures [("servers", VList [VDict [("url", VStr "  ")]])]
           [VDict [("url", VStr "  ")]]).
  - reflexivity.
  - apply (blank_url [("url", VStr "  ")] "  "); reflexivity.
Defined.

(** A document without [servers]. *)
Lemma base_url_no_servers :
  Parser._get_base_url_from_spec (VDict [("paths", VDict [])]) = Raise IndexError.
Proof. reflexivity. Qed.

(** ** Dictionaries *)

Lemma dict_get_set_eq {V} (k : string) (v : V) (d : list (string * V)) :
  dict_get k (dict_set k v d) = Some v.
Proof.
  induction d as [|[k' v'] d IH]; simpl.
  - now rewrite String.eqb_refl.
  - destruct (String.eqb k k') eqn:E; simpl; [now rewrite String.eqb_refl|].
    now rewrite E.
Qed.

Lemma dict_get_set_ne {V} (k k' : string) (v : V) (d : list (string * V)) :
  k <> k' -> dict_get k' (dict_set k v d) = dict_get k' d.
Proof.
  intros Hne. induction d as [|[k0 v0] d IH]; simpl.
  - destruct (String.eqb_spec k' k); [congruence | reflexivity].
  - destruct (String.eqb_spec k k0) as [->|Hk]; simpl.
    + destruct (String.eqb_spec k' k0); [congruence | reflexivity].
    + destruct (String.eqb k' k0); [reflexivity | exact IH].
Qed.

Lemma dict_get_In {V} (k : string) (v : V) (d : list (string * V)) :
  dict_get k d = Some v -> In k (keys d).
Proof.
  induction d as [|[k' v'] d IH]; simpl; [discriminate|].
  destruct (String.eqb_spec k k') as [->|_]; [now left | right; auto].
Qed.

Lemma dict_get_remove_eq {V} (k : string) (d : list (string * V)) :
  List.NoDup (keys d) -> dict_get k (dict_remove k d) = None.
Proof.
  induction d as [|[k' v'] d IH]; simpl; [reflexivity|].
  intros Hnd. apply List.NoDup_cons_iff in Hnd as [Hnotin Hnd].
  destruct (String.eqb_spec k k') as [->|Hne].
  - destruct (dict_get k' d) eqn:E; [|reflexivity].
    exfalso. exact (Hnotin (dict_get_In _ _ _ E)).
  - simpl. destruct (String.eqb_spec k k'); [contradiction | auto].
Qed.

Lemma dict_get_remove_ne {V} (s k : string) (d : list (string * V)) :
  s <> k -> dict_get k (dict_remove s d) = dict_get k d.
Proof.
  intros Hne. induction d as [|[k' v] d IH]; simpl; [reflexivity|].
  destruct (String.eqb_spec s k') as [->|Hs]; simpl.
  - destruct (String.eqb_spec k k') as [->|_]; [contradiction | reflexivity].
  - destruct (String.eqb k k'); [reflexivity | exact IH].
Qed.

Lemma dict_mem_get {V} (k : string) (d : list (string * V)) :
  dict_mem k d = match dict_get k d with Some _ => true | None => false end.
Proof. reflexivity. Qed.

(** ** Generated models *)




(** ** The resolver without a module-level [spec] *)


(** The declarations [_create_model_from_fields] makes of properties that
    are converted already: required when named in [required]. *)
Definition declared (required : list value) (properties fields : list (string * value))
  : list (string * value) :=
  fold_left
    (fun acc kv =>
       dict_set (fst kv)
         (VField (snd kv)
            (if existsb (is_str (fst kv)) required then Ellipsis else DefaultNone))
         acc)
    properties fields.



(** ** Components that are arrays or primitives *)

Section ResolverFacts.
#[local] Existing Instances Parser.M_ret Parser.M_bind.

Definition missing_spec_argument : exn :=
  TypeError "_get_pydantic_type() missing 1 required positional argument: 'spec'".

Lemma contains_dict (k : string) (d : list (string * value)) :
  contains k (VDict d) = Ok (dict_mem k d).
Proof. reflexivity. Qed.

Lemma get_dict (k : string) (d : list (string * value)) :
  get (VDict d) k = Ok (default VNone (dict_get k d)).
Proof. unfold get, get_or. now destruct (dict_get k d). Qed.

(** The steps of [_create_component_model] before the definition is
    looked at. *)
Lemma create_component_model_unseen (spec_global : option value)
    (rec : value -> value -> Parser.M value) (name : string)
    (d : list (string * value)) (st : Parser.state) :
  name ∉ Parser.seen st ->
  dict_mem "anyOf" d = false -> dict_mem "oneOf" d = false ->
  dict_mem "allOf" d = false ->
  Parser._create_component_model spec_global rec name (VDict d) st
  = (let type_ := default VNone (dict_get "type" d) in
     let props := default VNone (dict_get "properties" d) in
     if is_str "object" type_ || truthy props then
       properties ← Parser.lift (get_or (VDict d) "properties" (VDict []));
       required ← Parser.lift (get_or (VDict d) "required" (VList []));
       Parser._create_model_from_fields spec_global rec name properties required
     else
       is_primitive ← Parser.lift (Parser.in_PRIMITIVE_TYPES type_);
       if is_primitive : bool then Parser.lift (Parser.PRIMITIVE_TYPES_at type_)
       else if is_str "array" type_ then
         _ ← Parser.lift (getitem (VDict d) "items");
         Parser.raise missing_spec_argument
       else if is_none type_ then mret VNone
       else Parser.raise (ValueError "Unsupported model definition: " [VDict d]))
      (Parser.State (Parser.result st) ({[name]} ∪ Parser.seen st)).
Proof.
  intros Hseen HanyOf HoneOf HallOf.
  unfold Parser._create_component_model.
  unfold mbind at 1. unfold Parser.M_bind at 1. unfold Parser.get_seen.
  destruct (decide (name ∈ Parser.seen st)); [contradiction|].
  unfold mbind at 1. unfold Parser.M_bind at 1. unfold Parser.seen_add at 1.
  rewrite !contains_dict, !get_dict, HanyOf, HoneOf, HallOf.
  reflexivity.
Qed.

(** X9.  A component declared as an array cannot be built:
    [_create_component_model] calls [_get_pydantic_type] without its
    argument [spec], so every array component raises [TypeError] once its
    [items] have been read ([KeyError] when it has none). *)
Theorem array_component_raises (spec_global : option value)
    (rec : value -> value -> Parser.M value) (name : string)
    (d : list (string * value)) (st : Parser.state) :
  name ∉ Parser.seen st ->
  dict_mem "anyOf" d = false -> dict_mem "oneOf" d = false ->
  dict_mem "allOf" d = false ->
  dict_get "type" d = Some (VStr "array") ->
  truthy (default VNone (dict_get "properties" d)) = false ->
  Parser._create_component_model spec_global rec name (VDict d) st
  = if dict_mem "items" d then Raise missing_spec_argument
    else Raise (KeyError (VStr "items")).
Proof.
  intros Hseen HanyOf HoneOf HallOf Htype Hprops.
  rewrite create_component_model_unseen by assumption. cbv zeta.
  rewrite Htype, Hprops. cbn [default from_option id is_str String.eqb orb].
  unfold mbind, Parser.M_bind, Parser.lift, getitem. cbn.
  unfold dict_mem. now destruct (dict_get "items" d).
Qed.

Definition tag_list : list (string * value) :=
  [("type", VStr "array"); ("items", VDict [("type", VStr "string")])].

Lemma array_component_raises_witness :
  Parser._create_component_model (Some (document [("Tags", VDict tag_list)]))
    (Parser._get_pydantic_type (Some (document [("Tags", VDict tag_list)])) 5)
    "Tags" (VDict tag_list) (Parser.State [] ∅)
  = if dict_mem "items" tag_list then Raise missing_spec_argument
    else Raise (KeyError (VStr "items")).
Proof.
  apply (array_component_raises (Some (document [("Tags", VDict tag_list)]))
           (Parser._get_pydantic_type (Some (document [("Tags", VDict tag_list)])) 5)
           "Tags" tag_list (Parser.State [] ∅));
    try reflexivity.
  simpl. set_solver.
Defined.

(** Extraction as a whole fails on a document with such a component. *)
Lemma array_component_extraction :
  Parser.extract_components (Some (document [("Tags", VDict tag_list)])) 5
    (document [("Tags", VDict tag_list)])
  = Raise missing_spec_argument.
Proof. vm_compute. reflexivity. Qed.

Lemma primitive_type_name (t : string) (ty : value) :
  dict_get t Parser.PRIMITIVE_TYPES = Some ty ->
  (t = "number" /\ ty = TFloat) \/ (t = "integer" /\ ty = TInt)
  \/ (t = "string" /\ ty = TStr) \/ (t = "boolean" /\ ty = TBool)
  \/ (t = "null" /\ ty = VNone).
Proof.
  unfold Parser.PRIMITIVE_TYPES. cbn [dict_get].
  destruct (String.eqb_spec t "number") as [->|_]; [intros [= <-]; tauto|].
  destruct (String.eqb_spec t "integer") as [->|_]; [intros [= <-]; tauto|].
  destruct (String.eqb_spec t "string") as [->|_]; [intros [= <-]; tauto|].
  destruct (String.eqb_spec t "boolean") as [->|_]; [intros [= <-]; tauto|].
  destruct (String.eqb_spec t "null") as [->|_]; [intros [= <-]; tauto|].
  discriminate.
Qed.

(** X10.  The two tables of primitive types agree.  A schema of type
    [integer], [number], [string], [boolean] or [null] that has no [$ref],
    no [anyOf], [oneOf] or [allOf] and no properties resolves inline, by the
    chain of comparisons in [_get_pydantic_type], to the entry of
    [PRIMITIVE_TYPES] that [_create_component_model] returns for it as a
    component.  Inline neither the cache nor the visitation set changes; as
    a component its name is added to the visitation set.  The document is
    not read and the resolver is not called. *)
Theorem primitive_schema_resolution (spec_global : option value) (n : nat)
    (rec : value -> value -> Parser.M value)
    (name : string) (d : list (string * value)) (t : string) (ty spec : value)
    (st : Parser.state) :
  dict_get "type" d = Some (VStr t) ->
  dict_get t Parser.PRIMITIVE_TYPES = Some ty ->
  dict_mem "$ref" d = false ->
  dict_mem "anyOf" d = false -> dict_mem "oneOf" d = false ->
  dict_mem "allOf" d = false ->
  truthy (default VNone (dict_get "properties" d)) = false ->
  name ∉ Parser.seen st ->
  Parser._get_pydantic_type spec_global (S n) (VDict d) spec st = Ok (ty, st)
  /\ Parser._create_component_model spec_global rec name (VDict d) st
     = Ok (ty, Parser.State (Parser.result st) ({[name]} ∪ Parser.seen st)).
Proof.
  intros Htype Hty Href HanyOf HoneOf HallOf Hprops Hseen. split.
  - rewrite get_pydantic_type_S. unfold Parser._get_pydantic_type_body.
    unfold mbind at 1. unfold Parser.M_bind at 1.
    rewrite contains_dict, Href. cbn [Parser.lift].
    rewrite !get_dict. unfold mbind, Parser.M_bind, Parser.lift. cbn beta iota.
    rewrite Htype, Hprops. cbn [default from_option id].
    destruct (primitive_type_name _ _ Hty)
      as [[-> ->]|[[-> ->]|[[-> ->]|[[-> ->]|[-> ->]]]]]; reflexivity.
  - rewrite create_component_model_unseen by assumption. cbv zeta.
    rewrite Htype, Hprops. cbn [default from_option id].
    destruct (primitive_type_name _ _ Hty)
      as [[-> ->]|[[-> ->]|[[-> ->]|[[-> ->]|[-> ->]]]]]; reflexivity.
Qed.

Lemma primitive_schema_resolution_witness :
  Parser._get_pydantic_type None 1 (VDict [("type", VStr "integer")]) VNone
    (Parser.State [] ∅)
  = Ok (TInt, Parser.State [] ∅)
  /\ Parser._create_component_model None no_resolver "Count"
       (VDict [("type", VStr "integer")]) (Parser.State [] ∅)
     = Ok (TInt, Parser.State (Parser.result (Parser.State [] ∅))
                   ({["Count"]} ∪ Parser.seen (Parser.State [] ∅))).
Proof.
  apply (primitive_schema_resolution None 0 no_resolver "Count"
           [("type", VStr "integer")] "integer" TInt VNone (Parser.State [] ∅));
    try reflexivity.
  simpl. set_solver.
Defined.

End ResolverFacts.

(** ** References in parser.py *)

Section References.
#[local] Existing Instances Parser.M_ret Parser.M_bind.

Lemma getitem_dict (k : string) (d : list (string * value)) (v : value) :
  dict_get k d = Some v -> getitem (VDict d) k = Ok v.
Proof. intros H. unfold getitem. now rewrite H. Qed.

(** One level of [_get_pydantic_type] on a reference. *)
Lemma get_pydantic_type_reference (spec_global : option value)
    (rec : value -> value -> Parser.M value) (s : list (string * value))
    (ref : string) (spec : value) (st : Parser.state) :
  dict_get "$ref" s = Some (VStr ref) ->
  Parser._get_pydantic_type_body spec_global rec (VDict s) spec st
  = let ref_path := PyStr.split_char "/" ref in
    let name := List.last ref_path "" in
    match dict_get name (Parser.result st) with
    | Some model => Ok (model, st)
    | None =>
        match Parser.follow_path spec (List.tl ref_path) with
        | Ok ref_model_def =>
            (type_ ← Parser.lift (get ref_model_def "type");
             is_primitive ← Parser.lift (Parser.in_PRIMITIVE_TYPES type_);
             if is_primitive : bool then Parser.lift (Parser.PRIMITIVE_TYPES_at type_)
             else if decide (name ∈ Parser.seen st) then mret (VStr name)
             else
               model ← Parser._create_component_model spec_global rec name
                         ref_model_def;
               _ ← Parser.result_set name model;
               Parser.result_at name) st
        | Raise e => Raise e
        | OutOfFuel => OutOfFuel
        end
    end.
Proof.
  intros Href. unfold Parser._get_pydantic_type_body.
  unfold mbind at 1. unfold Parser.M_bind at 1.
  rewrite contains_dict, dict_mem_get, Href. cbn [Parser.lift].
  unfold mbind at 1. unfold Parser.M_bind at 1.
  rewrite (getitem_dict _ _ _ Href). cbn [Parser.lift].
  unfold mbind at 1. unfold Parser.M_bind at 1. cbn [Parser.lift split_slash].
  unfold mbind at 1. unfold Parser.M_bind at 1. unfold Parser.get_result at 1.
  cbv zeta. rewrite dict_mem_get.
  destruct (dict_get _ (Parser.result st)) as [model|] eqn:Ecache; cbn [negb].
  - unfold Parser.result_at, Parser.get_result.
    unfold mbind, Parser.M_bind. now rewrite Ecache.
  - unfold mbind at 1. unfold Parser.M_bind at 1.
    destruct (Parser.follow_path spec _) as [def| |]; cbn [Parser.lift]; try reflexivity.
    unfold mbind, Parser.M_bind.
    destruct (Parser.lift (get def "type") st) as [[type_ st1]| |] eqn:E1;
      try reflexivity.
    assert (st1 = st) as ->.
    { unfold Parser.lift in E1. destruct (get def "type"); congruence. }
    destruct (Parser.lift (Parser.in_PRIMITIVE_TYPES type_) st)
      as [[is_primitive st2]| |] eqn:E2; try reflexivity.
    assert (st2 = st) as ->.
    { unfold Parser.lift in E2. destruct (Parser.in_PRIMITIVE_TYPES type_); congruence. }
    destruct is_primitive; [reflexivity|].
    unfold Parser.get_result at 1. rewrite Ecache.
    unfold Parser.get_seen at 1. reflexivity.
Qed.

Lemma lift_Ok {A} (r : res A) (st st' : Parser.state) (a : A) :
  Parser.lift r st = Ok (a, st') -> r = Ok a /\ st' = st.
Proof. unfold Parser.lift. destruct r; intros [=]; subst; auto. Qed.

Lemma in_PRIMITIVE_TYPES_true (type_ : value) :
  Parser.in_PRIMITIVE_TYPES type_ = Ok true ->
  exists t, type_ = VStr t /\ dict_mem t Parser.PRIMITIVE_TYPES = true.
Proof.
  unfold Parser.in_PRIMITIVE_TYPES.
  destruct type_; cbn [hashable]; try discriminate. intros [= H]. eauto.
Qed.

(** X11.  Whenever [_get_pydantic_type] returns for a reference, what it
    returns is the entry the cache then holds under the last segment of the
    reference, or the name itself when that name is being visited (the
    cycle sentinel; nothing is cached), or the primitive type of the
    definition referred to (nothing is cached either). *)
Theorem reference_resolution_outcomes (spec_global : option value) (fuel : nat)
    (s : list (string * value)) (ref : string) (spec v : value)
    (st st' : Parser.state) :
  dict_get "$ref" s = Some (VStr ref) ->
  Parser._get_pydantic_type spec_global fuel (VDict s) spec st = Ok (v, st') ->
  dict_get (List.last (PyStr.split_char "/" ref) "") (Parser.result st') = Some v
  \/ (st' = st
      /\ v = VStr (List.last (PyStr.split_char "/" ref) "")
      /\ List.last (PyStr.split_char "/" ref) "" ∈ Parser.seen st)
  \/ (st' = st
      /\ exists def t,
           Parser.follow_path spec (List.tl (PyStr.split_char "/" ref)) = Ok def
           /\ get def "type" = Ok (VStr t)
           /\ dict_get t Parser.PRIMITIVE_TYPES = Some v).
Proof.
  intros Href. destruct fuel as [|n]; [discriminate|].
  rewrite get_pydantic_type_S, (get_pydantic_type_reference _ _ _ _ _ _ Href).
  cbv zeta. set (name := List.last (PyStr.split_char "/" ref) "").
  destruct (dict_get name (Parser.result st)) as [model|] eqn:Ecache.
  { intros [= <- <-]. now left. }
  destruct (Parser.follow_path spec _) as [def| |] eqn:Epath; try discriminate.
  unfold mbind, Parser.M_bind.
  destruct (Parser.lift (get def "type") st) as [[type_ st1]| |] eqn:E1;
    try discriminate.
  apply lift_Ok in E1 as [E1 ->].
  destruct (Parser.lift (Parser.in_PRIMITIVE_TYPES type_) st)
    as [[is_primitive st2]| |] eqn:E2; try discriminate.
  apply lift_Ok in E2 as [E2 ->].
  destruct is_primitive.
  - intros E3. apply lift_Ok in E3 as [E3 ->].
    destruct (in_PRIMITIVE_TYPES_true _ E2) as (t & -> & Ht).
    right. right. split; [reflexivity|]. exists def, t.
    repeat split; try assumption.
    unfold Parser.PRIMITIVE_TYPES_at in E3. cbn [hashable] in E3.
    destruct (dict_get t Parser.PRIMITIVE_TYPES); [congruence | discriminate].
  - destruct (decide (name ∈ Parser.seen st)) as [Hin|Hnotin].
    + intros [= <- <-]. right. left. auto.
    + destruct (Parser._create_component_model _ _ name def st)
        as [[model st1]| |]; try discriminate.
      unfold Parser.result_set, Parser.result_at, Parser.get_result.
      unfold mbind, Parser.M_bind. cbn [Parser.result].
      rewrite (dict_get_set_eq name model (Parser.result st1)).
      intros [= <- <-]. left.
      cbn [Parser.result]. apply dict_get_set_eq.
Qed.

Lemma reference_resolution_outcomes_witness :
  dict_get (List.last (PyStr.split_char "/" "#/components/schemas/Category") "")
    (Parser.result (Parser.State [] ({["Category"]} ∪ ∅)))
  = Some (VStr "Category")
  \/ (Parser.State [] ({["Category"]} ∪ ∅) = Parser.State [] ({["Category"]} ∪ ∅)
      /\ VStr "Category"
         = VStr (List.last (PyStr.split_char "/" "#/components/schemas/Category") "")
      /\ List.last (PyStr.split_char "/" "#/components/schemas/Category") ""
           ∈ Parser.seen (Parser.State [] ({["Category"]} ∪ ∅)))
  \/ (Parser.State [] ({["Category"]} ∪ ∅) = Parser.State [] ({["Category"]} ∪ ∅)
      /\ exists def t,
           Parser.follow_path category_tree
             (List.tl (PyStr.split_char "/" "#/components/schemas/Category")) = Ok def
           /\ get def "type" = Ok (VStr t)
           /\ dict_get t Parser.PRIMITIVE_TYPES = Some (VStr "Category")).
Proof.
  apply (reference_resolution_outcomes (Some category_tree) 1
           [("$ref", VStr "#/components/schemas/Category")]
           "#/components/schemas/Category" category_tree (VStr "Category")
           (Parser.State [] ({["Category"]} ∪ ∅)) (Parser.State [] ({["Category"]} ∪ ∅)));
    [reflexivity|].
  with_strategy transparent [gmap_empty] (vm_compute; reflexivity).
Defined.

Lemma follow_path_missing (pre : list string) (p : string) (post : list string)
    (d : list (string * value)) :
  forall spec,
    Parser.follow_path spec pre = Ok (VDict d) ->
    dict_get p d = None ->
    Parser.follow_path spec (pre ++ p :: post) = Raise (KeyError (VStr p)).
Proof.
  induction pre as [|q pre IH]; intros spec.
  - intros [= ->] Hp. cbn. unfold mbind, res_bind, getitem. now rewrite Hp.
  - cbn [Parser.follow_path app]. unfold mbind, res_bind.
    destruct (getitem spec q) as [next| |]; try discriminate. apply IH.
Qed.

(** X12.  A reference into a part of the document that is not there
    raises the [KeyError] of the first segment of its path that is missing
    (parser.py follows the path with plain subscripts), unless the last
    segment is in the cache already. *)
Theorem dangling_reference_KeyError (spec_global : option value) (n : nat)
    (s : list (string * value)) (ref root : string) (pre : list string) (p : string)
    (post : list string) (spec : value) (d : list (string * value))
    (st : Parser.state) :
  dict_get "$ref" s = Some (VStr ref) ->
  PyStr.split_char "/" ref = root :: pre ++ p :: post ->
  dict_get (List.last (PyStr.split_char "/" ref) "") (Parser.result st) = None ->
  Parser.follow_path spec pre = Ok (VDict d) ->
  dict_get p d = None ->
  Parser._get_pydantic_type spec_global (S n) (VDict s) spec st
  = Raise (KeyError (VStr p)).
Proof.
  intros Href Hsplit Hcache Hpre Hp.
  rewrite get_pydantic_type_S, (get_pydantic_type_reference _ _ _ _ _ _ Href).
  cbv zeta. rewrite Hcache, Hsplit. cbn [List.tl].
  now rewrite (follow_path_missing pre p post d spec Hpre Hp).
Qed.

Definition pet_document : value :=
  document [("Pet", VDict [("type", VStr "object")])].

Lemma dangling_reference_KeyError_witness :
  Parser._get_pydantic_type (Some pet_document) 1
    (VDict [("$ref", VStr "#/components/schemas/Owner")]) pet_document
    (Parser.State [] ∅)
  = Raise (KeyError (VStr "Owner")).
Proof.
  apply (dangling_reference_KeyError (Some pet_document) 0
           [("$ref", VStr "#/components/schemas/Owner")]
           "#/components/schemas/Owner" "#" ["components"; "schemas"] "Owner" []
           pet_document [("Pet", VDict [("type", VStr "object")])]
           (Parser.State [] ∅));
    reflexivity.
Defined.

End References.

(** ** What resolution keeps of the cache and of the visitation set *)

Section Grows.
#[local] Existing Instances Parser.M_ret Parser.M_bind.

(** Every name that is visited stays visited and every name that is cached
    stays cached. *)
Definition grows (st st' : Parser.state) : Prop :=
  Parser.seen st ⊆ Parser.seen st'
  /\ forall k, dict_mem k (Parser.result st) = true ->
               dict_mem k (Parser.result st') = true.

Definition mono {A} (m : Parser.M A) : Prop :=
  forall st a st', m st = Ok (a, st') -> grows st st'.

Lemma grows_refl st : grows st st.
Proof. split; [set_solver | auto]. Qed.

Lemma grows_trans st1 st2 st3 : grows st1 st2 -> grows st2 st3 -> grows st1 st3.
Proof. intros [H1 H2] [H3 H4]. split; [set_solver | auto]. Qed.

Lemma mono_ret {A} (a : A) : mono (mret a : Parser.M A).
Proof. intros st b st' [= <- <-]. apply grows_refl. Qed.

Lemma mono_raise {A} (e : exn) : mono (Parser.raise e : Parser.M A).
Proof. intros st b st'. discriminate. Qed.

Lemma mono_lift {A} (r : res A) : mono (Parser.lift r).
Proof. intros st a st' H. apply lift_Ok in H as [_ ->]. apply grows_refl. Qed.

Lemma mono_bind {A B} (m : Parser.M A) (k : A -> Parser.M B) :
  mono m -> (forall a, mono (k a)) -> mono (m ≫= k).
Proof.
  intros Hm Hk st b st'. unfold mbind, Parser.M_bind.
  destruct (m st) as [[a st1]| |] eqn:E; try discriminate.
  intros H. exact (grows_trans _ _ _ (Hm _ _ _ E) (Hk _ _ _ _ H)).
Qed.

Lemma mono_get_result : mono Parser.get_result.
Proof. intros st a st' [= <- <-]. apply grows_refl. Qed.

Lemma mono_get_seen : mono Parser.get_seen.
Proof. intros st a st' [= <- <-]. apply grows_refl. Qed.

Lemma dict_mem_set {V} (k k' : string) (v : V) (d : list (string * V)) :
  dict_mem k' d = true -> dict_mem k' (dict_set k v d) = true.
Proof.
  unfold dict_mem. destruct (String.eqb_spec k k') as [->|Hne].
  - now rewrite dict_get_set_eq.
  - now rewrite dict_get_set_ne.
Qed.

Lemma dict_mem_set_eq {V} (k : string) (v : V) (d : list (string * V)) :
  dict_mem k (dict_set k v d) = true.
Proof. unfold dict_mem. now rewrite dict_get_set_eq. Qed.

Lemma mono_result_set (name : string) (v : value) : mono (Parser.result_set name v).
Proof.
  intros st a st' [= <- <-]. split; [set_solver|].
  intros k. apply dict_mem_set.
Qed.

Lemma mono_seen_add (name : string) : mono (Parser.seen_add name).
Proof. intros st a st' [= <- <-]. split; [set_solver | auto]. Qed.

Lemma mono_result_at (name : string) : mono (Parser.result_at name).
Proof.
  unfold Parser.result_at. apply mono_bind; [apply mono_get_result|].
  intros cache. destruct (dict_get name cache); [apply mono_ret | apply mono_raise].
Qed.

(** A callee that starts from its own set still writes to the shared
    cache. *)
Lemma mono_fresh_seen {A} (m : Parser.M A) : mono m -> mono (Parser.fresh_seen m).
Proof.
  intros Hm st a st'. unfold Parser.fresh_seen.
  destruct (m _) as [[b st1]| |] eqn:E; try discriminate.
  intros [= <- <-]. destruct (Hm _ _ _ E) as [_ H]. split; [set_solver | exact H].
Qed.

Ltac mono_step :=
  first
    [ apply mono_ret | apply mono_raise | apply mono_lift
    | apply mono_get_result | apply mono_get_seen
    | apply mono_result_set | apply mono_seen_add | apply mono_result_at
    | assumption
    | apply mono_bind; [|intros ?]
    | match goal with
      | |- mono (if ?b then _ else _) => destruct b
      | |- mono (match ?x with _ => _ end) => destruct x
      | |- mono (let '(_, _) := ?x in _) => destruct x
      end ].

Section OneLevel.
Variable spec_global : option value.
Variable rec : value -> value -> Parser.M value.
Hypothesis rec_mono : forall schema spec, mono (rec schema spec).

Lemma mono_read_spec : mono (Parser.read_spec spec_global).
Proof. unfold Parser.read_spec. destruct spec_global; [apply mono_ret | apply mono_raise]. Qed.

Lemma mono_fields_loop (props : list (string * value)) (required : value) :
  forall fields, mono (Parser.fields_loop spec_global rec props required fields).
Proof.
  induction props as [|[prop_name prop_def] rest IH]; intros fields;
    cbn [Parser.fields_loop]; [apply mono_ret|].
  apply mono_bind.
  - destruct prop_def; try apply mono_ret.
    apply mono_bind; [apply mono_read_spec | intros spec; apply rec_mono].
  - intros prop_type. apply mono_bind; [apply mono_lift|]. intros b. apply IH.
Qed.

Lemma mono_create_model_from_fields (name : string) (properties required : value) :
  mono (Parser._create_model_from_fields spec_global rec name properties required).
Proof.
  unfold Parser._create_model_from_fields.
  apply mono_bind; [apply mono_lift|]. intros props.
  apply mono_bind; [apply mono_fields_loop|]. intros fields. apply mono_ret.
Qed.

Lemma mono_types_of (the_spec : Parser.M value) (branches : list value) :
  mono the_spec -> mono (Parser.types_of rec the_spec branches).
Proof.
  intros Hs. induction branches as [|s rest IH]; cbn [Parser.types_of];
    [apply mono_ret|].
  apply mono_bind; [exact Hs|]. intros spec.
  apply mono_bind; [apply rec_mono|]. intros t.
  apply mono_bind; [exact IH|]. intros ts. apply mono_ret.
Qed.

Lemma mono_component_allOf_loop (branches : list value) :
  forall all_properties all_required,
    mono (Parser.component_allOf_loop spec_global rec branches all_properties
            all_required).
Proof.
  induction branches as [|s rest IH]; intros all_properties all_required;
    cbn [Parser.component_allOf_loop]; [apply mono_ret|].
  pose proof mono_read_spec.
  repeat first [apply IH | apply rec_mono | mono_step].
Qed.

Lemma mono_create_component_model (name : string) (model_def : value) :
  mono (Parser._create_component_model spec_global rec name model_def).
Proof.
  unfold Parser._create_component_model.
  pose proof mono_read_spec.
  repeat first
    [ apply mono_create_model_from_fields | apply mono_component_allOf_loop
    | apply mono_types_of | apply rec_mono | mono_step ].
Qed.

Lemma mono_allOf_loop (spec : value) (branches : list value) :
  forall all_properties all_required prim_types,
    mono (Parser.allOf_loop rec spec branches all_properties all_required prim_types).
Proof.
  induction branches as [|s rest IH]; intros all_properties all_required prim_types;
    cbn [Parser.allOf_loop]; [apply mono_ret|].
  repeat first
    [ apply IH | apply mono_fresh_seen, rec_mono | mono_step ].
Qed.

Lemma mono_get_pydantic_type_body (schema spec : value) :
  mono (Parser._get_pydantic_type_body spec_global rec schema spec).
Proof.
  unfold Parser._get_pydantic_type_body.
  repeat first
    [ apply mono_create_component_model | apply mono_allOf_loop
    | apply mono_types_of | apply rec_mono | mono_step ].
Qed.

End OneLevel.

Lemma mono_get_pydantic_type (spec_global : option value) (fuel : nat) :
  forall schema spec, mono (Parser._get_pydantic_type spec_global fuel schema spec).
Proof.
  induction fuel as [|n IH]; intros schema spec.
  - intros st a st'. discriminate.
  - rewrite get_pydantic_type_S. now apply mono_get_pydantic_type_body.
Qed.

(** X13.  Resolution only adds to the two objects it shares with its
    callers: when [_get_pydantic_type] returns, every name that was in the
    visitation set is still in it and every name that was cached is still
    cached. *)
Theorem resolution_grows (spec_global : option value) (fuel : nat)
    (schema spec v : value) (st st' : Parser.state) :
  Parser._get_pydantic_type spec_global fuel schema spec st = Ok (v, st') ->
  Parser.seen st ⊆ Parser.seen st'
  /\ forall k, dict_mem k (Parser.result st) = true ->
               dict_mem k (Parser.result st') = true.
Proof. apply mono_get_pydantic_type. Qed.

Lemma extract_loop_covers (spec_global : option value)
    (rec : value -> value -> Parser.M value) (schemas : list (string * value)) :
  (forall schema spec, mono (rec schema spec)) ->
  forall st u st',
    Parser.extract_loop spec_global rec schemas st = Ok (u, st') ->
    grows st st'
    /\ forall name, In name (keys schemas) ->
                    dict_mem name (Parser.result st') = true.
Proof.
  intros Hrec. induction schemas as [|[model_name model_def] rest IH];
    intros st u st'; cbn [Parser.extract_loop].
  - intros [= <- <-]. split; [apply grows_refl | intros name []].
  - unfold mbind, Parser.M_bind.
    destruct (Parser.fresh_seen _ st) as [[model st1]| |] eqn:E1; try discriminate.
    pose proof (mono_fresh_seen _
                  (mono_create_component_model spec_global rec Hrec model_name
                     model_def) _ _ _ E1) as G1.
    cbn [Parser.result_set].
    set (st2 := Parser.State (dict_set model_name model (Parser.result st1))
                  (Parser.seen st1)).
    intros H. destruct (IH _ _ _ H) as [G2 Hcov].
    assert (G12 : grows st1 st2) by (apply (mono_result_set model_name model st1 tt); reflexivity).
    split; [eauto using grows_trans|].
    intros name [<-|Hin]; [|auto].
    destruct G2 as [_ G2]. apply G2. unfold st2. cbn [Parser.result].
    apply dict_mem_set_eq.
Qed.

(** X14.  When [extract_components] returns, its result has an entry for
    every schema of [components.schemas]; a document without component
    schemas gives the empty result. *)
Theorem extract_components_covers (spec_global : option value) (fuel : nat)
    (spec : value) (result : list (string * value)) :
  Parser.extract_components spec_global fuel spec = Ok result ->
  exists components schemas,
    get_or spec "components" (VDict []) = Ok components
    /\ get_or components "schemas" (VDict []) = Ok (VDict schemas)
    /\ (forall name, In name (keys schemas) -> dict_mem name result = true)
    /\ (schemas = [] -> result = []).
Proof.
  unfold Parser.extract_components. unfold mbind, res_bind.
  destruct (get_or spec "components" (VDict [])) as [components| |] eqn:Ec;
    try discriminate.
  destruct (get_or components "schemas" (VDict [])) as [sch| |] eqn:Es;
    try discriminate.
  destruct (items sch) as [schemas| |] eqn:Eitems; try discriminate.
  assert (sch = VDict schemas) as ->.
  { destruct sch; try discriminate. now injection Eitems as ->. }
  destruct (Parser.extract_loop _ _ schemas _) as [[u st']| |] eqn:E; try discriminate.
  intros [= <-]. exists components, schemas.
  split; [reflexivity|]. split; [exact Es|]. split.
  - intros name Hin.
    exact (proj2 (extract_loop_covers _ _ _ (mono_get_pydantic_type spec_global fuel)
                    _ _ _ E) name Hin).
  - intros ->. cbn in E. now injection E as <- <-.
Qed.

Lemma resolution_grows_witness :
  Parser.seen (Parser.State [] ∅)
    ⊆ Parser.seen (Parser.State [("Pet", TModel "Pet" [])] ({["Pet"]} ∪ ∅))
  /\ forall k, dict_mem k (Parser.result (Parser.State [] ∅)) = true ->
               dict_mem k
                 (Parser.result
                    (Parser.State [("Pet", TModel "Pet" [])] ({["Pet"]} ∪ ∅))) = true.
Proof.
  apply (resolution_grows (Some pet_document) 1
           (VDict [("$ref", VStr "#/components/schemas/Pet")]) pet_document
           (TModel "Pet" []) (Parser.State [] ∅)
           (Parser.State [("Pet", TModel "Pet" [])] ({["Pet"]} ∪ ∅))).
  with_strategy transparent [gmap_empty] (vm_compute; reflexivity).
Defined.

Lemma extract_components_covers_witness :
  exists components schemas,
    get_or category_tree "components" (VDict []) = Ok components
    /\ get_or components "schemas" (VDict []) = Ok (VDict schemas)
    /\ (forall name, In name (keys schemas) ->
        dict_mem name
          [("Category",
            TModel "Category"
              [("children", VField (TList (VStr "Category")) DefaultNone)])] = true)
    /\ (schemas = [] ->
        [("Category",
          TModel "Category"
            [("children", VField (TList (VStr "Category")) DefaultNone)])] = []).
Proof.
  apply (extract_components_covers (Some category_tree) 3 category_tree).
  with_strategy transparent [gmap_empty] (vm_compute; reflexivity).
Defined.

End Grows.

(** ** Parameters *)

(** X15.  A parameter whose schema is a reference is looked up in the
    parameter object itself ([ref_name not in parameter]), not among the
    parameters: unless the parameter object happens to have a key called
    like the last segment of the reference, the reference is reported as
    unresolved, whatever [parameters] holds. *)
Theorem parameter_reference_unresolvable (name : string)
    (p s : list (string * value)) (ref : string) (param_name in_ : value)
    (loc : location) (parameters : list (string * value)) :
  dict_get "name" p = Some param_name ->
  dict_get "in" p = Some in_ ->
  Parser.APIPropertyLocation_of in_ = Ok loc ->
  dict_get "schema" p = Some (VDict s) ->
  dict_mem "type" s = false ->
  dict_get "$ref" s = Some (VStr ref) ->
  dict_mem (List.last (PyStr.split_char "/" ref) "") p = false ->
  Parser._create_pydantic_model_from_parameter name (VDict p) parameters
  = Raise (APIParsingError
             ("Could not resolve reference '"
              ++ List.last (PyStr.split_char "/" ref) "" ++ "'")
             [VList (map VStr (PyStr.sorted (keys parameters)))]).
Proof.
  intros Hname Hin Hloc Hschema Htype Href Hkey.
  unfold Parser._create_pydantic_model_from_parameter.
  unfold get_or at 1. unfold mbind, res_bind.
  assert (E : forall A (k : value -> res A),
             match (match dict_get "required" p with
                    | Some v => Ok v
                    | None => Ok (VBool false)
                    end) with
             | Ok a => k a
             | Raise e => Raise e
             | OutOfFuel => OutOfFuel
             end = k (default (VBool false) (dict_get "required" p))).
  { intros A k. now destruct (dict_get "required" p). }
  rewrite E. clear E.
  rewrite (getitem_dict _ _ _ Hname), (getitem_dict _ _ _ Hin), Hloc,
    (getitem_dict _ _ _ Hschema).
  rewrite !contains_dict, Htype, (getitem_dict _ _ _ Href).
  rewrite dict_mem_get, Href. cbn [split_slash]. cbv zeta.
  now rewrite contains_dict, Hkey.
Qed.

Definition limit_parameter : list (string * value) :=
  [("name", VStr "limit"); ("in", VStr "query");
   ("schema", VDict [("$ref", VStr "#/components/parameters/Limit")])].

Lemma parameter_reference_unresolvable_witness :
  Parser._create_pydantic_model_from_parameter "limit" (VDict limit_parameter)
    [("Limit", VAPIProperty (VStr "Limit") (VStr "limit") (VBool false) TInt VNone QUERY)]
  = Raise (APIParsingError
             ("Could not resolve reference '"
              ++ List.last (PyStr.split_char "/" "#/components/parameters/Limit") ""
              ++ "'")
             [VList (map VStr (PyStr.sorted (keys
                [("Limit", VAPIProperty (VStr "Limit") (VStr "limit") (VBool false)
                             TInt VNone QUERY)])))]).
Proof.
  apply (parameter_reference_unresolvable "limit" limit_parameter
           [("$ref", VStr "#/components/parameters/Limit")]
           "#/components/parameters/Limit" (VStr "limit") (VStr "query") QUERY);
    reflexivity.
Defined.

(** What [_create_pydantic_model_from_parameter] does to [parameters]: it
    sets the entry [name] to an [APIProperty]. *)
Lemma create_parameter_sets (name : string) (parameter : value)
    (parameters parameters' : list (string * value)) :
  Parser._create_pydantic_model_from_parameter name parameter parameters
  = Ok parameters' ->
  exists property, parameters' = dict_set name property parameters
                   /\ property <> VNone.
Proof.
  unfold Parser._create_pydantic_model_from_parameter. unfold mbind, res_bind.
  repeat match goal with
         | |- match ?x with _ => _ end = _ -> _ =>
             destruct x; try discriminate
         | |- (if ?b then _ else _) = _ -> _ => destruct b; try discriminate
         end;
    intros [= <-]; eexists; (split; [reflexivity | discriminate]).
Qed.

Lemma insert_sorted_In (x y : string) (l : list string) :
  In x (PyStr.insert_sorted y l) <-> x = y \/ In x l.
Proof.
  induction l as [|z l IH]; simpl; [intuition|].
  destruct (String.leb y z); simpl; [intuition|]. rewrite IH. intuition.
Qed.

(** [sorted] returns the names it was given. *)
Lemma sorted_In (x : string) (l : list string) : In x (PyStr.sorted l) <-> In x l.
Proof.
  induction l as [|y l IH]; simpl; [reflexivity|].
  rewrite insert_sorted_In, IH. intuition.
Qed.

Lemma parse_parameters_loop_entries (names : list string) (spec_parameters : value) :
  forall parameters parameters',
    Parser.parse_parameters_loop names spec_parameters parameters = Ok parameters' ->
    (forall k v, dict_get k parameters = Some v -> v <> VNone ->
                 dict_get k parameters' = Some v)
    /\ (forall k, In k names ->
                  exists v, dict_get k parameters' = Some v /\ v <> VNone).
Proof.
  induction names as [|name rest IH]; intros parameters parameters';
    cbn [Parser.parse_parameters_loop].
  - intros [= <-]. split; [auto | intros k []].
  - unfold mbind, res_bind.
    destruct (getitem spec_parameters name) as [param| |]; try discriminate.
    assert (Hstep : forall ps1,
              match dict_get name parameters with
              | None | Some VNone =>
                  Parser._create_pydantic_model_from_parameter name param parameters
              | Some _ => Ok parameters
              end = Ok ps1 ->
              (forall k v, dict_get k parameters = Some v -> v <> VNone ->
                           dict_get k ps1 = Some v)
              /\ exists v, dict_get name ps1 = Some v /\ v <> VNone).
    { intros ps1 H.
      assert (Hcreate :
                (dict_get name parameters = None
                 \/ dict_get name parameters = Some VNone) ->
                Parser._create_pydantic_model_from_parameter name param parameters
                = Ok ps1 ->
                (forall k v, dict_get k parameters = Some v -> v <> VNone ->
                             dict_get k ps1 = Some v)
                /\ exists v, dict_get name ps1 = Some v /\ v <> VNone).
      { intros Hold Hc. destruct (create_parameter_sets _ _ _ _ Hc) as (pr & -> & Hpr).
        split.
        - intros k v Hk Hv. rewrite dict_get_set_ne; [exact Hk|].
          intros <-. destruct Hold as [Hold|Hold]; rewrite Hold in Hk; congruence.
        - exists pr. split; [apply dict_get_set_eq | exact Hpr]. }
      destruct (dict_get name parameters) as [old|] eqn:Eold; [|now apply Hcreate; auto].
      destruct old;
        try (injection H as <-; split; [auto | eexists; split; [exact Eold | discriminate]]).
      apply Hcreate; auto. }
    destruct (match dict_get name parameters with
              | None | Some VNone => _
              | Some _ => _
              end) as [ps1| |] eqn:E1; try discriminate.
    destruct (Hstep _ eq_refl) as [Hkeep (v1 & Hv1 & Hn1)].
    intros H. destruct (IH _ _ H) as [Hkeep' Hcov]. split.
    + intros k v Hk Hv. apply Hkeep'; auto.
    + intros k [<-|Hin]; [|auto]. exists v1. split; [apply Hkeep'; auto | exact Hn1].
Qed.

(** X16.  When [_parse_spec_parameters] returns, [parameters] has an
    entry other than [None] for every parameter of the document, and every
    entry other than [None] that it had before is as it was: a parameter
    that is called like a component already in [parameters] is not parsed. *)
Theorem parse_spec_parameters_entries (spec_parameters : value)
    (parameters parameters' : list (string * value)) :
  Parser._parse_spec_parameters spec_parameters parameters = Ok parameters' ->
  (forall k v, dict_get k parameters = Some v -> v <> VNone ->
               dict_get k parameters' = Some v)
  /\ exists d,
       spec_parameters = VDict d
       /\ forall k, In k (keys d) ->
                    exists v, dict_get k parameters' = Some v /\ v <> VNone.
Proof.
  unfold Parser._parse_spec_parameters. unfold mbind, res_bind.
  destruct spec_parameters; try discriminate. cbn [keys_of].
  intros H. destruct (parse_parameters_loop_entries _ _ _ _ H) as [Hkeep Hcov].
  split; [exact Hkeep|]. eexists. split; [reflexivity|].
  intros k Hin. apply Hcov. now apply sorted_In.
Qed.

Definition pet_parameters : value :=
  VDict [("Pet", VDict [("name", VStr "pet"); ("in", VStr "query");
                        ("schema", VDict [("type", VStr "string")])]);
         ("limit", VDict [("name", VStr "limit"); ("in", VStr "query");
                          ("schema", VDict [("type", VStr "integer")])])].

Definition pet_components : list (string * value) := [("Pet", TModel "Pet" [])].

Definition pet_components_after : list (string * value) :=
  [("Pet", TModel "Pet" []);
   ("limit", VAPIProperty (VStr "limit") (VStr "limit") (VBool false) TInt VNone QUERY)].

Lemma parse_spec_parameters_entries_witness :
  (forall k v, dict_get k pet_components = Some v -> v <> VNone ->
               dict_get k pet_components_after = Some v)
  /\ exists d,
       pet_parameters = VDict d
       /\ forall k, In k (keys d) ->
                    exists v, dict_get k pet_components_after = Some v /\ v <> VNone.
Proof.
  apply (parse_spec_parameters_entries pet_parameters pet_components
           pet_components_after).
  reflexivity.
Defined.

(** ** The properties of an operation *)

(** The property made of the parameter at one position. *)
Definition property_at (components : list (string * value)) (param property : value)
  : Prop :=
  match param with
  | VDict d =>
      match dict_get "$ref" d with
      | Some ref =>
          exists r, ref = VStr r
                    /\ dict_get (List.last (PyStr.split_char "/" r) "") components
                       = Some property
      | None =>
          exists name required type_ default loc,
            property = VAPIProperty name name required type_ default loc
            /\ dict_get "name" d = Some name
      end
  | _ => False
  end.

(** The body of the loop of [_extract_api_properties]. *)
Definition api_property_of (param : value) (components : list (string * value))
  : res value :=
  has_ref ← contains "$ref" param;
  if has_ref : bool then
    ref ← getitem param "$ref";
    ref_path ← split_slash ref;
    let param_name := List.last ref_path "" in
    if negb (dict_mem param_name components) then
      Raise (APIParsingError
               ("Could not resolve reference '" ++ param_name ++ "'")
               [VList (map VStr (PyStr.sorted (keys components)))])
    else Parser.dict_at components param_name
  else
    schema ← getitem param "schema";
    t ← getitem schema "type";
    type_ ← Parser.PRIMITIVE_TYPES_at t;
    friendly_name ← getitem param "name";
    name ← getitem param "name";
    required ← get_or param "required" (VBool false);
    default ← get schema "default";
    in_ ← getitem param "in";
    location ← Parser.APIPropertyLocation_of in_;
    Ok (VAPIProperty friendly_name name required type_ default location).

Lemma api_properties_loop_cons (param : value) (rest : list value)
    (components : list (string * value)) (acc : list value) :
  Parser.api_properties_loop (param :: rest) components acc
  = match api_property_of param components with
    | Ok property_ => Parser.api_properties_loop rest components (acc ++ [property_])
    | Raise e => Raise e
    | OutOfFuel => OutOfFuel
    end.
Proof.
  unfold api_property_of. cbn [Parser.api_properties_loop].
  unfold mbind, res_bind. destruct (contains "$ref" param); reflexivity.
Qed.

Lemma api_properties_step (param : value) (components : list (string * value))
    (property : value) :
  api_property_of param components = Ok property ->
  property_at components param property.
Proof.
  unfold api_property_of. unfold mbind, res_bind.
  destruct param as [| | |t|l|d| | | | | | | | |]; try discriminate.
  - (* a text: its subscripts are integers *)
    cbn [contains]. destruct (PyStr.is_substring "$ref" t); discriminate.
  - cbn [contains]. destruct (existsb (is_str "$ref") l); discriminate.
  - rewrite contains_dict, dict_mem_get. cbn [property_at].
    destruct (dict_get "$ref" d) as [ref|] eqn:Href.
    + rewrite (getitem_dict _ _ _ Href).
      destruct ref; try discriminate. cbn [split_slash]. cbv zeta.
      destruct (negb _); [discriminate|].
      unfold Parser.dict_at.
      destruct (dict_get _ components) as [v|] eqn:E; [|discriminate].
      intros [= <-]. eauto.
    + destruct (getitem (VDict d) "schema") as [schema| |]; try discriminate.
      destruct (getitem schema "type") as [t| |]; try discriminate.
      destruct (Parser.PRIMITIVE_TYPES_at t) as [type_| |]; try discriminate.
      unfold getitem at 1 2.
      destruct (dict_get "name" d) as [name|] eqn:Hname; [|discriminate].
      destruct (get_or (VDict d) "required" (VBool false)) as [required| |];
        try discriminate.
      destruct (get schema "default") as [default| |]; try discriminate.
      destruct (getitem (VDict d) "in") as [in_| |]; try discriminate.
      destruct (Parser.APIPropertyLocation_of in_) as [loc| |]; try discriminate.
      intros [= <-]. exists name, required, type_, default, loc. auto.
Qed.

Lemma api_properties_loop_positions (params : list value)
    (components : list (string * value)) :
  forall acc properties,
    Parser.api_properties_loop params components acc = Ok properties ->
    exists made,
      properties = acc ++ made
      /\ Forall2 (property_at components) params made.
Proof.
  induction params as [|param rest IH]; intros acc properties.
  - intros [= <-]. exists []. split; [now rewrite app_nil_r | constructor].
  - rewrite api_properties_loop_cons.
    destruct (api_property_of param components) as [property| |] eqn:Estep;
      try discriminate.
    intros H. destruct (IH _ _ H) as (made & -> & Hmade).
    exists (property :: made). split; [now rewrite <- app_assoc|].
    constructor; [|exact Hmade].
    apply api_properties_step. exact Estep.
Qed.

(** X17.  [_extract_api_properties] returns one property for each
    parameter of the operation, in their order.  For a parameter given by
    reference it is whatever [components] holds under the last segment of
    the reference (a generated model as well as an [APIProperty]); for a
    parameter given inline it is an [APIProperty] whose friendly name is
    the name of the parameter. *)
Theorem extract_api_properties_positions (operation : value)
    (components : list (string * value)) (properties : list value) :
  Parser._extract_api_properties operation components = Ok properties ->
  exists params,
    (ps ← get_or operation "parameters" (VList []); iter ps) = Ok params
    /\ Forall2 (property_at components) params properties.
Proof.
  unfold Parser._extract_api_properties. unfold mbind, res_bind.
  destruct (get_or operation "parameters" (VList [])) as [ps| |]; try discriminate.
  destruct (iter ps) as [params| |]; try discriminate.
  intros H. destruct (api_properties_loop_positions _ _ _ _ H) as (made & -> & Hmade).
  exists params. auto.
Qed.

Definition list_pets : value :=
  VDict [("operationId", VStr "pets.list");
         ("parameters",
          VList [VDict [("$ref", VStr "#/components/schemas/Pet")];
                 VDict [("name", VStr "limit"); ("in", VStr "query");
                        ("schema", VDict [("type", VStr "integer")])]])].

Lemma extract_api_properties_positions_witness :
  exists params,
    (ps ← get_or list_pets "parameters" (VList []); iter ps) = Ok params
    /\ Forall2 (property_at pet_components) params
         [TModel "Pet" [];
          VAPIProperty (VStr "limit") (VStr "limit") (VBool false) TInt VNone QUERY].
Proof.
  apply (extract_api_properties_positions list_pets pet_components).
  reflexivity.
Defined.

(** ** What [parse_path] returns *)






(** ** Path parameters *)

(** The path made of literal parts, each followed by a parameter in
    braces, and of a closing literal part. *)
Fixpoint template (parts : list (string * string)) (tail : string) : string :=
  match parts with
  | [] => tail
  | (literal, name) :: rest =>
      (literal ++ String "{" (name ++ String "}" (template rest tail)))%string
  end.

(** A literal part holds no opening brace. *)
Definition is_literal (s : string) : bool :=
  all_chars (fun c => negb (Ascii.eqb c "{")) s.

(** The name of a parameter holds no closing brace and no newline. *)
Definition is_name (s : string) : bool :=
  all_chars (fun c => negb (Ascii.eqb c "}") && negb (Ascii.eqb c "010")) s.

Lemma until_brace_name (name rest : string) :
  is_name name = true ->
  TypedParser.until_brace (name ++ String "}" rest) = Some (name, rest).
Proof.
  unfold is_name. induction name as [|c name IH]; [reflexivity|].
  change (String c name ++ String "}" rest)%string
    with (String c (name ++ String "}" rest)).
  cbn [all_chars TypedParser.until_brace].
  intros H. apply andb_true_iff in H as [Hc Hname].
  apply andb_true_iff in Hc as [Hb Hn].
  destruct (Ascii.eqb c "}"); [discriminate|].
  destruct (Ascii.eqb c "010"); [discriminate|].
  now rewrite (IH Hname).
Qed.

Lemma until_brace_shorter (s name rest : string) :
  TypedParser.until_brace s = Some (name, rest) ->
  String.length rest < String.length s.
Proof.
  revert name. induction s as [|c s IH]; intros name; [discriminate|].
  cbn [TypedParser.until_brace String.length].
  destruct (Ascii.eqb c "}"); [intros [= <- <-]; lia|].
  destruct (Ascii.eqb c "010"); [discriminate|].
  destruct (TypedParser.until_brace s) as [[name' rest']|] eqn:E; [|discriminate].
  intros [= <- <-]. specialize (IH _ eq_refl). lia.
Qed.

(** More positions than the text has change nothing. *)
Lemma findall_braces_fuel (n : nat) :
  forall m s,
    String.length s <= n -> String.length s <= m ->
    TypedParser.findall_braces n s = TypedParser.findall_braces m s.
Proof.
  induction n as [|n IH]; intros m s Hn Hm.
  - destruct s; [|simpl in Hn; lia]. now destruct m.
  - destruct s as [|c r]; [now destruct m|].
    destruct m as [|m]; [simpl in Hm; lia|].
    cbn [String.length] in Hn, Hm. cbn [TypedParser.findall_braces].
    destruct (Ascii.eqb c "{"); [|apply IH; lia].
    destruct (TypedParser.until_brace r) as [[name rest]|] eqn:E; [|apply IH; lia].
    pose proof (until_brace_shorter _ _ _ E). f_equal. apply IH; lia.
Qed.

Lemma extract_literal (literal s : string) :
  is_literal literal = true ->
  TypedParser.extract_path_params (literal ++ s) = TypedParser.extract_path_params s.
Proof.
  unfold is_literal, TypedParser.extract_path_params.
  induction literal as [|c literal IH]; [reflexivity|].
  change (String c literal ++ s)%string with (String c (literal ++ s)).
  cbn [all_chars String.length TypedParser.findall_braces].
  intros H. apply andb_true_iff in H as [Hc Hl].
  destruct (Ascii.eqb c "{"); [discriminate|]. exact (IH Hl).
Qed.

Lemma extract_braces (name s : string) :
  is_name name = true ->
  TypedParser.extract_path_params (String "{" (name ++ String "}" s))
  = name :: TypedParser.extract_path_params s.
Proof.
  intros Hname. unfold TypedParser.extract_path_params.
  cbn [String.length TypedParser.findall_braces Ascii.eqb Bool.eqb].
  rewrite (until_brace_name _ _ Hname). f_equal.
  apply findall_braces_fuel; [|lia].
  rewrite length_append. cbn [String.length]. lia.
Qed.

Lemma extract_tail (tail : string) :
  is_literal tail = true -> TypedParser.extract_path_params tail = [].
Proof.
  intros H. pose proof (extract_literal tail "" H) as E.
  assert (Hnil : forall s : string, (s ++ "")%string = s).
  { induction s as [|c s IH]; [reflexivity|].
    change (String c s ++ "")%string with (String c (s ++ "")). now rewrite IH. }
  rewrite Hnil in E. exact E.
Qed.

(** X19.  [extract_path_params] recovers the parameters of a path
    template: on a path made of literal parts (without [{]) that alternate
    with parameters in braces (their names without [}] and newline), it
    returns the names of the parameters, in their order and with
    repetitions. *)
Theorem extract_path_params_template (parts : list (string * string))
    (tail : string) :
  forallb (fun part => is_literal (fst part) && is_name (snd part)) parts = true ->
  is_literal tail = true ->
  TypedParser.extract_path_params (template parts tail) = map snd parts.
Proof.
  intros Hparts Htail.
  induction parts as [|[literal name] rest IH]; cbn [template map snd].
  - now apply extract_tail.
  - cbn [forallb fst snd] in Hparts.
    apply andb_true_iff in Hparts as [Hpart Hrest].
    apply andb_true_iff in Hpart as [Hliteral Hname].
    rewrite (extract_literal _ _ Hliteral), (extract_braces _ _ Hname).
    now rewrite (IH Hrest).
Qed.

Lemma extract_path_params_template_witness :
  TypedParser.extract_path_params
    (template [("/users/", "user_id"); ("/pets/", "pet-id")] "/photos")
  = map snd [("/users/", "user_id"); ("/pets/", "pet-id")].
Proof.
  apply (extract_path_params_template
           [("/users/", "user_id"); ("/pets/", "pet-id")] "/photos");
    reflexivity.
Defined.

(** A name that spans a line is no parameter: [.] stops at the newline. *)
Lemma extract_path_params_newline :
  TypedParser.extract_path_params (String "{" (String "a" (String "010" "b}/{c}")))
  = ["c"].
Proof. reflexivity. Qed.

(** ** Schemas that refer to themselves, in typed_parser.py *)

(** The schema at [x] is the component [name] and its first [anyOf]
    branch, or without [anyOf] its first property, is a reference to
    [name]. *)
Definition refers_to_itself (spec : OpenAPI) (h : heap) (name : string) (x : loc)
  : Prop :=
  (exists c ss, components spec = Some c /\ schemas c = Some ss
                /\ dict_get name ss = Some x)
  /\ exists a p d o r ref rd,
       h !! x = Some (Schema a p d o)
       /\ h !! r = Some (Reference ref rd)
       /\ PyStr.last_segment "/" ref = name
       /\ ((exists rest, a = Some (r :: rest))
           \/ (list_truthy a = false
               /\ exists prop_name rest, p = Some ((prop_name, r) :: rest))).

(** X20.  typed_parser.py has no cycle detection: dereferencing a
    component schema whose first [anyOf] branch, or first property, refers
    to the component itself returns for no recursion budget, and the
    document is as it was when the budget runs out. *)
Theorem dereference_self_reference_unbounded (spec : OpenAPI) (h : heap)
    (name : string) (x : loc) (fuel : nat) :
  refers_to_itself spec h name x ->
  TypedParser._dereference_children spec fuel x h = (OutOfFuel, h).
Proof.
  intros [(c & ss & Hc & Hss & Hname)
          (a & p & d & o & r & ref & rd & Hx & Hr & Hlast & Hshape)].
  induction fuel as [|n IH]; [reflexivity|].
  assert (Hresolve :
            TypedParser._resolve_reference spec
              (TypedParser._dereference_children spec n) ref h = (OutOfFuel, h)).
  { unfold TypedParser._resolve_reference. rewrite Hc, Hss, Hlast, Hname.
    unfold mbind, M_bind. now rewrite IH. }
  cbn [TypedParser._dereference_children].
  unfold TypedParser._dereference_children_body, TypedParser._dereference_anyof,
    TypedParser._dereference_properties.
  destruct Hshape as [[rest ->]|[Ha (prop_name & rest & ->)]].
  - unfold mbind, M_bind, anyOf_of. rewrite Hx.
    cbn [list_truthy default from_option id TypedParser.anyof_loop].
    unfold mbind, M_bind, is_reference, ref_of. rewrite Hr. cbn beta iota.
    rewrite Hr. cbn beta iota. now rewrite Hresolve.
  - unfold mbind, M_bind, anyOf_of, properties_of. rewrite Hx, Ha.
    cbn [mret M_ret]. rewrite Hx.
    cbn [list_truthy default from_option id TypedParser.properties_loop].
    unfold mbind, M_bind, is_reference, ref_of. rewrite Hr. cbn beta iota.
    rewrite Hr. cbn beta iota. now rewrite Hresolve.
Qed.

Definition category_store : OpenAPI :=
  {| servers := [];
     paths := None;
     components :=
       Some {| schemas := Some [("Category", 1%positive)];
               parameters := None;
               requestBodies := None;
               responses := None |} |}.

Definition category_heap : heap :=
  {[ 1%positive := Schema None (Some [("parent", 2%positive)]) None (VStr "object");
     2%positive := Reference "#/components/schemas/Category" None ]}.

Lemma category_refers_to_itself :
  refers_to_itself category_store category_heap "Category" 1%positive.
Proof.
  split.
  - eexists _, _. repeat split; reflexivity.
  - exists None, (Some [("parent", 2%positive)]), None, (VStr "object"), 2%positive,
      "#/components/schemas/Category", None.
    repeat split; try reflexivity.
    right. split; [reflexivity|]. eauto.
Qed.

Lemma dereference_self_reference_unbounded_witness :
  TypedParser._dereference_children category_store 1000 1%positive category_heap
  = (OutOfFuel, category_heap).
Proof.
  apply (dereference_self_reference_unbounded category_store category_heap
           "Category" 1%positive 1000).
  exact category_refers_to_itself.
Defined.

(** ** The parameters of a request body *)

Lemma keeps_anyOf_of (x : loc) : keeps (anyOf_of x).
Proof. apply (keeps_of_triple _ _ _ (triple_anyOf_of x)). auto. Qed.

Lemma keeps_properties_of (x : loc) : keeps (properties_of x).
Proof. apply (keeps_of_triple _ _ _ (triple_properties_of x)). auto. Qed.

Lemma keeps_anyof_keys_loop (branches : list loc) :
  forall body_params, keeps (TypedParser.anyof_keys_loop branches body_params).
Proof.
  induction branches as [|b rest IH]; intros body_params;
    cbn [TypedParser.anyof_keys_loop]; [apply keeps_ret|].
  apply keeps_bind; [apply keeps_properties_of|].
  intros [ps|]; [apply IH | apply keeps_raise].
Qed.

Lemma keeps_body_params_loop (spec : OpenAPI) (fuel : nat)
    (content : list (string * option MediaType)) :
  forall body_params,
    keeps (TypedParser.body_params_loop spec fuel content body_params).
Proof.
  induction content as [|[content_type json_content] rest IH]; intros body_params;
    cbn [TypedParser.body_params_loop]; [apply keeps_ret|].
  destruct json_content as [json_content|]; [|apply keeps_raise].
  destruct (media_type_schema json_content) as [schema|]; [|apply IH].
  apply keeps_bind; [apply keeps_resolve_schema|]. intros resolved.
  apply keeps_bind; [apply keeps_anyOf_of|]. intros anyOf.
  destruct (list_truthy anyOf).
  - apply keeps_bind; [apply keeps_anyof_keys_loop | intros; apply IH].
  - apply keeps_bind; [apply keeps_properties_of|]. intros properties.
    destruct (list_truthy properties); apply IH.
Qed.

(** [n] names a property of some schema of the document. *)
Definition has_property (n : string) (h : heap) : Prop :=
  exists x a ps d o, h !! x = Some (Schema a (Some ps) d o) /\ In n (keys ps).

Definition all_properties (names : list string) (h : heap) : Prop :=
  Forall (fun n => has_property n h) names.

Lemma has_property_stable (n : string) : stable (has_property n).
Proof.
  intros h h' (x & a & ps & d & o & Hx & Hin) Hk. specialize (Hk x).
  rewrite Hx in Hk.
  destruct (h' !! x) as [[| a' [ps'|] d' o' |]|] eqn:Hx'; simpl in Hk; try tauto.
  - destruct Hk as (_ & Hp & _). injection Hp as Hp.
    exists x, a', ps', d', o'. split; [assumption | now rewrite Hp].
  - destruct Hk as (_ & Hp & _). discriminate.
Qed.

(** Names of properties are not made up by a call that keeps the store. *)
Lemma has_property_before (n : string) (h h' : heap) :
  heap_kept h h' -> has_property n h' -> has_property n h.
Proof.
  intros Hk (x & a' & ps' & d' & o' & Hx' & Hin). specialize (Hk x).
  rewrite Hx' in Hk.
  destruct (h !! x) as [[| a [ps|] d o |]|] eqn:Hx; simpl in Hk; try tauto.
  - destruct Hk as (_ & Hp & _). injection Hp as Hp.
    exists x, a, ps, d, o. split; [assumption | now rewrite <- Hp].
  - destruct Hk as (_ & Hp & _). discriminate.
Qed.

Lemma all_properties_stable (names : list string) : stable (all_properties names).
Proof.
  intros h h' H Hk. unfold all_properties in *. rewrite List.Forall_forall in *.
  intros n Hin. exact (has_property_stable n _ _ (H n Hin) Hk).
Qed.

Lemma triple_properties_named (P : heap -> Prop) (x : loc) :
  triple P (properties_of x)
    (fun p h => P h /\ all_properties (keys (default [] p)) h).
Proof.
  apply triple_read. intros h _ HP. unfold properties_of.
  destruct (h !! x) as [[| a p d o |]|] eqn:E; eexists; split; try reflexivity;
    try discriminate.
  intros p' [= <-]. split; [exact HP|].
  destruct p as [ps|]; [|constructor].
  unfold all_properties. rewrite List.Forall_forall. intros n Hin.
  exists x, a, ps, d, o. auto.
Qed.

Lemma all_properties_app (a b : list string) (h : heap) :
  all_properties a h -> all_properties b h -> all_properties (a ++ b) h.
Proof. unfold all_properties. rewrite List.Forall_app. auto. Qed.

Lemma anyof_keys_loop_named (branches : list loc) :
  forall body_params,
    triple (all_properties body_params)
      (TypedParser.anyof_keys_loop branches body_params)
      (fun names h => all_properties names h).
Proof.
  induction branches as [|b rest IH]; intros body_params;
    cbn [TypedParser.anyof_keys_loop].
  - apply (triple_weaken _ _ _ _ _
             (triple_ret (all_properties body_params) body_params)); auto.
    now intros a h [-> H].
  - apply (triple_bind _ _ _ _ _ (triple_properties_named _ b)).
    intros [ps|].
    + apply (triple_weaken _ _ _ _ _ (IH (body_params ++ keys ps))); auto.
      intros h [H1 H2]. now apply all_properties_app.
    + apply triple_fail. intros h. eexists. split; [reflexivity | discriminate].
Qed.

Lemma body_params_loop_named (spec : OpenAPI) (fuel : nat)
    (content : list (string * option MediaType)) :
  forall body_params,
    triple (all_properties body_params)
      (TypedParser.body_params_loop spec fuel content body_params)
      (fun names h => all_properties names h).
Proof.
  induction content as [|[content_type json_content] rest IH]; intros body_params;
    cbn [TypedParser.body_params_loop].
  - apply (triple_weaken _ _ _ _ _
             (triple_ret (all_properties body_params) body_params)); auto.
    now intros a h [-> H].
  - destruct json_content as [json_content|];
      [|apply triple_fail; intros h; eexists; split; [reflexivity | discriminate]].
    destruct (media_type_schema json_content) as [schema|]; [|apply IH].
    apply (triple_bind _ _ (fun _ h => all_properties body_params h)).
    { apply triple_frame; [apply keeps_resolve_schema | apply all_properties_stable]. }
    intros resolved.
    apply (triple_bind _ _ (fun _ h => all_properties body_params h)).
    { apply triple_frame; [apply keeps_anyOf_of | apply all_properties_stable]. }
    intros anyOf. destruct (list_truthy anyOf).
    + apply (triple_bind _ _ _ _ _ (anyof_keys_loop_named _ body_params)).
      intros names. apply IH.
    + apply (triple_bind _ _ _ _ _ (triple_properties_named _ resolved)).
      intros properties. destruct (list_truthy properties).
      * apply (triple_weaken _ _ _ _ _ (IH (body_params ++ keys (default [] properties))));
          auto.
        intros h [H1 H2]. now apply all_properties_app.
      * apply (triple_weaken _ _ _ _ _ (IH body_params)); auto. now intros h [H1 _].
Qed.

(** X21.  [extract_body_params] changes the document only as
    [resolve_schema] does: whatever its outcome, every object keeps its
    class, the text of its reference, the names of its properties, the
    number of its [anyOf] branches, a description that was not empty and its
    other attributes.  The names it returns are made up of nothing: for a
    request body given inline each is the name of a property of a schema of
    the document; for one given by reference there is one name, the last
    segment of the reference; without a request body there is none. *)
Theorem extract_body_params_names (spec : OpenAPI) (fuel : nat)
    (operation : Operation) (h : heap) :
  heap_wf h ->
  heap_kept h (snd (TypedParser.extract_body_params spec fuel operation h))
  /\ match fst (TypedParser.extract_body_params spec fuel operation h),
           requestBody operation with
     | Ok names, None => names = []
     | Ok names, Some (RequestBodyRef ref) => names = [PyStr.last_segment "/" ref]
     | Ok names, Some (RequestBody _) => all_properties names h
     | _, _ => True
     end.
Proof.
  intros Hwf.
  assert (Htriple :
            triple (fun _ => True) (TypedParser.extract_body_params spec fuel operation)
              (fun names h' =>
                 match requestBody operation with
                 | None => names = []
                 | Some (RequestBodyRef ref) => names = [PyStr.last_segment "/" ref]
                 | Some (RequestBody _) => all_properties names h'
                 end)).
  { unfold TypedParser.extract_body_params.
    destruct (requestBody operation) as [[ref|[content|]]|].
    - apply (triple_weaken _ _ _ _ _ (triple_ret (fun _ => True) _)); auto.
      now intros a h0 [-> _].
    - apply (triple_weaken _ _ _ _ _ (body_params_loop_named spec fuel content []));
        auto.
      intros h0 _. constructor.
    - apply triple_fail. intros h0. eexists. split; [reflexivity | discriminate].
    - apply (triple_weaken _ _ _ _ _ (triple_ret (fun _ => True) _)); auto.
      now intros a h0 [-> _]. }
  destruct (TypedParser.extract_body_params spec fuel operation h) as [r h'] eqn:E.
  destruct (Htriple _ _ _ Hwf I E) as [Hkept Hnames]. split; [exact Hkept|].
  cbn [fst]. destruct r as [names| |]; try exact I.
  specialize (Hnames _ eq_refl).
  destruct (requestBody operation) as [[ref|content]|]; try exact Hnames.
  unfold all_properties in *. rewrite List.Forall_forall in *.
  intros n Hin. exact (has_property_before _ _ _ Hkept (Hnames n Hin)).
Qed.
Definition create_pet : Operation :=
  {| operationId := Some "createPet";
     requestBody :=
       Some (RequestBody
               (Some [("application/json",
                       Some {| media_type_schema := Some 1%positive |})])) |}.

Lemma extract_body_params_names_witness :
  heap_kept pet_heap
    (snd (TypedParser.extract_body_params pet_store 3 create_pet pet_heap))
  /\ match fst (TypedParser.extract_body_params pet_store 3 create_pet pet_heap),
           requestBody create_pet with
     | Ok names, None => names = []
     | Ok names, Some (RequestBodyRef ref) => names = [PyStr.last_segment "/" ref]
     | Ok names, Some (RequestBody _) => all_properties names pet_heap
     | _, _ => True
     end.
Proof.
  apply (extract_body_params_names pet_store 3 create_pet pet_heap).
  exact pet_heap_wf.
Defined.

(** There the body parameters are the properties of [Pet]. *)
Lemma extract_body_params_pet :
  fst (TypedParser.extract_body_params pet_store 3 create_pet pet_heap)
  = Ok ["owner"].
Proof. vm_compute. reflexivity. Qed.

(** ** Root references, in openapi_utils.py *)

Definition is_reference_at (h : heap) (x : loc) : bool :=
  match h !! x with
  | Some (Reference _ _) => true
  | _ => false
  end.

Lemma root_loop_no_reference (self : OpenAPI) (h : heap) (fuel : nat) :
  forall x root,
    OpenAPIUtils.root_loop self h fuel x = Ok root ->
    is_reference_at h root = false
    /\ (root = x
        \/ exists ref, OpenAPIUtils.get_referenced_schema self ref = Ok root).
Proof.
  induction fuel as [|n IH]; intros x root; cbn [OpenAPIUtils.root_loop].
  - destruct (h !! x) as [[ref d| |]|] eqn:E; try discriminate;
      intros [= <-]; unfold is_reference_at; rewrite E; auto.
  - destruct (h !! x) as [[ref d| |]|] eqn:E;
      try (intros [= <-]; unfold is_reference_at; rewrite E; auto).
    unfold mbind, res_bind.
    destruct (OpenAPIUtils.get_referenced_schema self ref) as [y| |] eqn:Ey;
      try discriminate.
    intros H. destruct (IH _ _ H) as [Hroot [->|Hlookup]]; eauto.
Qed.

Lemma root_parameter_loop_no_reference (self : OpenAPI) (h : heap) (fuel : nat) :
  forall x root,
    OpenAPIUtils.root_parameter_loop self h fuel x = Ok root ->
    is_reference_at h root = false
    /\ (root = x
        \/ exists ref, OpenAPIUtils._get_referenced_parameter self ref = Ok root).
Proof.
  induction fuel as [|n IH]; intros x root; cbn [OpenAPIUtils.root_parameter_loop].
  - destruct (h !! x) as [[ref d| |]|] eqn:E; try discriminate;
      intros [= <-]; unfold is_reference_at; rewrite E; auto.
  - destruct (h !! x) as [[ref d| |]|] eqn:E;
      try (intros [= <-]; unfold is_reference_at; rewrite E; auto).
    unfold mbind, res_bind.
    destruct (OpenAPIUtils._get_referenced_parameter self ref) as [y| |] eqn:Ey;
      try discriminate.
    intros H. destruct (IH _ _ H) as [Hroot [->|Hlookup]]; eauto.
Qed.

Lemma get_referenced_schema_Ok (self : OpenAPI) (ref : string) (x : loc) :
  OpenAPIUtils.get_referenced_schema self ref = Ok x ->
  exists c d, components self = Some c /\ schemas c = Some d
              /\ dict_get (PyStr.last_segment "/" ref) d = Some x.
Proof.
  unfold OpenAPIUtils.get_referenced_schema, OpenAPIUtils._schema_strict,
    OpenAPIUtils._components_strict.
  unfold mbind, res_bind.
  destruct (components self) as [c|] eqn:Ec; [|discriminate].
  destruct (schemas c) as [d|] eqn:Ed; [|discriminate].
  destruct (dict_get _ d) as [y|] eqn:E; [|discriminate].
  intros [= <-]. exists c, d. auto.
Qed.

Lemma get_referenced_parameter_Ok (self : OpenAPI) (ref : string) (x : loc) :
  OpenAPIUtils._get_referenced_parameter self ref = Ok x ->
  exists c d, components self = Some c /\ parameters c = Some d
              /\ dict_get (PyStr.last_segment "/" ref) d = Some x.
Proof.
  unfold OpenAPIUtils._get_referenced_parameter, OpenAPIUtils._parameters_strict,
    OpenAPIUtils._components_strict.
  unfold mbind, res_bind.
  destruct (components self) as [c|] eqn:Ec; [|discriminate].
  destruct (parameters c) as [d|] eqn:Ed; [|discriminate].
  destruct (dict_get _ d) as [y|] eqn:E; [|discriminate].
  intros [= <-]. exists c, d. auto.
Qed.

Lemma root_is_no_reference_parameter (self : OpenAPI) (h : heap) (fuel : nat)
    (ref : string) (root : loc) :
  OpenAPIUtils._get_root_referenced_parameter self h fuel ref = Ok root ->
  is_reference_at h root = false
  /\ exists r, OpenAPIUtils._get_referenced_parameter self r = Ok root.
Proof.
  unfold OpenAPIUtils._get_root_referenced_parameter. unfold mbind, res_bind.
  destruct (OpenAPIUtils._get_referenced_parameter self ref) as [x| |] eqn:Ex;
    try discriminate.
  intros H. destruct (root_parameter_loop_no_reference _ _ _ _ _ H) as [Hroot Hfrom].
  split; [exact Hroot|]. destruct Hfrom as [->|?]; eauto.
Qed.

Lemma root_is_no_reference_schema (self : OpenAPI) (h : heap) (fuel : nat)
    (ref : string) (root : loc) :
  OpenAPIUtils._get_root_referenced_schema self h fuel ref = Ok root ->
  is_reference_at h root = false
  /\ exists r, OpenAPIUtils.get_referenced_schema self r = Ok root.
Proof.
  unfold OpenAPIUtils._get_root_referenced_schema. unfold mbind, res_bind.
  destruct (OpenAPIUtils.get_referenced_schema self ref) as [x| |] eqn:Ex;
    try discriminate.
  intros H. destruct (root_loop_no_reference _ _ _ _ _ H) as [Hroot Hfrom].
  split; [exact Hroot|]. destruct Hfrom as [->|?]; eauto.
Qed.

(** The two root lookups of [OpenAPISpec], told apart by [parameter]: of
    a parameter, or of a schema. *)
Definition lookup_of (parameter : bool) (self : OpenAPI) (ref : string) : res loc :=
  if parameter then OpenAPIUtils._get_referenced_parameter self ref
  else OpenAPIUtils.get_referenced_schema self ref.

Definition root_of (parameter : bool) (self : OpenAPI) (h : heap) (fuel : nat)
    (ref : string) : res loc :=
  if parameter then OpenAPIUtils._get_root_referenced_parameter self h fuel ref
  else OpenAPIUtils._get_root_referenced_schema self h fuel ref.

Definition components_of (parameter : bool) (c : Components)
  : option (list (string * loc)) :=
  if parameter then parameters c else schemas c.

(** X22.  What [_get_root_referenced_schema] and
    [_get_root_referenced_parameter] return is no reference, and it is an
    entry of [components.schemas], respectively [components.parameters]. *)
Theorem root_is_no_reference (parameter : bool) (self : OpenAPI) (h : heap)
    (fuel : nat) (ref : string) (root : loc) :
  root_of parameter self h fuel ref = Ok root ->
  is_reference_at h root = false
  /\ exists c d name,
       components self = Some c
       /\ components_of parameter c = Some d
       /\ dict_get name d = Some root.
Proof.
  destruct parameter; cbn [root_of components_of]; intros H.
  - destruct (root_is_no_reference_parameter _ _ _ _ _ H) as [Hroot [r Hr]].
    split; [exact Hroot|].
    destruct (get_referenced_parameter_Ok _ _ _ Hr) as (c & d & Hc & Hd & Hname).
    exists c, d, (PyStr.last_segment "/" r). auto.
  - destruct (root_is_no_reference_schema _ _ _ _ _ H) as [Hroot [r Hr]].
    split; [exact Hroot|].
    destruct (get_referenced_schema_Ok _ _ _ Hr) as (c & d & Hc & Hd & Hname).
    exists c, d, (PyStr.last_segment "/" r). auto.
Qed.

(** An alias: the component [PetAlias] is a reference to the component
    [Pet]; and components that refer to themselves. *)
Definition alias_store : OpenAPI :=
  {| servers := [];
     paths := None;
     components :=
       Some {| schemas := Some [("Pet", 1%positive); ("PetAlias", 2%positive);
                                ("Loop", 3%positive)];
               parameters := Some [("limit", 4%positive); ("max", 5%positive);
                                   ("self", 6%positive)];
               requestBodies := None;
               responses := None |} |}.

Definition alias_heap : heap :=
  {[ 1%positive := Schema None None None (VStr "object");
     2%positive := Reference "#/components/schemas/Pet" None;
     3%positive := Reference "#/components/schemas/Loop" None;
     4%positive := Component KParameter None;
     5%positive := Reference "#/components/parameters/limit" None;
     6%positive := Reference "#/components/parameters/self" None ]}.

Lemma root_is_no_reference_witness :
  is_reference_at alias_heap 1%positive = false
  /\ exists c d name,
       components alias_store = Some c
       /\ components_of false c = Some d
       /\ dict_get name d = Some 1%positive.
Proof.
  apply (root_is_no_reference false alias_store alias_heap 1
           "#/components/schemas/PetAlias" 1%positive).
  vm_compute. reflexivity.
Defined.

(** X23.  Neither loop notices a cycle: started on a reference from which
    only references are reached, each resolving to the next, the lookup of
    the root returns for no number of turns. *)
Theorem reference_cycle_unbounded (parameter : bool) (self : OpenAPI) (h : heap)
    (cycle : loc -> Prop) (ref : string) (x : loc) (fuel : nat) :
  (forall x, cycle x ->
     exists ref d y, h !! x = Some (Reference ref d)
                     /\ lookup_of parameter self ref = Ok y
                     /\ cycle y) ->
  lookup_of parameter self ref = Ok x ->
  cycle x ->
  root_of parameter self h fuel ref = OutOfFuel.
Proof.
  destruct parameter; cbn [lookup_of root_of]; intros Hcycle Hx Hcx.
  - assert (Hloop : forall x, cycle x ->
                              OpenAPIUtils.root_parameter_loop self h fuel x
                              = OutOfFuel).
    { clear x Hx Hcx. induction fuel as [|n IH]; intros x Hx;
        destruct (Hcycle x Hx) as (r & d & y & Hx' & Hy & Hcy);
        cbn [OpenAPIUtils.root_parameter_loop]; rewrite Hx'; [reflexivity|].
      unfold mbind, res_bind. rewrite Hy. now apply IH. }
    unfold OpenAPIUtils._get_root_referenced_parameter.
    unfold mbind, res_bind. rewrite Hx. now apply Hloop.
  - assert (Hloop : forall x, cycle x ->
                              OpenAPIUtils.root_loop self h fuel x = OutOfFuel).
    { clear x Hx Hcx. induction fuel as [|n IH]; intros x Hx;
        destruct (Hcycle x Hx) as (r & d & y & Hx' & Hy & Hcy);
        cbn [OpenAPIUtils.root_loop]; rewrite Hx'; [reflexivity|].
      unfold mbind, res_bind. rewrite Hy. now apply IH. }
    unfold OpenAPIUtils._get_root_referenced_schema.
    unfold mbind, res_bind. rewrite Hx. now apply Hloop.
Qed.

Lemma reference_cycle_unbounded_witness :
  root_of true alias_store alias_heap 1000 "#/components/parameters/self" = OutOfFuel.
Proof.
  apply (reference_cycle_unbounded true alias_store alias_heap
           (fun x => x = 6%positive) "#/components/parameters/self" 6%positive 1000).
  - intros x ->. exists "#/components/parameters/self", None, 6%positive.
    repeat split; reflexivity.
  - reflexivity.
  - reflexivity.
Defined.

(** From [x], [turns] references lead to [root], which is none: each is
    resolved by [lookup] to the next. *)
Inductive chain (lookup : string -> res loc) (h : heap) : loc -> nat -> loc -> Prop :=
| chain_root (x : loc) :
    is_reference_at h x = false -> chain lookup h x 0 x
| chain_next (x : loc) (ref : string) (d : option string) (y : loc) (turns : nat)
    (root : loc) :
    h !! x = Some (Reference ref d) ->
    lookup ref = Ok y ->
    chain lookup h y turns root ->
    chain lookup h x (S turns) root.

Lemma root_loop_chain (self : OpenAPI) (h : heap) (x root : loc) (turns : nat) :
  chain (OpenAPIUtils.get_referenced_schema self) h x turns root ->
  forall fuel, turns <= fuel -> OpenAPIUtils.root_loop self h fuel x = Ok root.
Proof.
  induction 1 as [x Hx | x ref d y turns root Hx Hy Hchain IH]; intros fuel Hfuel.
  - unfold is_reference_at in Hx.
    destruct fuel; cbn [OpenAPIUtils.root_loop];
      destruct (h !! x) as [[| |]|]; try discriminate; reflexivity.
  - destruct fuel as [|n]; [lia|]. cbn [OpenAPIUtils.root_loop]. rewrite Hx.
    unfold mbind, res_bind. rewrite Hy. apply IH. lia.
Qed.

Lemma root_parameter_loop_chain (self : OpenAPI) (h : heap) (x root : loc)
    (turns : nat) :
  chain (OpenAPIUtils._get_referenced_parameter self) h x turns root ->
  forall fuel, turns <= fuel ->
               OpenAPIUtils.root_parameter_loop self h fuel x = Ok root.
Proof.
  induction 1 as [x Hx | x ref d y turns root Hx Hy Hchain IH]; intros fuel Hfuel.
  - unfold is_reference_at in Hx.
    destruct fuel; cbn [OpenAPIUtils.root_parameter_loop];
      destruct (h !! x) as [[| |]|]; try discriminate; reflexivity.
  - destruct fuel as [|n]; [lia|]. cbn [OpenAPIUtils.root_parameter_loop].
    rewrite Hx. unfold mbind, res_bind. rewrite Hy. apply IH. lia.
Qed.

(** X24.  Along a chain of references that ends, the root is found: when
    the component named by [ref] leads through [turns] further references
    to a component that is none, [_get_root_referenced_schema] returns that
    component after [turns] turns of its loop, and so does
    [_get_root_referenced_parameter] among the parameters. *)
Theorem root_of_chain (parameter : bool) (self : OpenAPI) (h : heap) (ref : string)
    (x root : loc) (turns fuel : nat) :
  lookup_of parameter self ref = Ok x ->
  chain (lookup_of parameter self) h x turns root ->
  turns <= fuel ->
  root_of parameter self h fuel ref = Ok root.
Proof.
  destruct parameter; cbn [root_of]; intros Hx Hchain Hfuel.
  - unfold OpenAPIUtils._get_root_referenced_parameter. unfold mbind, res_bind.
    cbn [lookup_of] in Hx. rewrite Hx.
    now apply (root_parameter_loop_chain _ _ _ _ turns).
  - unfold OpenAPIUtils._get_root_referenced_schema. unfold mbind, res_bind.
    cbn [lookup_of] in Hx. rewrite Hx. now apply (root_loop_chain _ _ _ _ turns).
Qed.

Lemma alias_chain :
  chain (lookup_of false alias_store) alias_heap 2%positive 1 1%positive.
Proof.
  apply (chain_next _ _ _ "#/components/schemas/Pet" None 1%positive);
    [reflexivity | reflexivity |].
  apply chain_root. reflexivity.
Qed.

Lemma root_of_chain_witness :
  root_of false alias_store alias_heap 1 "#/components/schemas/PetAlias"
  = Ok 1%positive.
Proof.
  apply (root_of_chain false alias_store alias_heap "#/components/schemas/PetAlias"
           2%positive 1%positive 1 1).
  - reflexivity.
  - exact alias_chain.
  - lia.
Defined.

(** ** The methods of a path *)

Lemma methods_loop_filter (path_item : PathItem) (verbs : list HTTPVerb) :
  forall results,
    OpenAPIUtils.methods_loop path_item verbs results
    = results
      ++ List.filter
           (fun method =>
              match OpenAPIUtils.getattr_operation path_item method with
              | Some _ => true
              | None => false
              end)
           (map Parser.verb_value verbs).
Proof.
  induction verbs as [|v rest IH]; intros results;
    cbn [OpenAPIUtils.methods_loop map List.filter].
  - now rewrite app_nil_r.
  - destruct (OpenAPIUtils.getattr_operation path_item (Parser.verb_value v));
      rewrite IH; [now rewrite <- app_assoc | reflexivity].
Qed.

Lemma sublist_List_filter {A} (f : A -> bool) (l : list A) :
  sublist (List.filter f l) l.
Proof.
  induction l as [|x l IH]; cbn [List.filter]; [constructor|].
  destruct (f x); [now apply sublist_skip | now apply sublist_cons].
Qed.

(** An operation is an attribute of a path item under the eight verbs
    only. *)
Lemma getattr_operation_verb (path_item : PathItem) (method : string)
    (operation : Operation) :
  OpenAPIUtils.getattr_operation path_item method = Some operation ->
  In method (map Parser.verb_value Parser.all_verbs).
Proof.
  unfold OpenAPIUtils.getattr_operation. cbn [map Parser.all_verbs Parser.verb_value].
  destruct (String.eqb_spec method "get") as [->|_]; [intros _; simpl; auto 10|].
  destruct (String.eqb_spec method "put") as [->|_]; [intros _; simpl; auto 10|].
  destruct (String.eqb_spec method "post") as [->|_]; [intros _; simpl; auto 10|].
  destruct (String.eqb_spec method "delete") as [->|_]; [intros _; simpl; auto 10|].
  destruct (String.eqb_spec method "options") as [->|_]; [intros _; simpl; auto 10|].
  destruct (String.eqb_spec method "head") as [->|_]; [intros _; simpl; auto 10|].
  destruct (String.eqb_spec method "patch") as [->|_]; [intros _; simpl; auto 10|].
  destruct (String.eqb_spec method "trace") as [->|_]; [intros _; simpl; auto 10|].
  discriminate.
Qed.

(** X25.  [get_methods_for_path] and [get_operation] agree: the methods
    listed for a path are exactly those for which [get_operation] returns an
    operation, each listed once, in the order of [HTTPVerb]; and when the
    path cannot be looked up, both raise the same error. *)
Theorem methods_for_path_are_operations (self : OpenAPI) (path : string) :
  match OpenAPIUtils.get_methods_for_path self path with
  | Ok methods =>
      (forall method,
         In method methods
         <-> exists operation,
               OpenAPIUtils.get_operation self path method = Ok operation)
      /\ sublist methods (map Parser.verb_value Parser.all_verbs)
  | Raise e => forall method, OpenAPIUtils.get_operation self path method = Raise e
  | OutOfFuel => False
  end.
Proof.
  unfold OpenAPIUtils.get_methods_for_path, OpenAPIUtils.get_operation.
  unfold mbind, res_bind.
  destruct (OpenAPIUtils._get_path_strict self path) as [path_item|e|] eqn:E.
  - rewrite methods_loop_filter. cbn [app]. split.
    + intros method. rewrite List.filter_In. split.
      * intros [_ H].
        destruct (OpenAPIUtils.getattr_operation path_item method) as [op|];
          [eauto | discriminate].
      * intros [op H].
        destruct (OpenAPIUtils.getattr_operation path_item method) as [op'|] eqn:Eop;
          [|discriminate].
        split; [exact (getattr_operation_verb _ _ _ Eop) | reflexivity].
    + apply sublist_List_filter.
  - reflexivity.
  - unfold OpenAPIUtils._get_path_strict, OpenAPIUtils._paths_strict in E.
    unfold mbind, res_bind in E.
    destruct (paths self) as [[|p ps]|]; try discriminate.
    destruct (dict_get path (p :: ps)); discriminate.
Qed.

(** ** The parameters of an operation *)

Lemma parameters_loop_roots (self : OpenAPI) (h : heap) (fuel : nat)
    (operation_parameters : list loc) :
  forall acc parameters,
    OpenAPIUtils.parameters_loop self h fuel operation_parameters acc
    = Ok parameters ->
    exists roots,
      parameters = acc ++ roots
      /\ Forall2
           (fun parameter root =>
              is_reference_at h root = false
              /\ (is_reference_at h parameter = false -> root = parameter))
           operation_parameters roots.
Proof.
  induction operation_parameters as [|parameter rest IH]; intros acc parameters;
    cbn [OpenAPIUtils.parameters_loop].
  - intros [= <-]. exists []. split; [now rewrite app_nil_r | constructor].
  - unfold mbind, res_bind.
    destruct (match h !! parameter with
              | Some (Reference ref _) =>
                  OpenAPIUtils._get_root_referenced_parameter self h fuel ref
              | _ => Ok parameter
              end) as [root| |] eqn:Eroot; try discriminate.
    intros H. destruct (IH _ _ H) as (roots & -> & Hroots).
    exists (root :: roots). split; [now rewrite <- app_assoc|].
    constructor; [|exact Hroots].
    unfold is_reference_at at 2.
    destruct (h !! parameter) as [[ref d|a p d o|k d]|] eqn:Ep;
      try (injection Eroot as <-; unfold is_reference_at; rewrite Ep; auto).
    split; [|discriminate].
    exact (proj1 (root_is_no_reference_parameter _ _ _ _ _ Eroot)).
Qed.

(** X26.  [get_parameters_for_operation] returns one parameter for each
    parameter of the operation, in their order; none of them is a
    reference; and a parameter that is no reference is returned as it is.
    An operation without parameters gives the empty list. *)
Theorem parameters_for_operation (self : OpenAPI) (h : heap) (fuel : nat)
    (operation_parameters : option (list loc)) (parameters : list loc) :
  OpenAPIUtils.get_parameters_for_operation self h fuel operation_parameters
  = Ok parameters ->
  Forall2
    (fun parameter root =>
       is_reference_at h root = false
       /\ (is_reference_at h parameter = false -> root = parameter))
    (default [] operation_parameters) parameters.
Proof.
  unfold OpenAPIUtils.get_parameters_for_operation.
  destruct operation_parameters as [[|p ps]|]; cbn [list_truthy default from_option id];
    try (intros [= <-]; constructor).
  intros H. destruct (parameters_loop_roots _ _ _ _ _ _ H) as (roots & -> & Hroots).
  exact Hroots.
Qed.

Lemma parameters_for_operation_witness :
  Forall2
    (fun parameter root =>
       is_reference_at alias_heap root = false
       /\ (is_reference_at alias_heap parameter = false -> root = parameter))
    (default [] (Some [5%positive; 4%positive])) [4%positive; 4%positive].
Proof.
  apply (parameters_for_operation alias_store alias_heap 2
           (Some [5%positive; 4%positive]) [4%positive; 4%positive]).
  vm_compute. reflexivity.
Defined.

(** ** What the lenient validator strips *)

(** [item = obj; for key in keys: item = item[key]] *)
Fixpoint follow_keys (keys : list key) (obj : value) : res value :=
  match keys with
  | [] => Ok obj
  | k :: rest => item ← item_at obj k; follow_keys rest item
  end.

Definition pop_on_list : exn := TypeError "pop expected at most 1 argument, got 2".

Lemma strip_field_list (keys : list key) (k : key) :
  forall obj l,
    follow_keys keys obj = Ok (VList l) ->
    strip_field (keys ++ [k]) obj = Raise pop_on_list.
Proof.
  induction keys as [|k0 rest IH]; intros obj l.
  - intros [= ->]. reflexivity.
  - cbn [follow_keys]. unfold mbind, res_bind.
    destruct (item_at obj k0) as [item| |] eqn:Ei; try discriminate.
    intros H. specialize (IH _ _ H).
    change ((k0 :: rest) ++ [k]) with (k0 :: (rest ++ [k])).
    destruct (rest ++ [k]) as [|k' rest'] eqn:E; [now destruct rest|].
    rewrite strip_field_cons, Ei. now rewrite IH.
Qed.

(** X27.  An error located in an element of a list stops the lenient
    validator: [item.pop(keys[-1], None)] is called on the list and raises
    [TypeError], so when the first error that validation reports leads to a
    list, [parse_obj] raises instead of returning a model. *)
Theorem parse_obj_error_in_list {Model : Type}
    (strict_parse_obj : value -> Model + list (list key)) (fuel : nat) (obj : value)
    (keys : list key) (k : key) (others : list (list key)) (l : list value) :
  strict_parse_obj obj = inr ((keys ++ [k]) :: others) ->
  follow_keys keys obj = Ok (VList l) ->
  parse_obj strict_parse_obj (S fuel) obj = Raise pop_on_list.
Proof.
  intros Hstrict Hlist. cbn [parse_obj]. rewrite Hstrict.
  cbn [strip_errors]. unfold mbind, res_bind.
  now rewrite (strip_field_list _ _ _ _ Hlist).
Qed.

(** A validator that asks each server to be an object. *)
Definition servers_are_objects (obj : value) : value + list (list key) :=
  match obj with
  | VDict d =>
      match dict_get "servers" d with
      | Some (VList (VStr _ :: _)) => inr [[KName "servers"; KIndex 0]]
      | _ => inl obj
      end
  | _ => inl obj
  end.

Lemma parse_obj_error_in_list_witness :
  parse_obj servers_are_objects 1
    (VDict [("servers", VList [VStr "https://api.example.com"])])
  = Raise pop_on_list.
Proof.
  apply (parse_obj_error_in_list servers_are_objects 0
           (VDict [("servers", VList [VStr "https://api.example.com"])])
           [KName "servers"] (KIndex 0) [] [VStr "https://api.example.com"]);
    reflexivity.
Defined.

Fixpoint distinct (names : list string) : bool :=
  match names with
  | [] => true
  | x :: rest => negb (existsb (String.eqb x) rest) && distinct rest
  end.

Lemma distinct_NoDup (names : list string) :
  distinct names = true <-> List.NoDup names.
Proof.
  induction names as [|x rest IH]; simpl.
  - split; [constructor | reflexivity].
  - rewrite andb_true_iff, negb_true_iff, IH, List.NoDup_cons_iff.
    assert (E : existsb (String.eqb x) rest = false <-> ~ In x rest).
    { rewrite <- not_true_iff_false, existsb_exists. split.
      - intros H Hin. apply H. exists x. split; [exact Hin | apply String.eqb_refl].
      - intros H [y [Hin Hy]]. apply String.eqb_eq in Hy as ->. contradiction. }
    now rewrite E.
Qed.

(** The dicts of a document have each key once. *)
Fixpoint unique_keys (v : value) : bool :=
  match v with
  | VList l => forallb unique_keys l
  | VDict d =>
      distinct (keys d)
      && forallb (fun kv => match kv with (_, x) => unique_keys x end) d
  | _ => true
  end.

(** A value that is neither a list nor a dict. *)
Definition is_leaf (v : value) : bool :=
  match v with
  | VList _ | VDict _ => false
  | _ => true
  end.

Lemma unique_keys_dict (d : list (string * value)) :
  unique_keys (VDict d) = true ->
  List.NoDup (keys d)
  /\ forall k v, dict_get k d = Some v -> unique_keys v = true.
Proof.
  cbn [unique_keys]. intros H. apply andb_true_iff in H as [Hnd Hall].
  apply distinct_NoDup in Hnd. split; [exact Hnd|].
  clear Hnd. induction d as [|[k' v'] d IH]; intros k v; simpl; [discriminate|].
  simpl in Hall. apply andb_true_iff in Hall as [Hv Hd].
  destruct (String.eqb k k'); [now intros [= <-] | now apply IH].
Qed.

Lemma unique_keys_list (l : list value) (i : nat) (v : value) :
  unique_keys (VList l) = true -> l !! i = Some v -> unique_keys v = true.
Proof.
  cbn [unique_keys]. rewrite forallb_forall. intros H Hi. apply H.
  apply list_elem_of_In. eapply list_elem_of_lookup_2. exact Hi.
Qed.

Lemma unique_keys_item (obj item : value) (k : key) :
  unique_keys obj = true -> item_at obj k = Ok item -> unique_keys item = true.
Proof.
  intros Hu. destruct obj, k; simpl; try discriminate.
  - destruct (String.get i s); [|discriminate]. now intros [= <-].
  - destruct (l !! i) eqn:E; [|discriminate]. intros [= <-].
    exact (unique_keys_list _ _ _ Hu E).
  - destruct (dict_get s d) eqn:E; [|discriminate]. intros [= <-].
    exact (proj2 (unique_keys_dict _ Hu) _ _ E).
Qed.

Lemma keys_dict_remove_In {V} (s k : string) (d : list (string * V)) :
  In k (keys (dict_remove s d)) -> In k (keys d).
Proof.
  induction d as [|[k' v'] d IH]; simpl; [auto|].
  destruct (String.eqb s k'); simpl; [auto | intuition].
Qed.

Lemma NoDup_dict_remove {V} (s : string) (d : list (string * V)) :
  List.NoDup (keys d) -> List.NoDup (keys (dict_remove s d)).
Proof.
  induction d as [|[k' v'] d IH]; simpl; [auto|].
  intros H. apply List.NoDup_cons_iff in H as [Hnotin Hnd].
  destruct (String.eqb s k'); [exact Hnd|]. simpl.
  apply List.NoDup_cons; [|auto].
  intros Hin. apply Hnotin. exact (keys_dict_remove_In _ _ _ Hin).
Qed.

Lemma forallb_dict_remove (f : string * value -> bool) (s : string)
    (d : list (string * value)) :
  forallb f d = true -> forallb f (dict_remove s d) = true.
Proof.
  induction d as [|[k' v'] d IH]; simpl; [auto|].
  intros H. apply andb_true_iff in H as [Hv Hd].
  destruct (String.eqb s k'); [exact Hd|]. simpl. now rewrite Hv, IH.
Qed.

Lemma forallb_dict_set (f : string * value -> bool) (s : string) (v : value)
    (d : list (string * value)) :
  (forall k, f (k, v) = true) ->
  forallb f d = true -> forallb f (dict_set s v d) = true.
Proof.
  intros Hv. induction d as [|[k' v'] d IH]; simpl.
  - intros _. now rewrite Hv.
  - intros H. apply andb_true_iff in H as [Hv' Hd].
    destruct (String.eqb s k'); simpl; [now rewrite Hv, Hd | now rewrite Hv', IH].
Qed.

Lemma keys_dict_set_present {V} (s : string) (v w : V) (d : list (string * V)) :
  dict_get s d = Some w -> keys (dict_set s v d) = keys d.
Proof.
  induction d as [|[k' v'] d IH]; simpl; [discriminate|].
  destruct (String.eqb_spec s k') as [->|Hne]; [reflexivity|].
  intros H. simpl. now rewrite IH.
Qed.

Lemma unique_keys_with_item (obj item item' : value) (k : key) :
  unique_keys obj = true -> item_at obj k = Ok item -> unique_keys item' = true ->
  unique_keys (with_item obj k item') = true.
Proof.
  intros Hu Hi Hi'. destruct obj, k; simpl in Hi |- *; try discriminate; try exact Hu.
  - (* a list *)
    cbn [unique_keys] in Hu |- *. rewrite forallb_forall in Hu |- *.
    intros x Hx. apply list_elem_of_In in Hx.
    apply list_elem_of_lookup_1 in Hx as [j Hj].
    destruct (decide (i = j)) as [->|Hne].
    + destruct (l !! j) eqn:E; [|discriminate].
      rewrite list_lookup_insert_eq in Hj by (eapply lookup_lt_Some; exact E).
      now injection Hj as <-.
    + rewrite list_lookup_insert_ne in Hj by assumption.
      apply Hu. apply list_elem_of_In. eapply list_elem_of_lookup_2. exact Hj.
  - (* a dict *)
    destruct (dict_get s d) as [w|] eqn:E; [|discriminate].
    cbn [unique_keys] in Hu |- *. apply andb_true_iff in Hu as [Hnd Hall].
    apply andb_true_iff. split.
    + now rewrite (keys_dict_set_present _ _ _ _ E).
    + apply forallb_dict_set; auto.
Qed.

Lemma unique_keys_strip_field (keys : list key) :
  forall obj obj',
    unique_keys obj = true -> strip_field keys obj = Ok obj' ->
    unique_keys obj' = true.
Proof.
  induction keys as [|k rest IH]; intros obj obj' Hu.
  - simpl. destruct obj; discriminate.
  - destruct rest as [|k' rest'].
    + simpl. destruct obj, k; simpl; try discriminate.
      * intros [= <-]. cbn [unique_keys] in Hu |- *.
        apply andb_true_iff in Hu as [Hnd Hall]. apply andb_true_iff. split.
        -- apply distinct_NoDup. apply distinct_NoDup in Hnd.
           now apply NoDup_dict_remove.
        -- now apply forallb_dict_remove.
      * now intros [= <-].
    + rewrite strip_field_cons.
      destruct (item_at obj k) as [item| |] eqn:Ei; try discriminate.
      destruct (strip_field (k' :: rest') item) as [item'| |] eqn:Es;
        try discriminate.
      intros [= <-].
      apply (unique_keys_with_item _ item); auto.
      apply (IH item); [|exact Es]. exact (unique_keys_item _ _ _ Hu Ei).
Qed.

Lemma unique_keys_strip_errors (errors : list (list key)) :
  forall obj obj',
    unique_keys obj = true -> strip_errors errors obj = Ok obj' ->
    unique_keys obj' = true.
Proof.
  induction errors as [|keys rest IH]; intros obj obj' Hu; simpl.
  - now intros [= <-].
  - unfold mbind, res_bind.
    destruct (strip_field keys obj) as [o| |] eqn:E; try discriminate.
    apply IH. exact (unique_keys_strip_field _ _ _ Hu E).
Qed.

(** Every value of [obj'] is the value [obj] has at the same place. *)
Definition values_from (obj' obj : value) : Prop :=
  forall path v,
    is_leaf v = true -> follow_keys path obj' = Ok v -> follow_keys path obj = Ok v.

Lemma values_from_refl obj : values_from obj obj.
Proof. now intros path v _ H. Qed.

Lemma values_from_trans o1 o2 o3 :
  values_from o1 o2 -> values_from o2 o3 -> values_from o1 o3.
Proof. intros H12 H23 path v Hl H. auto. Qed.

Lemma key_eq_dec (k1 k2 : key) : {k1 = k2} + {k1 <> k2}.
Proof. decide equality; [apply string_dec | apply Nat.eq_dec]. Qed.

Lemma item_at_with_item_eq (obj item item' x : value) (k : key) :
  item_at obj k = Ok item -> (forall s, obj <> VStr s) ->
  item_at (with_item obj k item') k = Ok x -> x = item'.
Proof.
  destruct obj, k; simpl; try discriminate.
  - intros _ H. exfalso. exact (H _ eq_refl).
  - destruct (l !! i) eqn:E; [|discriminate]. intros _ _.
    rewrite list_lookup_insert_eq by (eapply lookup_lt_Some; exact E).
    now intros [= <-].
  - destruct (dict_get s d) eqn:E; [|discriminate]. intros _ _.
    rewrite dict_get_set_eq. now intros [= <-].
Qed.

Lemma item_at_with_item_ne (obj item' : value) (k k1 : key) :
  k1 <> k -> item_at (with_item obj k item') k1 = item_at obj k1.
Proof.
  intros Hne. destruct obj, k; simpl; try reflexivity; destruct k1; simpl;
    try reflexivity.
  - rewrite list_lookup_insert_ne; [reflexivity | congruence].
  - rewrite dict_get_set_ne; [reflexivity | congruence].
Qed.

Lemma strip_field_values (keys : list key) :
  forall obj obj',
    unique_keys obj = true -> strip_field keys obj = Ok obj' ->
    values_from obj' obj.
Proof.
  induction keys as [|k rest IH]; intros obj obj' Hu.
  - simpl. destruct obj; discriminate.
  - destruct rest as [|k' rest'].
    + simpl. destruct obj, k; simpl; try discriminate.
      * intros [= <-] path v Hleaf. destruct path as [|k1 path].
        -- intros [= <-]. discriminate.
        -- cbn [follow_keys]. unfold mbind, res_bind.
           destruct k1 as [s1|i1]; simpl; [|discriminate].
           destruct (String.eqb_spec s s1) as [->|Hne].
           ++ rewrite dict_get_remove_eq
                by exact (proj1 (unique_keys_dict _ Hu)).
              discriminate.
           ++ now rewrite dict_get_remove_ne.
      * intros [= <-]. apply values_from_refl.
    + rewrite strip_field_cons.
      destruct (item_at obj k) as [item| |] eqn:Ei; try discriminate.
      destruct (strip_field (k' :: rest') item) as [item'| |] eqn:Es;
        try discriminate.
      intros [= <-] path v Hleaf.
      assert (Hns : forall s, obj <> VStr s).
      { intros s ->. destruct k as [n|i]; simpl in Ei; [discriminate|].
        destruct (String.get i s); [|discriminate]. injection Ei as <-.
        exact (strip_field_text _ _ _ Es). }
      destruct path as [|k1 path].
      * intros [= <-]. destruct obj, k; simpl in Ei, Hleaf |- *; try discriminate.
        reflexivity.
      * cbn [follow_keys]. unfold mbind, res_bind.
        destruct (key_eq_dec k1 k) as [->|Hne].
        -- destruct (item_at (with_item obj k item') k) as [x| |] eqn:Ex;
             try discriminate.
           rewrite (item_at_with_item_eq _ _ _ _ _ Ei Hns Ex) in *.
           rewrite Ei. intros H.
           exact (IH _ _ (unique_keys_item _ _ _ Hu Ei) Es path v Hleaf H).
        -- now rewrite item_at_with_item_ne.
Qed.

Lemma strip_errors_values (errors : list (list key)) :
  forall obj obj',
    unique_keys obj = true -> strip_errors errors obj = Ok obj' ->
    values_from obj' obj.
Proof.
  induction errors as [|keys rest IH]; intros obj obj' Hu; simpl.
  - intros [= <-]. apply values_from_refl.
  - unfold mbind, res_bind.
    destruct (strip_field keys obj) as [o| |] eqn:E; try discriminate.
    intros H. apply (values_from_trans _ o).
    + exact (IH _ _ (unique_keys_strip_field _ _ _ Hu E) H).
    + exact (strip_field_values _ _ _ Hu E).
Qed.

(** X28.  The lenient validator only strips: the model [parse_obj] returns
    is the strict model of a document each value of which (text, number,
    boolean, [None]) is the value that the document given has at the same
    place.  No value is changed, moved or made up. *)
Theorem parse_obj_only_strips {Model : Type}
    (strict_parse_obj : value -> Model + list (list key)) (fuel : nat)
    (obj : value) (model : Model) :
  unique_keys obj = true ->
  parse_obj strict_parse_obj fuel obj = Ok model ->
  exists obj',
    strict_parse_obj obj' = inl model
    /\ unique_keys obj' = true
    /\ values_from obj' obj.
Proof.
  revert obj. induction fuel as [|n IH]; intros obj Hu; [discriminate|].
  cbn [parse_obj]. destruct (strict_parse_obj obj) as [m|errors] eqn:E.
  - intros [= <-]. exists obj. auto using values_from_refl.
  - unfold mbind, res_bind.
    destruct (strip_errors errors obj) as [new_obj| |] eqn:Es; try discriminate.
    intros H.
    destruct (IH _ (unique_keys_strip_errors _ _ _ Hu Es) H) as (obj' & H1 & H2 & H3).
    exists obj'. repeat split; auto.
    exact (values_from_trans _ _ _ H3 (strip_errors_values _ _ _ Hu Es)).
Qed.

Lemma parse_obj_only_strips_witness :
  exists obj',
    requires_info_no_extension obj' = inl (VDict [("info", VDict [("title", VStr "Pets")])])
    /\ unique_keys obj' = true
    /\ values_from obj' with_info.
Proof.
  apply (parse_obj_only_strips requires_info_no_extension 2 with_info
           (VDict [("info", VDict [("title", VStr "Pets")])]));
    reflexivity.
Defined.

(** ** What dereferencing achieves *)

Definition is_schema (x : loc) (h : heap) : Prop :=
  exists a p d o, h !! x = Some (Schema a p d o).

(** Every entry of the property map [ps] is a schema. *)
Definition all_schemas (ps : list (string * loc)) (h : heap) : Prop :=
  Forall (fun kv => is_schema (snd kv) h) ps.

(** [x] is a schema whose properties, if any, are schemas. *)
Definition dereferenced (x : loc) (h : heap) : Prop :=
  exists a p d o, h !! x = Some (Schema a p d o) /\ all_schemas (default [] p) h.

Lemma is_schema_stable (x : loc) : stable (is_schema x).
Proof.
  intros h h' (a & p & d & o & Hx) Hk. specialize (Hk x). rewrite Hx in Hk.
  destruct (h' !! x) as [[| a' p' d' o' |]|] eqn:Hx'; simpl in Hk; try tauto.
  now exists a', p', d', o'.
Qed.

Lemma all_schemas_stable (ps : list (string * loc)) : stable (all_schemas ps).
Proof.
  intros h h' H Hk. unfold all_schemas in *. rewrite List.Forall_forall in *.
  intros kv Hin. exact (is_schema_stable _ _ _ (H kv Hin) Hk).
Qed.

Lemma all_schemas_dict_set (k : string) (x : loc) (ps : list (string * loc))
    (h : heap) :
  all_schemas ps h -> is_schema x h -> all_schemas (dict_set k x ps) h.
Proof.
  intros Hps Hx. unfold all_schemas in *.
  induction ps as [|[k' x'] ps IH]; simpl.
  - constructor; [exact Hx | constructor].
  - apply List.Forall_cons_iff in Hps as [Hx' Hps].
    destruct (String.eqb k k'); constructor; auto.
Qed.

Section Dereferenced.
Variable spec : OpenAPI.

Section OneLevel.
Variable rec : loc -> M unit.
Hypothesis rec_schema :
  forall x, triple (fun _ => True) (rec x) (fun _ h => is_schema x h).

Lemma rec_keeps_schema (x : loc) : keeps (rec x).
Proof. apply (keeps_of_triple _ _ _ (rec_schema x)). auto. Qed.

Lemma properties_loop_schemas (props : list (string * loc)) :
  forall acc,
    triple (all_schemas acc) (TypedParser.properties_loop spec rec props acc)
      (fun r h => all_schemas r h).
Proof.
  induction props as [|[prop_name prop_schema] rest IH]; intros acc;
    cbn [TypedParser.properties_loop].
  - apply (triple_weaken _ _ _ _ _ (triple_ret (all_schemas acc) acc)); auto.
    now intros a h [-> H].
  - apply (triple_bind _ _ (fun _ h => all_schemas acc h)).
    { apply triple_frame; [apply keeps_is_reference | apply all_schemas_stable]. }
    intros is_ref.
    apply (triple_bind _ _ (fun _ h => all_schemas acc h)).
    { apply triple_frame; [|apply all_schemas_stable].
      destruct is_ref; [|apply keeps_ret].
      apply keeps_bind; [apply keeps_ref_of|]. intros ref.
      apply keeps_resolve_reference. exact rec_keeps_schema. }
    intros resolved.
    apply (triple_bind _ _
             (fun _ h => all_schemas acc h /\ is_schema resolved h)).
    { apply triple_conj.
      - apply triple_frame; [apply rec_keeps_schema | apply all_schemas_stable].
      - apply (triple_weaken _ _ _ _ _ (rec_schema resolved)); auto. }
    intros _.
    apply (triple_weaken _ _ _ _ _ (IH (dict_set prop_name resolved acc))); auto.
    intros h [H1 H2]. now apply all_schemas_dict_set.
Qed.

Lemma triple_set_properties_schemas (x : loc) (v : list (string * loc)) :
  triple (fun h => property_names x (keys v) h /\ all_schemas v h)
    (set_properties x v) (fun _ h => dereferenced x h).
Proof.
  intros h r h' Hwf [Hnames Hall] E.
  destruct (triple_set_properties x v h r h' Hwf Hnames E) as [Hkept _].
  split; [exact Hkept|]. intros [] ->.
  destruct Hnames as (a & p & d & o & Hx & Hn).
  unfold set_properties in E. rewrite Hx in E. injection E as <-.
  exists a, (Some v), d, o. split; [apply lookup_insert_eq|].
  cbn [default from_option id].
  apply (all_schemas_stable v h); [exact Hall|].
  apply (heap_kept_insert _ _ _ _ Hx). simpl. rewrite Hn.
  auto using kept_text_refl.
Qed.

Lemma dereference_properties_schemas (schema : loc) :
  triple (fun _ => True) (TypedParser._dereference_properties spec rec schema)
    (fun _ h => dereferenced schema h).
Proof.
  intros h r h' Hwf _ E.
  unfold TypedParser._dereference_properties in E.
  unfold mbind, M_bind, properties_of in E.
  destruct (h !! schema) as [[| a p d o |]|] eqn:Hx;
    try (injection E as <- <-; split; [apply heap_kept_refl | discriminate]).
  destruct p as [[|p0 ps]|]; cbn [list_truthy default from_option id] in E.
  - injection E as <- <-. split; [apply heap_kept_refl|]. intros _ _.
    exists a, (Some []), d, o. split; [exact Hx | constructor].
  - set (l := p0 :: ps) in *.
    assert (Hnd : List.NoDup (keys (@nil (string * loc)) ++ keys l))
      by exact (Hwf _ _ _ _ _ Hx).
    destruct (TypedParser.properties_loop spec rec l [] h) as [r1 h1] eqn:El.
    destruct (properties_loop_keys spec rec rec_keeps_schema l [] Hnd _ _ _ Hwf I El)
      as [Hkept1 Hkeys].
    assert (Hnone : all_schemas [] h) by constructor.
    destruct (properties_loop_schemas l [] _ _ _ Hwf Hnone El)
      as [_ Hschemas].
    destruct r1 as [resolved| |];
      try (injection E as <- <-; split; [exact Hkept1 | discriminate]).
    assert (Hnames : property_names schema (keys resolved) h1).
    { rewrite (Hkeys _ eq_refl). cbn [keys map app].
      apply (property_names_stable schema (keys l) h); [|exact Hkept1].
      now exists a, l, d, o. }
    destruct (triple_set_properties_schemas schema resolved h1 r h'
                (heap_wf_kept _ _ Hwf Hkept1) (conj Hnames (Hschemas _ eq_refl)) E)
      as [Hkept2 Hpost].
    split; [exact (heap_kept_trans _ _ _ Hkept1 Hkept2) | exact Hpost].
  - injection E as <- <-. split; [apply heap_kept_refl|]. intros _ _.
    exists a, None, d, o. split; [exact Hx | constructor].
Qed.

Lemma dereference_children_body_schemas (schema : loc) :
  triple (fun _ => True) (TypedParser._dereference_children_body spec rec schema)
    (fun _ h => dereferenced schema h).
Proof.
  unfold TypedParser._dereference_children_body.
  apply (triple_bind _ _ (fun _ _ => True)).
  - apply keeps_dereference_anyof. exact rec_keeps_schema.
  - intros _. apply dereference_properties_schemas.
Qed.

End OneLevel.

Lemma dereference_children_schemas (fuel : nat) :
  forall schema,
    triple (fun _ => True) (TypedParser._dereference_children spec fuel schema)
      (fun _ h => dereferenced schema h).
Proof.
  induction fuel as [|n IH]; intros schema; cbn [TypedParser._dereference_children].
  - apply triple_fail. intros h. eexists. split; [reflexivity | discriminate].
  - apply dereference_children_body_schemas. intros x.
    apply (triple_weaken _ _ _ _ _ (IH x)); auto.
    intros _ h (a & p & d & o & Hx & _). now exists a, p, d, o.
Qed.

End Dereferenced.

(** X29.  When [_dereference_children] returns, the job is done for the
    properties of the schema: none of them is a reference any more, each is
    a schema (the one referred to, or the one that was there). *)
Theorem dereferenced_properties_are_schemas (spec : OpenAPI) (fuel : nat)
    (schema : loc) (h h' : heap) :
  heap_wf h ->
  TypedParser._dereference_children spec fuel schema h = (Ok tt, h') ->
  exists a p d o,
    h' !! schema = Some (Schema a p d o)
    /\ forall name x, In (name, x) (default [] p) ->
                      exists a' p' d' o', h' !! x = Some (Schema a' p' d' o').
Proof.
  intros Hwf E.
  destruct (dereference_children_schemas spec fuel schema h _ h' Hwf I E)
    as [_ Hpost].
  destruct (Hpost tt eq_refl) as (a & p & d & o & Hx & Hall).
  exists a, p, d, o. split; [exact Hx|].
  intros name x Hin. unfold all_schemas in Hall. rewrite List.Forall_forall in Hall.
  exact (Hall (name, x) Hin).
Qed.

Definition pet_heap_after : heap :=
  <[1%positive := Schema None (Some [("owner", 2%positive)]) None (VStr "object")]>
    pet_heap.

Lemma dereferenced_properties_are_schemas_witness :
  exists a p d o,
    pet_heap_after !! 1%positive = Some (Schema a p d o)
    /\ forall name x, In (name, x) (default [] p) ->
                      exists a' p' d' o',
                        pet_heap_after !! x = Some (Schema a' p' d' o').
Proof.
  apply (dereferenced_properties_are_schemas pet_store 3 1%positive pet_heap
           pet_heap_after).
  - exact pet_heap_wf.
  - vm_compute. reflexivity.
Defined.

(** ** Flat objects *)

Section FlatObjects.
#[local] Existing Instances Parser.M_ret Parser.M_bind.






Definition pet_def : list (string * value) :=
  [("type", VStr "object");
   ("required", VList [VStr "id"]);
   ("properties",
    VDict [("id", VDict [("type", VStr "integer")]);
           ("name", VDict [("type", VStr "string")]);
           ("vaccinated", VDict [("type", VStr "boolean")])])].


(** The whole document is extracted accordingly. *)
Lemma flat_object_extraction :
  Parser.extract_components (Some (document [("Pet", VDict pet_def)])) 1
    (document [("Pet", VDict pet_def)])
  = Ok [("Pet",
         TModel "Pet"
           [("id", VField TInt Ellipsis); ("name", VField TStr DefaultNone);
            ("vaccinated", VField TBool DefaultNone)])].
Proof. vm_compute. reflexivity. Qed.

End FlatObjects.
